(** * Log-record codec of the certificate-transparency log

    A shallow embedding of [src/merkletree/LogRecord.cc]: the fixed-width
    integer codec, [DigitallySigned], the two checkpoint records,
    [SegmentData] and [AuditProof], followed by the properties of the
    codec stated in the specification.

    Conventions of the embedding.
    - The target is the LP64 ABI the log server is built for (x86-64):
      [size_t] is 64 bits wide, [int] is 32 bits wide, and plain [char]
      is a signed 8-bit type, which is what [std::string] holds; the
      source casts no [char] to [unsigned char].  A [size_t] is a [Z] in
      [0, 2^64); every operation that can leave that range wraps
      explicitly.
    - A [std::string] is a list of bytes.  Its size is below
      [std::string::max_size()], far below 2^64, so sums of a position
      inside a string and a small constant are not wrapped; sums that
      involve a value read from the wire are.
    - A member function that mutates its receiver takes the receiver as
      [self] and returns the receiver after the call next to the C++
      return value.
    - [None] stands for a run that does not return normally: a failed
      [assert] (assertions are compiled in) or a [std::out_of_range]
      thrown by [substr].  It also marks the one operation in reach that
      the language leaves undefined, the shift in [SerializeUint] asked
      for more than 4 bytes, where a build may return anything; no caller
      asks for that and no statement below is about it. *)

From Stdlib Require Import ZArith List Lia Bool.
From coqutil Require Import Byte.
From stdpp Require Import base option list gmap.

Local Open Scope Z_scope.

(** ** The platform *)

Definition size_t := Z.

Definition size_t_bits : Z := 64.
Definition sizeof_size_t : Z := 8.
Definition int_bits : Z := 32.

(** Reduction of an integer to the range of [size_t]. *)
Definition to_size_t (z : Z) : size_t := z mod 2 ^ size_t_bits.

(** Reduction of an integer to the range of [int] (two's complement). *)
Definition to_int (z : Z) : Z :=
  (z + 2 ^ (int_bits - 1)) mod 2 ^ int_bits - 2 ^ (int_bits - 1).

(** [a + b] on [size_t]. *)
Definition size_add (a b : size_t) : size_t := to_size_t (a + b).

(** [a << k] on [size_t], for [0 <= k < 64]. *)
Definition size_shl (a : size_t) (k : Z) : size_t := to_size_t (Z.shiftl a k).

(** [a << k] on [int] for a non-negative [a]: the product, brought back
    into [int] by the two's complement conversion.  C++ gives the shift no
    meaning when [k] is not below the width of [int]; [None] marks that
    case, which says nothing about what a given build does there.  The
    only shift of this kind in the program is [0xff << ((bytes - 1) * 8)]
    in [SerializeUint], whose callers pass 1, 2 or 4 for [bytes]: the count
    is then at most 24, and no statement below is about a larger one. *)
Definition int_shl (a : Z) (k : Z) : option Z :=
  if (0 <=? k) && (k <? int_bits) then Some (to_int (Z.shiftl a k)) else None.

(** The value of a [char] as the signed 8-bit integer it is. *)
Definition char_value (c : byte) : Z :=
  let u := byte.unsigned c in if u <? 128 then u else u - 256.

(** Conversion of a [char] to [size_t]: integral promotion to [int],
    then conversion to the unsigned type (sign extension). *)
Definition size_t_of_char (c : byte) : size_t := to_size_t (char_value c).

(** The cast [(char) x] of a [size_t]: the low eight bits. *)
Definition char_of_size_t (x : size_t) : byte := byte.of_Z x.

(** ** [std::string] *)

Abbreviation std_string := (list Init.Byte.byte).

Definition size (s : std_string) : size_t := Z.of_nat (length s).

(** [s.substr(pos, n)]: throws when [pos > size()], otherwise the
    [min(n, size() - pos)] characters from [pos] on. *)
Definition substr (s : std_string) (pos n : size_t) : option std_string :=
  if size s <? pos then None
  else Some (take (Z.to_nat (Z.min n (size s - pos))) (drop (Z.to_nat pos) s)).

(** [s.substr(pos)]: the count defaults to [npos], which no string
    exceeds, so the result is the whole tail from [pos] on. *)
Definition substr_from (s : std_string) (pos : size_t) : option std_string :=
  if size s <? pos then None else Some (drop (Z.to_nat pos) s).

(** [s[i]], undefined outside the string. *)
Definition char_at (s : std_string) (i : size_t) : option byte :=
  if (0 <=? i) && (i <? size s) then s !! Z.to_nat i else None.

Definition empty (s : std_string) : bool := size s =? 0.

(** ** The integer codec *)

(** The loop of [SerializeUint]: one [push_back] for each value of
    [bytes] from the initial one down to 1. *)
Fixpoint SerializeUint_loop (inp : size_t) (bytes : nat) (result : std_string)
  : option std_string :=
  match bytes with
  | O => Some result
  | S k =>
      let sh := Z.of_nat k * 8 in
      mask ← int_shl 255 sh;
      SerializeUint_loop inp k
        (result ++ [char_of_size_t (Z.shiftr (Z.land inp (to_size_t mask)) sh)])
  end.

(** [SerializeUint(in, bytes)]: serialize MSB to LSB, write [bytes]
    least significant bytes.  The two assertions come first; [bytes],
    the loop counter, is a [nat]. *)
Definition SerializeUint (inp : size_t) (bytes : nat) : option std_string :=
  if negb (Z.of_nat bytes <=? sizeof_size_t) then None
  else if negb ((Z.of_nat bytes =? sizeof_size_t)
                || (Z.shiftr inp (Z.of_nat bytes * 8) =? 0)) then None
  else SerializeUint_loop inp bytes [].

(** The body of the loop of [DeserializeUint]: [res = (res << 8) + in[i]]. *)
Definition uint_step (res : size_t) (c : byte) : size_t :=
  size_add (size_shl res 8) (size_t_of_char c).

(** [DeserializeUint(in)]. *)
Definition DeserializeUint (inp : std_string) : option size_t :=
  if negb (size inp <=? sizeof_size_t) then None
  else Some (fold_left uint_step inp 0).

Definition IsValidHashAlgorithmEnum (h : size_t) : bool :=
  if 6 <? h then false else true.

Definition IsValidSignatureAlgorithmEnum (s : size_t) : bool :=
  if 3 <? s then false else true.


(** ** [DigitallySigned] *)

Module DigitallySigned.

(** Modelled from the spec: [LogRecord.h] is not among the sources.
    [hash_algo] and [sig_algo] are C++ enumerations ([HashAlgorithm],
    integer in [0, 6]; [SignatureAlgorithm], integer in [0, 3]), held
    here by their integer value. *)
Record t : Type := mk {
  hash_algo : Z;
  sig_algo : Z;
  sig_string : std_string
}.

(** The two enumerators are converted to [size_t] on their way into
    [SerializeUint]. *)
Definition Serialize (self : t) : option std_string :=
  result ← SerializeUint (to_size_t (hash_algo self)) 1;
  s ← SerializeUint (to_size_t (sig_algo self)) 1;
  let result := result ++ s in
  l ← SerializeUint (size (sig_string self)) 2;
  let result := result ++ l in
  Some (result ++ sig_string self).

(** Returns the number of bytes consumed (0 on failure) and the
    receiver after the call. *)
Definition ReadFromString (self : t) (data : std_string) : option (size_t * t) :=
  if size data <? 4 then Some (0, self) else
  c0 ← char_at data 0;
  let h := size_t_of_char c0 in
  c1 ← char_at data 1;
  let s := size_t_of_char c1 in
  if negb (IsValidHashAlgorithmEnum h) || negb (IsValidSignatureAlgorithmEnum s)
  then Some (0, self) else
  len ← substr data 2 2;
  sig_size ← DeserializeUint len;
  if size data <? size_add 4 sig_size then Some (0, self) else
  sig ← substr data 4 sig_size;
  Some (size_add 4 sig_size, mk h s sig).

Definition Deserialize (self : t) (data : std_string) : option (bool * t) :=
  if empty data then Some (false, self) else
  '(n, self) ← ReadFromString self data;
  if negb (n =? size data) then Some (false, self) else Some (true, self).

End DigitallySigned.

(** ** [LogSegmentCheckpoint] *)

Module LogSegmentCheckpoint.

(** Modelled from the spec: [LogRecord.h] is not among the sources.
    The counters have the type [DeserializeUint] returns and
    [SerializeUint] takes. *)
Record t : Type := mk {
  sequence_number : size_t;
  segment_size : size_t;
  signature : DigitallySigned.t;
  root : std_string
}.

Definition Serialize (self : t) : option std_string :=
  result ← SerializeUint (sequence_number self) 4;
  s ← SerializeUint (segment_size self) 4;
  let result := result ++ s in
  sig ← DigitallySigned.Serialize (signature self);
  let result := result ++ sig in
  if negb (size (root self) =? 32) then None else
  Some (result ++ root self).

(** [SerializeTreeData()].  The integer value of the enumerator
    [SegmentData::LOG_SEGMENT_TREE] is declared in [LogRecord.h], which is
    not among the sources: it is the parameter [LOG_SEGMENT_TREE]. *)
Definition SerializeTreeData (LOG_SEGMENT_TREE : Z) (self : t) : option std_string :=
  result ← SerializeUint (to_size_t LOG_SEGMENT_TREE) 1;
  s ← SerializeUint (sequence_number self) 4;
  let result := result ++ s in
  s ← SerializeUint (segment_size self) 4;
  let result := result ++ s in
  if negb (size (root self) =? 32) then None else
  Some (result ++ root self).

Definition Deserialize (self : t) (data : std_string) : option (bool * t) :=
  if size data <? 8 then Some (false, self) else
  b ← substr data 0 4;
  seq ← DeserializeUint b;
  let self := mk seq (segment_size self) (signature self) (root self) in
  b ← substr data 4 4;
  sz ← DeserializeUint b;
  let self := mk (sequence_number self) sz (signature self) (root self) in
  let pos := 8 in
  rest ← substr_from data pos;
  '(sig_size, sig) ← DigitallySigned.ReadFromString (signature self) rest;
  let self := mk (sequence_number self) (segment_size self) sig (root self) in
  if sig_size =? 0 then Some (false, self) else
  let pos := pos + sig_size in
  if negb (size data =? pos + 32) then Some (false, self) else
  r ← substr_from data pos;
  Some (true, mk (sequence_number self) (segment_size self) (signature self) r).

End LogSegmentCheckpoint.

(** ** [LogHeadCheckpoint] *)

Module LogHeadCheckpoint.

(** Modelled from the spec: [LogRecord.h] is not among the sources. *)
Record t : Type := mk {
  sequence_number : size_t;
  signature : DigitallySigned.t;
  root : std_string
}.

Definition Serialize (self : t) : option std_string :=
  result ← SerializeUint (sequence_number self) 4;
  sig ← DigitallySigned.Serialize (signature self);
  let result := result ++ sig in
  if negb (size (root self) =? 32) then None else
  Some (result ++ root self).

(** [SerializeTreeData()], with the value of the enumerator
    [SegmentData::SEGMENT_INFO_TREE] as a parameter. *)
Definition SerializeTreeData (SEGMENT_INFO_TREE : Z) (self : t) : option std_string :=
  result ← SerializeUint (to_size_t SEGMENT_INFO_TREE) 1;
  s ← SerializeUint (sequence_number self) 4;
  let result := result ++ s in
  if negb (size (root self) =? 32) then None else
  Some (result ++ root self).

Definition Deserialize (self : t) (data : std_string) : option (bool * t) :=
  if size data <? 4 then Some (false, self) else
  b ← substr data 0 4;
  seq ← DeserializeUint b;
  let self := mk seq (signature self) (root self) in
  let pos := 4 in
  rest ← substr_from data pos;
  '(sig_size, sig) ← DigitallySigned.ReadFromString (signature self) rest;
  let self := mk (sequence_number self) sig (root self) in
  if sig_size =? 0 then Some (false, self) else
  let pos := pos + sig_size in
  if negb (size data =? pos + 32) then Some (false, self) else
  r ← substr_from data pos;
  Some (true, mk (sequence_number self) (signature self) r).

End LogHeadCheckpoint.

(** ** [SegmentData] *)

Module SegmentData.

(** Modelled from the spec: [LogRecord.h] is not among the sources.
    The tree-type discriminator has two named values. *)
Inductive TreeType : Type := LOG_SEGMENT_TREE | SEGMENT_INFO_TREE.

Record t : Type := mk {
  log_segment : LogSegmentCheckpoint.t;
  log_head : LogHeadCheckpoint.t;
  timestamp : size_t
}.

Definition SerializeSegmentInfo (self : t) : option std_string :=
  if negb (LogSegmentCheckpoint.sequence_number (log_segment self)
           =? LogHeadCheckpoint.sequence_number (log_head self)) then None else
  result ← SerializeUint (LogSegmentCheckpoint.sequence_number (log_segment self)) 4;
  ts ← SerializeUint (timestamp self) 4;
  let result := result ++ ts in
  sz ← SerializeUint (LogSegmentCheckpoint.segment_size (log_segment self)) 4;
  let result := result ++ sz in
  s1 ← DigitallySigned.Serialize (LogSegmentCheckpoint.signature (log_segment self));
  let result := result ++ s1 in
  s2 ← DigitallySigned.Serialize (LogHeadCheckpoint.signature (log_head self));
  Some (result ++ s2).

Definition DeserializeSegmentInfo (self : t) (data : std_string)
  : option (bool * t) :=
  let pos := 12 in
  if size data <? pos then Some (false, self) else
  b ← substr data 0 4;
  seq ← DeserializeUint b;
  let seg := log_segment self in
  let seg := LogSegmentCheckpoint.mk seq (LogSegmentCheckpoint.segment_size seg)
               (LogSegmentCheckpoint.signature seg) (LogSegmentCheckpoint.root seg) in
  let head := log_head self in
  let head := LogHeadCheckpoint.mk (LogSegmentCheckpoint.sequence_number seg)
                (LogHeadCheckpoint.signature head) (LogHeadCheckpoint.root head) in
  b ← substr data 4 4;
  ts ← DeserializeUint b;
  b ← substr data 8 4;
  sz ← DeserializeUint b;
  let seg := LogSegmentCheckpoint.mk (LogSegmentCheckpoint.sequence_number seg) sz
               (LogSegmentCheckpoint.signature seg) (LogSegmentCheckpoint.root seg) in
  rest ← substr_from data 12;
  '(sig1_size, sig1) ←
    DigitallySigned.ReadFromString (LogSegmentCheckpoint.signature seg) rest;
  let seg := LogSegmentCheckpoint.mk (LogSegmentCheckpoint.sequence_number seg)
               (LogSegmentCheckpoint.segment_size seg) sig1
               (LogSegmentCheckpoint.root seg) in
  if sig1_size =? 0 then Some (false, mk seg head ts) else
  rest ← substr_from data (12 + sig1_size);
  '(ok, sig2) ← DigitallySigned.Deserialize (LogHeadCheckpoint.signature head) rest;
  let head := LogHeadCheckpoint.mk (LogHeadCheckpoint.sequence_number head) sig2
                (LogHeadCheckpoint.root head) in
  if negb ok then Some (false, mk seg head ts) else
  Some (true, mk seg head ts).

End SegmentData.

(** ** [AuditProof] *)

Module AuditProof.

(** Modelled from the spec: [LogRecord.h] is not among the sources. *)
Record t : Type := mk {
  tree_type : SegmentData.TreeType;
  sequence_number : size_t;
  tree_size : size_t;
  leaf_index : size_t;
  signature : DigitallySigned.t;
  audit_path : list std_string
}.

Definition is_log_segment_tree (ty : SegmentData.TreeType) : bool :=
  match ty with
  | SegmentData.LOG_SEGMENT_TREE => true
  | SegmentData.SEGMENT_INFO_TREE => false
  end.

(** The loop of [Serialize] over [audit_path]. *)
Fixpoint Serialize_path (path : list std_string) (result : std_string)
  : option std_string :=
  match path with
  | [] => Some result
  | node :: path =>
      if negb (size node =? 32) then None
      else Serialize_path path (result ++ node)
  end.

Definition Serialize (self : t) : option std_string :=
  result ← SerializeUint (sequence_number self) 4;
  result ← (if is_log_segment_tree (tree_type self)
            then ts ← SerializeUint (tree_size self) 4; Some (result ++ ts)
            else Some result);
  li ← SerializeUint (leaf_index self) 4;
  let result := result ++ li in
  sig ← DigitallySigned.Serialize (signature self);
  let result := result ++ sig in
  Serialize_path (audit_path self) result.

(** The [while] loop of [Deserialize]; [fuel] bounds the number of
    iterations and is never exhausted when it exceeds the size of
    [proof], since each iteration moves [pos] forward. *)
Fixpoint Deserialize_path (fuel : nat) (proof : std_string) (pos : size_t)
    (audit_path : list std_string) : option (list std_string) :=
  rest ← substr_from proof pos;
  if empty rest then Some audit_path else
  match fuel with
  | O => None
  | S fuel =>
      node ← substr proof pos 32;
      Deserialize_path fuel proof (pos + 32) (audit_path ++ [node])
  end.

Definition Deserialize (self : t) (type : SegmentData.TreeType)
    (proof : std_string) : option (bool * t) :=
  let self := mk type (sequence_number self) (tree_size self)
                (leaf_index self) (signature self) (audit_path self) in
  let pos := 0 in
  if size proof <? pos + 4 then Some (false, self) else
  b ← substr proof pos 4;
  seq ← DeserializeUint b;
  let self := mk (tree_type self) seq (tree_size self)
                (leaf_index self) (signature self) (audit_path self) in
  let pos := pos + 4 in
  let after_tree_size (self : t) (pos : size_t) : option (bool * t) :=
    if size proof <? pos + 4 then Some (false, self) else
    b ← substr proof pos 4;
    li ← DeserializeUint b;
    let self := mk (tree_type self) (sequence_number self) (tree_size self)
                  li (signature self) (audit_path self) in
    let pos := pos + 4 in
    rest ← substr_from proof pos;
    '(sig_size, sig) ← DigitallySigned.ReadFromString (signature self) rest;
    let self := mk (tree_type self) (sequence_number self) (tree_size self)
                  (leaf_index self) sig (audit_path self) in
    if sig_size =? 0 then Some (false, self) else
    let pos := pos + sig_size in
    rest ← substr_from proof pos;
    if negb (size rest mod 32 =? 0) then Some (false, self) else
    path ← Deserialize_path (S (length proof)) proof pos [];
    Some (true, mk (tree_type self) (sequence_number self) (tree_size self)
                  (leaf_index self) (signature self) path) in
  if is_log_segment_tree (tree_type self) then
    if size proof <? pos + 4 then Some (false, self) else
    b ← substr proof pos 4;
    ts ← DeserializeUint b;
    let self := mk (tree_type self) (sequence_number self) ts
                  (leaf_index self) (signature self) (audit_path self) in
    after_tree_size self (pos + 4)
  else
    let self := mk (tree_type self) (sequence_number self)
                  (size_add (sequence_number self) 1)
                  (leaf_index self) (signature self) (audit_path self) in
    after_tree_size self pos.

End AuditProof.

(** ** The Cloud Monitoring gauge and counter

    [monitoring/gcm/gauge.h] and [monitoring/gcm/counter.h].  A gauge
    holds [values_], a [std::map] from label tuples to [double]; a counter
    owns one gauge and reaches it only through [Get] and [Set].  The key
    type [K] stands for [std::tuple<LabelTypes...>].  The type [V] stands
    for [double]: [zero] and [one] are the values the literals [0] and
    [1] convert to, [add] is its addition; no property below depends on
    how [double] computes.  Every member function runs under the mutex of
    its object from its first statement to its last, so each is one step
    on the state. *)

Module GCMGauge.

Definition Get `{Countable K} {V : Type} (zero : V) (values_ : gmap K V)
    (labels : K) : V :=
  match values_ !! labels with
  | None => zero
  | Some v => v
  end.

(** [Set(labels..., value)]; [Set] itself is a reserved word. *)
Definition Set_ `{Countable K} {V : Type} (values_ : gmap K V) (labels : K)
    (value : V) : gmap K V :=
  <[labels := value]> values_.

End GCMGauge.

Module GCMCounter.

Definition IncrementBy `{Countable K} {V : Type} (zero : V) (add : V -> V -> V)
    (gauge_ : gmap K V) (labels : K) (amount : V) : gmap K V :=
  GCMGauge.Set_ gauge_ labels (add (GCMGauge.Get zero gauge_ labels) amount).

Definition Increment `{Countable K} {V : Type} (zero one : V) (add : V -> V -> V)
    (gauge_ : gmap K V) (labels : K) : gmap K V :=
  IncrementBy zero add gauge_ labels one.

Definition Get `{Countable K} {V : Type} (zero : V) (gauge_ : gmap K V)
    (labels : K) : V :=
  GCMGauge.Get zero gauge_ labels.

End GCMCounter.

(** ** Vocabulary of the statements *)

(** The [n] low bytes of [v], most significant first. *)
Fixpoint be_bytes (v : Z) (n : nat) : std_string :=
  match n with
  | O => []
  | S k => byte.of_Z (v / 2 ^ (8 * Z.of_nat k)) :: be_bytes v k
  end.

(** The unsigned big-endian value of a byte string, continuing from
    [acc]. *)
Definition be_value_from (acc : Z) (s : std_string) : Z :=
  fold_left (fun acc c => acc * 256 + byte.unsigned c) s acc.

Definition be_value (s : std_string) : Z := be_value_from 0 s.

(** The same sum with every byte read as the signed [char] it is. *)
Definition signed_value_from (acc : Z) (s : std_string) : Z :=
  fold_left (fun acc c => acc * 256 + char_value c) s acc.

(** No byte of [s] is 0x80 or above. *)
Definition plain_bytes (s : std_string) : Prop :=
  Forall (fun c => byte.unsigned c < 128) s.

(** What [DeserializeUint(data.substr(pos, n))] evaluates to. *)
Definition uint_at (data : std_string) (pos n : Z) : size_t :=
  fold_left uint_step (take (Z.to_nat n) (drop (Z.to_nat pos) data)) 0.

(** The count [ReadFromString] returns on [data.substr(pos)]: the number
    of bytes the embedded signature consumed, 0 when the parse failed. *)
Definition signature_consumed (self : DigitallySigned.t) (data : std_string)
    (pos : Z) : size_t :=
  match DigitallySigned.ReadFromString self (drop (Z.to_nat pos) data) with
  | Some (n, _) => n
  | None => 0
  end.

(** The signature record [ReadFromString] leaves behind on
    [data.substr(pos)]. *)
Definition signature_parsed (self : DigitallySigned.t) (data : std_string)
    (pos : Z) : DigitallySigned.t :=
  match DigitallySigned.ReadFromString self (drop (Z.to_nat pos) data) with
  | Some (_, d) => d
  | None => self
  end.

(** The result of the strict parse [Deserialize] on [data.substr(pos)]. *)
Definition strict_parse (self : DigitallySigned.t) (data : std_string)
    (pos : Z) : bool * DigitallySigned.t :=
  match DigitallySigned.Deserialize self (drop (Z.to_nat pos) data) with
  | Some r => r
  | None => (false, self)
  end.

(** Offset of the embedded signature in an audit proof of a given tree. *)
Definition signature_offset (ty : SegmentData.TreeType) : Z :=
  if AuditProof.is_log_segment_tree ty then 12 else 8.

(** [v] fits in [n] bytes. *)
Definition fits (n : nat) (v : Z) : Prop := 0 <= v < 2 ^ (8 * Z.of_nat n).

(** None of the [n] low bytes of [v] has its top bit set. *)
Fixpoint high_bits_clear (n : nat) (v : Z) : Prop :=
  match n with
  | O => True
  | S k => (v / 2 ^ (8 * Z.of_nat k)) mod 256 < 128 /\ high_bits_clear k v
  end.

(** A Merkle hash: exactly 32 bytes. *)
Definition hash32 (s : std_string) : Prop := size s = 32.

(** Valid records, after the data model of the specification: the
    algorithm fields are in their enumerations, a signature has at most
    2^16 - 1 bytes, every counter fits in four bytes, every root and
    every node of an audit path is a hash, and the two sequence numbers
    of a [SegmentData] agree. *)
Definition valid_DigitallySigned (d : DigitallySigned.t) : Prop :=
  0 <= DigitallySigned.hash_algo d <= 6 /\
  0 <= DigitallySigned.sig_algo d <= 3 /\
  size (DigitallySigned.sig_string d) <= 65535.

Definition valid_LogSegmentCheckpoint (c : LogSegmentCheckpoint.t) : Prop :=
  fits 4 (LogSegmentCheckpoint.sequence_number c) /\
  fits 4 (LogSegmentCheckpoint.segment_size c) /\
  valid_DigitallySigned (LogSegmentCheckpoint.signature c) /\
  hash32 (LogSegmentCheckpoint.root c).

Definition valid_LogHeadCheckpoint (c : LogHeadCheckpoint.t) : Prop :=
  fits 4 (LogHeadCheckpoint.sequence_number c) /\
  valid_DigitallySigned (LogHeadCheckpoint.signature c) /\
  hash32 (LogHeadCheckpoint.root c).

Definition valid_SegmentData (d : SegmentData.t) : Prop :=
  valid_LogSegmentCheckpoint (SegmentData.log_segment d) /\
  valid_LogHeadCheckpoint (SegmentData.log_head d) /\
  fits 4 (SegmentData.timestamp d) /\
  LogSegmentCheckpoint.sequence_number (SegmentData.log_segment d)
  = LogHeadCheckpoint.sequence_number (SegmentData.log_head d).

Definition valid_AuditProof (p : AuditProof.t) : Prop :=
  fits 4 (AuditProof.sequence_number p) /\
  fits 4 (AuditProof.tree_size p) /\
  fits 4 (AuditProof.leaf_index p) /\
  valid_DigitallySigned (AuditProof.signature p) /\
  Forall hash32 (AuditProof.audit_path p).

(** The integers a record puts on the wire have no byte of value 0x80
    or above. *)
Definition plain_DigitallySigned (d : DigitallySigned.t) : Prop :=
  high_bits_clear 2 (size (DigitallySigned.sig_string d)).

Definition plain_LogSegmentCheckpoint (c : LogSegmentCheckpoint.t) : Prop :=
  high_bits_clear 4 (LogSegmentCheckpoint.sequence_number c) /\
  high_bits_clear 4 (LogSegmentCheckpoint.segment_size c) /\
  plain_DigitallySigned (LogSegmentCheckpoint.signature c).

Definition plain_LogHeadCheckpoint (c : LogHeadCheckpoint.t) : Prop :=
  high_bits_clear 4 (LogHeadCheckpoint.sequence_number c) /\
  plain_DigitallySigned (LogHeadCheckpoint.signature c).

Definition plain_SegmentData (d : SegmentData.t) : Prop :=
  plain_LogSegmentCheckpoint (SegmentData.log_segment d) /\
  plain_LogHeadCheckpoint (SegmentData.log_head d) /\
  high_bits_clear 4 (SegmentData.timestamp d).

Definition plain_AuditProof (p : AuditProof.t) : Prop :=
  high_bits_clear 4 (AuditProof.sequence_number p) /\
  (AuditProof.tree_type p = SegmentData.LOG_SEGMENT_TREE ->
   high_bits_clear 4 (AuditProof.tree_size p)) /\
  high_bits_clear 4 (AuditProof.leaf_index p) /\
  plain_DigitallySigned (AuditProof.signature p).

(** [d] with the two roots taken from [from]: what a decode of the
    segment-info form into the receiver [from] can at best produce. *)
Definition with_roots_of (from d : SegmentData.t) : SegmentData.t :=
  let seg := SegmentData.log_segment d in
  let head := SegmentData.log_head d in
  SegmentData.mk
    (LogSegmentCheckpoint.mk (LogSegmentCheckpoint.sequence_number seg)
       (LogSegmentCheckpoint.segment_size seg)
       (LogSegmentCheckpoint.signature seg)
       (LogSegmentCheckpoint.root (SegmentData.log_segment from)))
    (LogHeadCheckpoint.mk (LogHeadCheckpoint.sequence_number head)
       (LogHeadCheckpoint.signature head)
       (LogHeadCheckpoint.root (SegmentData.log_head from)))
    (SegmentData.timestamp d).

(** ** Sample records and buffers *)

Definition zeros (n : nat) : std_string := repeat Byte.x00 n.

Definition empty_signature : DigitallySigned.t := DigitallySigned.mk 0 0 [].

(** A signature of 128 bytes: its length field is [00 80]. *)
Definition signature_128 : DigitallySigned.t := DigitallySigned.mk 0 0 (zeros 128).

(** The encoding of [signature_128]. *)
Definition signature_128_encoding : std_string :=
  [Byte.x00; Byte.x00; Byte.x00; Byte.x80] ++ zeros 128.

(** The three-byte signature of the specification's second scenario. *)
Definition signature_abc : DigitallySigned.t :=
  DigitallySigned.mk 4 3 [Byte.x41; Byte.x42; Byte.x43].

(** Default-constructed receivers. *)
Definition fresh_LogSegmentCheckpoint : LogSegmentCheckpoint.t :=
  LogSegmentCheckpoint.mk 0 0 empty_signature [].

Definition fresh_LogHeadCheckpoint : LogHeadCheckpoint.t :=
  LogHeadCheckpoint.mk 0 empty_signature [].

Definition fresh_SegmentData : SegmentData.t :=
  SegmentData.mk fresh_LogSegmentCheckpoint fresh_LogHeadCheckpoint 0.

Definition fresh_AuditProof : AuditProof.t :=
  AuditProof.mk SegmentData.LOG_SEGMENT_TREE 0 0 0 empty_signature [].

Definition segment_checkpoint_7 : LogSegmentCheckpoint.t :=
  LogSegmentCheckpoint.mk 7 9 signature_abc (zeros 32).

(** The head checkpoint of the specification's third scenario. *)
Definition head_checkpoint_7 : LogHeadCheckpoint.t :=
  LogHeadCheckpoint.mk 7 (DigitallySigned.mk 1 1 []) (zeros 32).

(** A valid segment record with all-zero roots. *)
Definition segment_data_7 : SegmentData.t :=
  SegmentData.mk segment_checkpoint_7 head_checkpoint_7 5.

(** A valid segment record whose first signature is 384 bytes long
    (length field [01 80]) and carries, from its byte 128 on, the four
    bytes [00 00 01 01]. *)
Definition crafted_signature : DigitallySigned.t :=
  DigitallySigned.mk 0 0
    (zeros 128 ++ [Byte.x00; Byte.x00; Byte.x01; Byte.x01] ++ zeros 252).

Definition crafted_segment_data : SegmentData.t :=
  SegmentData.mk
    (LogSegmentCheckpoint.mk 0 0 crafted_signature (zeros 32))
    (LogHeadCheckpoint.mk 0 empty_signature (zeros 32))
    0.

(** The audit proofs of the specification's fourth and fifth scenarios. *)
Definition segment_info_proof : AuditProof.t :=
  AuditProof.mk SegmentData.SEGMENT_INFO_TREE 5 6 1 (DigitallySigned.mk 1 1 [])
    [repeat Byte.xaa 32; repeat Byte.xbb 32].

Definition log_segment_proof : AuditProof.t :=
  AuditProof.mk SegmentData.LOG_SEGMENT_TREE 5 9 3 empty_signature [].

(** A segment-info proof whose [tree_size] is not [sequence_number + 1]. *)
Definition segment_info_proof_9 : AuditProof.t :=
  AuditProof.mk SegmentData.SEGMENT_INFO_TREE 5 9 1 (DigitallySigned.mk 1 1 [])
    [repeat Byte.xaa 32; repeat Byte.xbb 32].

(** A segment-info proof for sequence number 128, with the matching
    implicit tree size. *)
Definition segment_info_proof_128 : AuditProof.t :=
  AuditProof.mk SegmentData.SEGMENT_INFO_TREE 128 129 0 empty_signature [].

(** A valid segment checkpoint whose counters have a low byte of 0x80
    or above: their wire forms are [00 00 00 80] and [00 00 00 c8]. *)
Definition segment_checkpoint_128 : LogSegmentCheckpoint.t :=
  LogSegmentCheckpoint.mk 128 200 empty_signature (zeros 32).

(** A valid log-segment proof with tree size 128. *)
Definition log_segment_proof_128 : AuditProof.t :=
  AuditProof.mk SegmentData.LOG_SEGMENT_TREE 5 128 3 empty_signature [].

(** A valid log-segment proof with a 128-byte signature and an empty
    path. *)
Definition proof_signature_128 : AuditProof.t :=
  AuditProof.mk SegmentData.LOG_SEGMENT_TREE 5 9 3 signature_128 [].

(** A signature of 384 bytes, each [11]: its length field is [01 80]. *)
Definition signature_384 : DigitallySigned.t :=
  DigitallySigned.mk 0 0 (repeat Byte.x11 384).

(** A valid segment-info proof with that signature and a path of one
    node. *)
Definition proof_signature_384 : AuditProof.t :=
  AuditProof.mk SegmentData.SEGMENT_INFO_TREE 5 6 1 signature_384
    [repeat Byte.xaa 32].

(** A buffer that ends after the two counters of a segment checkpoint. *)
Definition truncated_checkpoint : std_string :=
  [Byte.x00; Byte.x00; Byte.x00; Byte.x01; Byte.x00; Byte.x00; Byte.x00; Byte.x02].

(** Closes a goal about sample values by evaluation. *)
Ltac by_evaluation :=
  vm_compute; repeat (split || constructor); try reflexivity; try congruence.

(** ** The platform and the string primitives *)

Lemma to_size_t_small (z : Z) : 0 <= z < 2 ^ 64 -> to_size_t z = z.
Proof. intros H. unfold to_size_t, size_t_bits. apply Z.mod_small. exact H. Qed.

Lemma to_size_t_range (z : Z) : 0 <= to_size_t z < 2 ^ 64.
Proof. unfold to_size_t, size_t_bits. apply Z.mod_pos_bound. lia. Qed.

Lemma size_nonneg (s : std_string) : 0 <= size s.
Proof. unfold size. lia. Qed.

Lemma size_app (s1 s2 : std_string) : size (s1 ++ s2) = size s1 + size s2.
Proof. unfold size. rewrite length_app. lia. Qed.

Lemma size_cons (c : byte) (s : std_string) : size (c :: s) = 1 + size s.
Proof. unfold size. simpl length. lia. Qed.

Lemma size_nil : size [] = 0.
Proof. reflexivity. Qed.

Lemma size_drop (s : std_string) (n : nat) :
  Z.of_nat n <= size s -> size (drop n s) = size s - Z.of_nat n.
Proof. unfold size. rewrite length_drop. lia. Qed.

Lemma substr_Some (s : std_string) (pos n : Z) :
  0 <= pos <= size s -> 0 <= n ->
  substr s pos n = Some (take (Z.to_nat n) (drop (Z.to_nat pos) s)).
Proof.
  intros Hpos Hn. unfold substr.
  destruct (Z.ltb_spec (size s) pos) as [Hlt | _]; [lia |].
  f_equal. destruct (Z.le_ge_cases n (size s - pos)) as [Hle | Hge].
  - rewrite Z.min_l by exact Hle. reflexivity.
  - rewrite Z.min_r by lia.
    rewrite !take_ge; [reflexivity | | ]; rewrite length_drop; unfold size in *; lia.
Qed.

Lemma substr_from_Some (s : std_string) (pos : Z) :
  0 <= pos <= size s -> substr_from s pos = Some (drop (Z.to_nat pos) s).
Proof.
  intros Hpos. unfold substr_from.
  destruct (Z.ltb_spec (size s) pos) as [Hlt | _]; [lia | reflexivity].
Qed.

(** ** Encoding and decoding integers *)

Lemma byte_of_Z_mod (x y : Z) : x mod 256 = y mod 256 -> byte.of_Z x = byte.of_Z y.
Proof.
  intros H. apply byte.unsigned_inj. rewrite !byte.unsigned_of_Z.
  unfold byte.wrap. exact H.
Qed.

(** Masking with [0xff << sh] and shifting back isolates one byte, also
    when the mask was sign-extended on its way to [size_t]. *)
Lemma masked_byte (inp M sh : Z) :
  0 <= sh -> Z.land (Z.shiftr M sh) 255 = 255 ->
  Z.shiftr (Z.land inp M) sh mod 256 = (inp / 2 ^ sh) mod 256.
Proof.
  intros Hsh HM. rewrite Z.shiftr_land.
  change 256 with (2 ^ 8). rewrite <- !Z.land_ones by lia.
  change (Z.ones 8) with 255.
  rewrite <- Z.land_assoc, HM, Z.shiftr_div_pow2 by exact Hsh. reflexivity.
Qed.

Lemma SerializeUint_loop_eq (inp : Z) (n : nat) (acc : std_string) :
  (n <= 4)%nat ->
  SerializeUint_loop inp n acc = Some (acc ++ be_bytes inp n).
Proof.
  revert acc. induction n as [| k IH]; intros acc Hn.
  - simpl. rewrite app_nil_r. reflexivity.
  - assert (Hk : (k = 0 \/ k = 1 \/ k = 2 \/ k = 3)%nat) by lia.
    cbn [SerializeUint_loop be_bytes].
    assert (Hmask : exists M, int_shl 255 (Z.of_nat k * 8) = Some M /\
              Z.land (Z.shiftr (to_size_t M) (Z.of_nat k * 8)) 255 = 255).
    { destruct Hk as [-> | [-> | [-> | ->]]]; eexists; split; reflexivity. }
    destruct Hmask as (M & -> & HM). cbn [mbind option_bind].
    rewrite IH by lia. rewrite <- app_assoc. cbn [app].
    assert (Hbyte : char_of_size_t (Z.shiftr (Z.land inp (to_size_t M)) (Z.of_nat k * 8))
                    = byte.of_Z (inp / 2 ^ (8 * Z.of_nat k))).
    { apply byte_of_Z_mod. rewrite masked_byte by (exact HM || lia).
      replace (Z.of_nat k * 8) with (8 * Z.of_nat k) by lia. reflexivity. }
    rewrite Hbyte. reflexivity.
Qed.

Lemma SerializeUint_eq (v : Z) (n : nat) :
  (n <= 4)%nat -> fits n v -> SerializeUint v n = Some (be_bytes v n).
Proof.
  intros Hn [Hlo Hhi]. unfold SerializeUint, sizeof_size_t.
  destruct (Z.leb_spec (Z.of_nat n) 8) as [_ | Hgt]; [| lia]. cbn [negb].
  replace (Z.shiftr v (Z.of_nat n * 8) =? 0) with true.
  - rewrite orb_true_r. cbn [negb]. apply SerializeUint_loop_eq. exact Hn.
  - symmetry. apply Z.eqb_eq. rewrite Z.shiftr_div_pow2 by lia.
    apply Z.div_small. replace (Z.of_nat n * 8) with (8 * Z.of_nat n) by lia. lia.
Qed.

Lemma length_be_bytes (v : Z) (n : nat) : length (be_bytes v n) = n.
Proof. induction n as [| k IH]; simpl; [reflexivity | now rewrite IH]. Qed.

Lemma size_be_bytes (v : Z) (n : nat) : size (be_bytes v n) = Z.of_nat n.
Proof. unfold size. now rewrite length_be_bytes. Qed.

Lemma DeserializeUint_Some (s : std_string) :
  size s <= 8 -> DeserializeUint s = Some (fold_left uint_step s 0).
Proof.
  intros H. unfold DeserializeUint, sizeof_size_t.
  destruct (Z.leb_spec (size s) 8) as [_ | Hgt]; [reflexivity | lia].
Qed.

Lemma uint_step_signed (a : Z) (c : byte) :
  uint_step (to_size_t a) c = to_size_t (a * 256 + char_value c).
Proof.
  unfold uint_step, size_add, size_shl, size_t_of_char, to_size_t.
  rewrite Z.shiftl_mul_pow2 by lia. change (2 ^ 8) with 256.
  rewrite Zmult_mod_idemp_l, <- Zplus_mod. reflexivity.
Qed.

(** [DeserializeUint] computes the signed-digit sum modulo 2^64. *)
Lemma uint_fold_signed (s : std_string) (a : Z) :
  fold_left uint_step s (to_size_t a) = to_size_t (signed_value_from a s).
Proof.
  revert a. induction s as [| c s IH]; intros a; simpl.
  - reflexivity.
  - rewrite uint_step_signed. apply IH.
Qed.

Lemma signed_value_plain (s : std_string) (a : Z) :
  plain_bytes s -> signed_value_from a s = be_value_from a s.
Proof.
  intros H. revert a. induction H as [| c s Hc _ IH]; intros a; simpl.
  - reflexivity.
  - unfold signed_value_from, be_value_from in *. simpl.
    unfold char_value at 2. destruct (Z.ltb_spec (byte.unsigned c) 128); [apply IH | lia].
Qed.

Lemma be_value_be_bytes (v : Z) (n : nat) (a : Z) :
  be_value_from a (be_bytes v n)
  = a * 2 ^ (8 * Z.of_nat n) + v mod 2 ^ (8 * Z.of_nat n).
Proof.
  revert a. induction n as [| k IH]; intros a.
  - simpl. rewrite Z.mod_1_r. lia.
  - cbn [be_bytes]. unfold be_value_from in *. cbn [fold_left].
    rewrite IH, byte.unsigned_of_Z. unfold byte.wrap.
    replace (8 * Z.of_nat (S k)) with (8 * Z.of_nat k + 8) by lia.
    rewrite Z.pow_add_r by lia. change (2 ^ 8) with 256.
    rewrite (Z.rem_mul_r v (2 ^ (8 * Z.of_nat k)) 256) by lia.
    lia.
Qed.

Lemma plain_be_bytes (v : Z) (n : nat) :
  high_bits_clear n v -> plain_bytes (be_bytes v n).
Proof.
  induction n as [| k IH]; intros H; simpl.
  - constructor.
  - destruct H as [Hk H]. constructor; [| apply IH, H].
    rewrite byte.unsigned_of_Z. exact Hk.
Qed.

(** The decoder inverts the encoder on integers without a byte at or
    above 0x80. *)
Lemma uint_roundtrip_plain (v : Z) (n : nat) :
  (n <= 8)%nat -> fits n v -> high_bits_clear n v ->
  fold_left uint_step (be_bytes v n) 0 = v.
Proof.
  intros Hn [Hlo Hhi] Hplain.
  change 0 with (to_size_t 0) at 1.
  rewrite uint_fold_signed, signed_value_plain by (apply plain_be_bytes, Hplain).
  rewrite be_value_be_bytes, Z.mod_small by lia.
  apply to_size_t_small. split; [lia |].
  assert (2 ^ (8 * Z.of_nat n) <= 2 ^ 64) by (apply Z.pow_le_mono_r; lia). lia.
Qed.

Lemma uint_fold_range (s : std_string) : 0 <= fold_left uint_step s 0 < 2 ^ 64.
Proof.
  pose proof (uint_fold_signed s 0) as H. change (to_size_t 0) with 0 in H.
  rewrite H. apply to_size_t_range.
Qed.

Lemma size_t_of_char_plain (z : Z) :
  0 <= z < 128 -> size_t_of_char (byte.of_Z z) = z.
Proof.
  intros H. unfold size_t_of_char, char_value.
  rewrite byte.unsigned_of_Z. unfold byte.wrap. rewrite (Z.mod_small z) by lia.
  destruct (Z.ltb_spec z 128); [| lia]. apply to_size_t_small. lia.
Qed.

(** A byte at or above 0x80 converts to a [size_t] near 2^64. *)
Lemma size_t_of_char_high (c : byte) :
  128 <= byte.unsigned c ->
  size_t_of_char c = 2 ^ 64 - 256 + byte.unsigned c.
Proof.
  intros H. pose proof (byte.unsigned_range c) as Hr.
  unfold size_t_of_char, char_value, to_size_t, size_t_bits.
  destruct (Z.ltb_spec (byte.unsigned c) 128); [lia |].
  replace (byte.unsigned c - 256) with (2 ^ 64 - 256 + byte.unsigned c + (-1) * 2 ^ 64) by lia.
  rewrite Z.mod_add by lia. apply Z.mod_small. lia.
Qed.

Lemma size_t_of_char_low (c : byte) :
  byte.unsigned c < 128 -> size_t_of_char c = byte.unsigned c.
Proof.
  intros H. pose proof (byte.unsigned_range c) as Hr.
  unfold size_t_of_char, char_value.
  destruct (Z.ltb_spec (byte.unsigned c) 128); [| lia]. apply to_size_t_small. lia.
Qed.

(** The enum checks see the unsigned byte: a byte at or above 0x80
    becomes a huge [size_t] and is rejected like any other byte above
    the bound. *)
Lemma IsValidHashAlgorithmEnum_byte (c : byte) :
  IsValidHashAlgorithmEnum (size_t_of_char c) = (byte.unsigned c <=? 6).
Proof.
  unfold IsValidHashAlgorithmEnum.
  destruct (Z.ltb_spec (byte.unsigned c) 128) as [Hlo | Hhi].
  - rewrite size_t_of_char_low by exact Hlo.
    destruct (Z.ltb_spec 6 (byte.unsigned c)), (Z.leb_spec (byte.unsigned c) 6); lia || reflexivity.
  - rewrite size_t_of_char_high by exact Hhi. pose proof (byte.unsigned_range c).
    destruct (Z.ltb_spec 6 (2 ^ 64 - 256 + byte.unsigned c)),
      (Z.leb_spec (byte.unsigned c) 6); lia || reflexivity.
Qed.

Lemma IsValidSignatureAlgorithmEnum_byte (c : byte) :
  IsValidSignatureAlgorithmEnum (size_t_of_char c) = (byte.unsigned c <=? 3).
Proof.
  unfold IsValidSignatureAlgorithmEnum.
  destruct (Z.ltb_spec (byte.unsigned c) 128) as [Hlo | Hhi].
  - rewrite size_t_of_char_low by exact Hlo.
    destruct (Z.ltb_spec 3 (byte.unsigned c)), (Z.leb_spec (byte.unsigned c) 3); lia || reflexivity.
  - rewrite size_t_of_char_high by exact Hhi. pose proof (byte.unsigned_range c).
    destruct (Z.ltb_spec 3 (2 ^ 64 - 256 + byte.unsigned c)),
      (Z.leb_spec (byte.unsigned c) 3); lia || reflexivity.
Qed.

Lemma be_bytes_1 (v : Z) : be_bytes v 1 = [byte.of_Z v].
Proof. cbn. rewrite Z.div_1_r. reflexivity. Qed.

(** ** The prefix parse of [DigitallySigned] *)

Lemma size_cons4 (b0 b1 b2 b3 : byte) (rest : std_string) :
  size (b0 :: b1 :: b2 :: b3 :: rest) = 4 + size rest.
Proof. rewrite !size_cons. lia. Qed.

(** [ReadFromString] on a buffer of at least four bytes, step by step. *)
Lemma ReadFromString_cons4 (self : DigitallySigned.t) (b0 b1 b2 b3 : byte)
    (rest : std_string) :
  DigitallySigned.ReadFromString self (b0 :: b1 :: b2 :: b3 :: rest)
  = Some
      (if negb (IsValidHashAlgorithmEnum (size_t_of_char b0))
          || negb (IsValidSignatureAlgorithmEnum (size_t_of_char b1))
       then (0, self)
       else if 4 + size rest <? size_add 4 (fold_left uint_step [b2; b3] 0)
       then (0, self)
       else (size_add 4 (fold_left uint_step [b2; b3] 0),
             DigitallySigned.mk (size_t_of_char b0) (size_t_of_char b1)
               (take (Z.to_nat (fold_left uint_step [b2; b3] 0)) rest))).
Proof.
  pose proof (size_nonneg rest) as Hrest.
  pose proof (uint_fold_range [b2; b3]) as Hsig.
  unfold DigitallySigned.ReadFromString. rewrite size_cons4.
  destruct (Z.ltb_spec (4 + size rest) 4) as [Hlt | _]; [lia |].
  unfold char_at. rewrite size_cons4.
  replace (0 <? 4 + size rest) with true by (symmetry; apply Z.ltb_lt; lia).
  replace (1 <? 4 + size rest) with true by (symmetry; apply Z.ltb_lt; lia).
  change ((0 <=? 0) && true) with true. change ((0 <=? 1) && true) with true.
  change ((b0 :: b1 :: b2 :: b3 :: rest) !! Z.to_nat 0) with (Some b0).
  change ((b0 :: b1 :: b2 :: b3 :: rest) !! Z.to_nat 1) with (Some b1).
  cbn [mbind option_bind].
  destruct (negb _ || negb _); [reflexivity |].
  rewrite substr_Some by (rewrite ?size_cons4; lia).
  change (take (Z.to_nat 2) (drop (Z.to_nat 2) (b0 :: b1 :: b2 :: b3 :: rest)))
    with [b2; b3].
  cbn [mbind option_bind].
  rewrite DeserializeUint_Some by (rewrite !size_cons, size_nil; lia).
  cbn [mbind option_bind].
  destruct (4 + size rest <? _); [reflexivity |].
  rewrite substr_Some by (rewrite ?size_cons4; lia).
  change (drop (Z.to_nat 4) (b0 :: b1 :: b2 :: b3 :: rest)) with rest.
  reflexivity.
Qed.

Lemma ReadFromString_short (self : DigitallySigned.t) (data : std_string) :
  size data < 4 -> DigitallySigned.ReadFromString self data = Some (0, self).
Proof.
  intros H. unfold DigitallySigned.ReadFromString.
  destruct (Z.ltb_spec (size data) 4); [reflexivity | lia].
Qed.

Lemma string_cases4 (data : std_string) :
  size data < 4 \/ exists b0 b1 b2 b3 rest, data = b0 :: b1 :: b2 :: b3 :: rest.
Proof.
  destruct data as [| b0 [| b1 [| b2 [| b3 rest]]]];
    try (left; unfold size; simpl; lia).
  right. eauto 6.
Qed.

(** [ReadFromString] always returns, and never reports more bytes than
    the buffer holds: every [substr] that follows it is in range. *)
Lemma ReadFromString_total (self : DigitallySigned.t) (data : std_string) :
  exists n d, DigitallySigned.ReadFromString self data = Some (n, d)
              /\ 0 <= n <= size data.
Proof.
  pose proof (size_nonneg data) as Hsz.
  destruct (string_cases4 data) as [Hshort | (b0 & b1 & b2 & b3 & rest & ->)].
  - exists 0, self. split; [apply ReadFromString_short, Hshort | lia].
  - rewrite ReadFromString_cons4. rewrite size_cons4 in *.
    destruct (negb _ || negb _); [eexists _, _; split; [reflexivity | lia] |].
    destruct (Z.ltb_spec (4 + size rest) (size_add 4 (fold_left uint_step [b2; b3] 0)));
      (eexists _, _; split; [reflexivity |]); [lia |].
    pose proof (to_size_t_range (4 + fold_left uint_step [b2; b3] 0)).
    unfold size_add in *. lia.
Qed.

Lemma DigitallySigned_Serialize_eq (d : DigitallySigned.t) :
  valid_DigitallySigned d ->
  DigitallySigned.Serialize d
  = Some (byte.of_Z (DigitallySigned.hash_algo d)
          :: byte.of_Z (DigitallySigned.sig_algo d)
          :: be_bytes (size (DigitallySigned.sig_string d)) 2
          ++ DigitallySigned.sig_string d).
Proof.
  intros (Hh & Hs & Hlen). pose proof (size_nonneg (DigitallySigned.sig_string d)).
  unfold DigitallySigned.Serialize. rewrite !to_size_t_small by lia.
  rewrite !SerializeUint_eq by (try lia; unfold fits; simpl; lia).
  rewrite !be_bytes_1. reflexivity.
Qed.

Lemma size_DigitallySigned_encoding (d : DigitallySigned.t) (enc : std_string) :
  valid_DigitallySigned d -> DigitallySigned.Serialize d = Some enc ->
  size enc = 4 + size (DigitallySigned.sig_string d).
Proof.
  intros Hv. rewrite DigitallySigned_Serialize_eq by exact Hv.
  intros [= <-]. rewrite !size_cons. lia.
Qed.

(** Prefix parse of an encoding whose length field has no byte at or
    above 0x80, followed by any suffix. *)
Lemma ReadFromString_encoded (self d : DigitallySigned.t) (enc S : std_string) :
  valid_DigitallySigned d -> plain_DigitallySigned d ->
  DigitallySigned.Serialize d = Some enc ->
  DigitallySigned.ReadFromString self (enc ++ S) = Some (size enc, d).
Proof.
  intros Hv Hp Henc.
  rewrite (size_DigitallySigned_encoding d enc Hv Henc).
  rewrite DigitallySigned_Serialize_eq in Henc by exact Hv.
  injection Henc as <-. destruct Hv as (Hh & Hs & Hlen).
  destruct d as [h s sig]. cbn [DigitallySigned.hash_algo DigitallySigned.sig_algo
    DigitallySigned.sig_string] in *.
  pose proof (size_nonneg sig) as Hsig. pose proof (size_nonneg S) as HS.
  assert (Hdec : fold_left uint_step (be_bytes (size sig) 2) 0 = size sig).
  { apply uint_roundtrip_plain; [lia | unfold fits; simpl; lia | exact Hp]. }
  cbn [be_bytes app] in *.
  rewrite ReadFromString_cons4, Hdec.
  rewrite !size_t_of_char_plain by lia.
  unfold IsValidHashAlgorithmEnum, IsValidSignatureAlgorithmEnum.
  destruct (Z.ltb_spec 6 h); [lia |]. destruct (Z.ltb_spec 3 s); [lia |].
  cbn [negb orb]. unfold size_add. rewrite to_size_t_small by lia.
  rewrite size_app.
  destruct (Z.ltb_spec (4 + (size sig + size S)) (4 + size sig)); [lia |].
  unfold size. rewrite Nat2Z.id, take_app_length. reflexivity.
Qed.

Lemma DigitallySigned_Deserialize_encoded (self d : DigitallySigned.t)
    (enc S : std_string) :
  valid_DigitallySigned d -> plain_DigitallySigned d ->
  DigitallySigned.Serialize d = Some enc ->
  DigitallySigned.Deserialize self (enc ++ S) = Some (empty S, d).
Proof.
  intros Hv Hp Henc. unfold DigitallySigned.Deserialize.
  pose proof (size_DigitallySigned_encoding d enc Hv Henc) as Hsz.
  pose proof (size_nonneg (DigitallySigned.sig_string d)).
  pose proof (size_nonneg S).
  unfold empty at 1. rewrite size_app.
  destruct (Z.eqb_spec (size enc + size S) 0); [lia |].
  rewrite (ReadFromString_encoded self d enc S Hv Hp Henc).
  cbn [mbind option_bind]. unfold empty.
  destruct (Z.eqb_spec (size enc) (size enc + size S)), (Z.eqb_spec (size S) 0);
    (reflexivity || lia).
Qed.

(** ** The checkpoint decoders, step by step *)

(** Reading one fixed-width integer: [DeserializeUint(data.substr(pos, n))]
    neither throws nor trips the assertion. *)
Lemma read_uint {A : Type} (data : std_string) (pos n : Z)
    (k : size_t -> option A) :
  0 <= pos <= size data -> 0 <= n <= 8 ->
  (substr data pos n ≫= λ b, DeserializeUint b ≫= k) = k (uint_at data pos n).
Proof.
  intros Hpos Hn. rewrite substr_Some by lia. cbn [mbind option_bind].
  rewrite DeserializeUint_Some; [reflexivity |].
  unfold size. rewrite length_take. lia.
Qed.

Lemma read_signature (self : DigitallySigned.t) (data : std_string) (pos : Z) :
  DigitallySigned.ReadFromString self (drop (Z.to_nat pos) data)
  = Some (signature_consumed self data pos, signature_parsed self data pos).
Proof.
  unfold signature_consumed, signature_parsed.
  destruct (ReadFromString_total self (drop (Z.to_nat pos) data)) as (n & d & -> & _).
  reflexivity.
Qed.

Lemma signature_consumed_range (self : DigitallySigned.t) (data : std_string)
    (pos : Z) :
  0 <= pos <= size data ->
  0 <= signature_consumed self data pos <= size data - pos.
Proof.
  intros Hpos. unfold signature_consumed.
  destruct (ReadFromString_total self (drop (Z.to_nat pos) data)) as (n & d & -> & Hn).
  rewrite size_drop in Hn by lia. lia.
Qed.

Lemma LogSegmentCheckpoint_Deserialize_eq (self : LogSegmentCheckpoint.t)
    (data : std_string) :
  8 <= size data ->
  let sig := LogSegmentCheckpoint.signature self in
  let n := signature_consumed sig data 8 in
  let parsed := LogSegmentCheckpoint.mk (uint_at data 0 4) (uint_at data 4 4)
                  (signature_parsed sig data 8) (LogSegmentCheckpoint.root self) in
  LogSegmentCheckpoint.Deserialize self data
  = Some (if n =? 0 then (false, parsed)
          else if negb (size data =? 8 + n + 32) then (false, parsed)
          else (true, LogSegmentCheckpoint.mk (uint_at data 0 4) (uint_at data 4 4)
                        (signature_parsed sig data 8)
                        (drop (Z.to_nat (8 + n)) data))).
Proof.
  intros Hsz sig n parsed. unfold LogSegmentCheckpoint.Deserialize.
  destruct (Z.ltb_spec (size data) 8); [lia |].
  rewrite read_uint by lia. cbn [LogSegmentCheckpoint.sequence_number
    LogSegmentCheckpoint.segment_size LogSegmentCheckpoint.signature
    LogSegmentCheckpoint.root].
  rewrite read_uint by lia. cbn [LogSegmentCheckpoint.sequence_number
    LogSegmentCheckpoint.segment_size LogSegmentCheckpoint.signature
    LogSegmentCheckpoint.root].
  rewrite substr_from_Some by lia. cbn [mbind option_bind].
  rewrite read_signature. fold sig n. cbn [mbind option_bind
    LogSegmentCheckpoint.sequence_number
    LogSegmentCheckpoint.segment_size LogSegmentCheckpoint.signature
    LogSegmentCheckpoint.root].
  destruct (n =? 0); [reflexivity |].
  destruct (Z.eqb_spec (size data) (8 + n + 32)) as [Heq | Hne]; [| reflexivity].
  cbn [negb]. pose proof (signature_consumed_range sig data 8 ltac:(lia)) as Hn.
  fold n in Hn. rewrite substr_from_Some by lia. reflexivity.
Qed.

Lemma LogHeadCheckpoint_Deserialize_eq (self : LogHeadCheckpoint.t)
    (data : std_string) :
  4 <= size data ->
  let sig := LogHeadCheckpoint.signature self in
  let n := signature_consumed sig data 4 in
  let parsed := LogHeadCheckpoint.mk (uint_at data 0 4)
                  (signature_parsed sig data 4) (LogHeadCheckpoint.root self) in
  LogHeadCheckpoint.Deserialize self data
  = Some (if n =? 0 then (false, parsed)
          else if negb (size data =? 4 + n + 32) then (false, parsed)
          else (true, LogHeadCheckpoint.mk (uint_at data 0 4)
                        (signature_parsed sig data 4)
                        (drop (Z.to_nat (4 + n)) data))).
Proof.
  intros Hsz sig n parsed. unfold LogHeadCheckpoint.Deserialize.
  destruct (Z.ltb_spec (size data) 4); [lia |].
  rewrite read_uint by lia. cbn [LogHeadCheckpoint.sequence_number
    LogHeadCheckpoint.signature LogHeadCheckpoint.root].
  rewrite substr_from_Some by lia. cbn [mbind option_bind].
  rewrite read_signature. fold sig n. cbn [mbind option_bind
    LogHeadCheckpoint.sequence_number
    LogHeadCheckpoint.signature LogHeadCheckpoint.root].
  destruct (n =? 0); [reflexivity |].
  destruct (Z.eqb_spec (size data) (4 + n + 32)) as [Heq | Hne]; [| reflexivity].
  cbn [negb]. pose proof (signature_consumed_range sig data 4 ltac:(lia)) as Hn.
  fold n in Hn. rewrite substr_from_Some by lia. reflexivity.
Qed.

(** ** [DeserializeSegmentInfo], step by step *)

Lemma DigitallySigned_Deserialize_total (self : DigitallySigned.t)
    (data : std_string) :
  exists ok d, DigitallySigned.Deserialize self data = Some (ok, d).
Proof.
  unfold DigitallySigned.Deserialize. destruct (empty data); [eauto |].
  destruct (ReadFromString_total self data) as (n & d & -> & _).
  cbn [mbind option_bind]. destruct (negb _); eauto.
Qed.

Lemma read_strict (self : DigitallySigned.t) (data : std_string) (pos : Z) :
  DigitallySigned.Deserialize self (drop (Z.to_nat pos) data)
  = Some (strict_parse self data pos).
Proof.
  unfold strict_parse.
  destruct (DigitallySigned_Deserialize_total self (drop (Z.to_nat pos) data))
    as (ok & d & ->).
  reflexivity.
Qed.

Lemma DeserializeSegmentInfo_eq (self : SegmentData.t) (data : std_string) :
  12 <= size data ->
  let seg0 := SegmentData.log_segment self in
  let head0 := SegmentData.log_head self in
  let n1 := signature_consumed (LogSegmentCheckpoint.signature seg0) data 12 in
  let seg := LogSegmentCheckpoint.mk (uint_at data 0 4) (uint_at data 8 4)
               (signature_parsed (LogSegmentCheckpoint.signature seg0) data 12)
               (LogSegmentCheckpoint.root seg0) in
  let strict := strict_parse (LogHeadCheckpoint.signature head0) data (12 + n1) in
  SegmentData.DeserializeSegmentInfo self data
  = Some (if n1 =? 0
          then (false, SegmentData.mk seg
                         (LogHeadCheckpoint.mk (uint_at data 0 4)
                            (LogHeadCheckpoint.signature head0)
                            (LogHeadCheckpoint.root head0))
                         (uint_at data 4 4))
          else (strict.1, SegmentData.mk seg
                            (LogHeadCheckpoint.mk (uint_at data 0 4) strict.2
                               (LogHeadCheckpoint.root head0))
                            (uint_at data 4 4))).
Proof.
  intros Hsz seg0 head0 n1 seg strict. unfold SegmentData.DeserializeSegmentInfo.
  destruct (Z.ltb_spec (size data) 12); [lia |].
  rewrite read_uint by lia. rewrite read_uint by lia. rewrite read_uint by lia.
  rewrite substr_from_Some by lia. cbn [mbind option_bind
    LogSegmentCheckpoint.sequence_number LogSegmentCheckpoint.segment_size
    LogSegmentCheckpoint.signature LogSegmentCheckpoint.root
    LogHeadCheckpoint.sequence_number LogHeadCheckpoint.signature
    LogHeadCheckpoint.root].
  rewrite read_signature. fold seg0 head0 n1. cbn [mbind option_bind].
  destruct (n1 =? 0); [reflexivity |].
  pose proof (signature_consumed_range (LogSegmentCheckpoint.signature seg0)
                data 12 ltac:(lia)) as Hn1. fold n1 in Hn1.
  rewrite substr_from_Some by lia. cbn [mbind option_bind].
  rewrite read_strict. fold strict. destruct strict as [ok sig2].
  cbn [mbind option_bind fst snd]. destruct ok; reflexivity.
Qed.

(** ** The audit-proof codec, step by step *)

Lemma Serialize_path_eq (path : list std_string) (acc : std_string) :
  Forall hash32 path ->
  AuditProof.Serialize_path path acc = Some (acc ++ concat path).
Proof.
  intros H. revert acc. induction H as [| node path Hnode _ IH]; intros acc; simpl.
  - rewrite app_nil_r. reflexivity.
  - unfold hash32 in Hnode. rewrite Hnode. cbn [Z.eqb Pos.eqb negb].
    rewrite IH, <- app_assoc. reflexivity.
Qed.

Lemma multiple_of_32_step (x : Z) : 0 < x -> x mod 32 = 0 -> 32 <= x /\ (x - 32) mod 32 = 0.
Proof. intros Hpos Hmod. Z.div_mod_to_equations. lia. Qed.

(** The [while] loop cuts a residue whose size is a multiple of 32 into
    consecutive 32-byte nodes, appended in order. *)
Lemma Deserialize_path_chunks (fuel : nat) (proof : std_string) (pos : Z)
    (acc : list std_string) :
  0 <= pos <= size proof ->
  (size proof - pos) mod 32 = 0 ->
  size proof - pos < 32 * (Z.of_nat fuel + 1) ->
  exists chunks,
    AuditProof.Deserialize_path fuel proof pos acc = Some (acc ++ chunks)
    /\ concat chunks = drop (Z.to_nat pos) proof
    /\ Forall hash32 chunks.
Proof.
  revert pos acc. induction fuel as [| fuel IH]; intros pos acc Hpos Hmod Hfuel.
  - assert (Hend : size proof - pos = 0) by (Z.div_mod_to_equations; lia).
    exists []. cbn [AuditProof.Deserialize_path].
    rewrite substr_from_Some by lia. cbn [mbind option_bind].
    unfold empty. rewrite size_drop by lia. rewrite Z2Nat.id by lia.
    rewrite Hend. cbn [Z.eqb]. rewrite app_nil_r. repeat split; [| constructor].
    symmetry. apply nil_length_inv. rewrite length_drop. unfold size in *. lia.
  - cbn [AuditProof.Deserialize_path].
    rewrite substr_from_Some by lia. cbn [mbind option_bind].
    unfold empty. rewrite size_drop by lia. rewrite Z2Nat.id by lia.
    destruct (Z.eqb_spec (size proof - pos) 0) as [Hend | Hmore].
    + exists []. rewrite app_nil_r. repeat split; [| constructor].
      symmetry. apply nil_length_inv. rewrite length_drop. unfold size in *. lia.
    + destruct (multiple_of_32_step (size proof - pos)) as [H32 Hmod']; [lia | exact Hmod |].
      rewrite substr_Some by lia. cbn [mbind option_bind].
      destruct (IH (pos + 32) (acc ++ [take (Z.to_nat 32) (drop (Z.to_nat pos) proof)]))
        as (chunks & Heq & Hcat & Hall).
      * lia.
      * replace (size proof - (pos + 32)) with (size proof - pos - 32) by lia. exact Hmod'.
      * lia.
      * exists (take (Z.to_nat 32) (drop (Z.to_nat pos) proof) :: chunks).
        rewrite Heq, <- app_assoc. repeat split.
        -- cbn [concat]. rewrite Hcat.
           replace (Z.to_nat (pos + 32)) with (Z.to_nat pos + Z.to_nat 32)%nat by lia.
           rewrite <- drop_drop. apply take_drop.
        -- constructor; [| exact Hall]. unfold hash32, size.
           rewrite length_take, length_drop. unfold size in *. lia.
Qed.

Lemma AuditProof_Deserialize_eq (self : AuditProof.t) (type : SegmentData.TreeType)
    (proof : std_string) :
  signature_offset type <= size proof ->
  let pos0 := signature_offset type in
  let seq := uint_at proof 0 4 in
  let ts := if AuditProof.is_log_segment_tree type
            then uint_at proof 4 4 else size_add seq 1 in
  let li := uint_at proof (pos0 - 4) 4 in
  let n := signature_consumed (AuditProof.signature self) proof pos0 in
  let sig := signature_parsed (AuditProof.signature self) proof pos0 in
  AuditProof.Deserialize self type proof
  = if n =? 0
    then Some (false, AuditProof.mk type seq ts li sig (AuditProof.audit_path self))
    else if negb (size (drop (Z.to_nat (pos0 + n)) proof) mod 32 =? 0)
    then Some (false, AuditProof.mk type seq ts li sig (AuditProof.audit_path self))
    else path ← AuditProof.Deserialize_path (S (length proof)) proof (pos0 + n) [];
         Some (true, AuditProof.mk type seq ts li sig path).
Proof.
  intros Hsz pos0 seq ts li n sig. unfold AuditProof.Deserialize.
  assert (Hoff : pos0 = 12 /\ type = SegmentData.LOG_SEGMENT_TREE
                 \/ pos0 = 8 /\ type = SegmentData.SEGMENT_INFO_TREE).
  { unfold pos0, signature_offset. destruct type; cbn; auto. }
  fold pos0 in Hsz.
  pose proof (signature_consumed_range (AuditProof.signature self) proof pos0
                ltac:(lia)) as Hn. fold n in Hn.
  cbn [AuditProof.tree_type AuditProof.sequence_number AuditProof.tree_size
       AuditProof.leaf_index AuditProof.signature AuditProof.audit_path].
  destruct (Z.ltb_spec (size proof) (0 + 4)); [lia |].
  rewrite read_uint by lia. fold seq.
  destruct Hoff as [[Hp ->] | [Hp ->]]; cbn [AuditProof.is_log_segment_tree].
  - destruct (Z.ltb_spec (size proof) (0 + 4 + 4)); [lia |].
    rewrite read_uint by lia.
    destruct (Z.ltb_spec (size proof) (0 + 4 + 4 + 4)); [lia |].
    rewrite read_uint by lia.
    rewrite substr_from_Some by lia. cbn [mbind option_bind].
    change (0 + 4 + 4 + 4) with 12. change (0 + 4 + 4) with 8.
    unfold li, n, sig, ts. rewrite Hp.
    rewrite read_signature. cbn [mbind option_bind AuditProof.is_log_segment_tree].
    change (12 - 4) with 8.
    destruct (signature_consumed (AuditProof.signature self) proof 12 =? 0);
      [reflexivity |].
    rewrite substr_from_Some by (unfold n in Hn; rewrite Hp in Hn; lia).
    cbn [mbind option_bind]. reflexivity.
  - destruct (Z.ltb_spec (size proof) (0 + 4 + 4)); [lia |].
    rewrite read_uint by lia.
    rewrite substr_from_Some by lia. cbn [mbind option_bind].
    change (0 + 4 + 4) with 8. change (0 + 4) with 4.
    unfold li, n, sig, ts. rewrite Hp.
    rewrite read_signature. cbn [mbind option_bind AuditProof.is_log_segment_tree].
    change (8 - 4) with 4.
    destruct (signature_consumed (AuditProof.signature self) proof 8 =? 0);
      [reflexivity |].
    rewrite substr_from_Some by (unfold n in Hn; rewrite Hp in Hn; lia).
    cbn [mbind option_bind]. reflexivity.
Qed.

(** A buffer that ends before the embedded signature is rejected. *)
Lemma AuditProof_Deserialize_short (self : AuditProof.t)
    (type : SegmentData.TreeType) (proof : std_string) :
  size proof < signature_offset type ->
  exists r,
    AuditProof.Deserialize self type proof = Some (false, r)
    /\ AuditProof.tree_type r = type
    /\ AuditProof.signature r = AuditProof.signature self
    /\ AuditProof.audit_path r = AuditProof.audit_path self
    /\ (size proof < 4 ->
        r = AuditProof.mk type (AuditProof.sequence_number self)
              (AuditProof.tree_size self) (AuditProof.leaf_index self)
              (AuditProof.signature self) (AuditProof.audit_path self)).
Proof.
  intros Hshort. pose proof (size_nonneg proof) as Hsz.
  unfold AuditProof.Deserialize.
  cbn [AuditProof.tree_type AuditProof.sequence_number AuditProof.tree_size
       AuditProof.leaf_index AuditProof.signature AuditProof.audit_path].
  destruct (Z.ltb_spec (size proof) (0 + 4)) as [H4 | H4].
  { eexists. split; [reflexivity |]. repeat split; reflexivity. }
  rewrite read_uint by lia.
  destruct type; cbn [AuditProof.is_log_segment_tree signature_offset] in *.
  - destruct (Z.ltb_spec (size proof) (0 + 4 + 4)) as [H8 | H8].
    { eexists. split; [reflexivity |]. repeat split; try reflexivity. lia. }
    rewrite read_uint by lia.
    destruct (Z.ltb_spec (size proof) (0 + 4 + 4 + 4)) as [H12 | H12]; [| lia].
    eexists. split; [reflexivity |]. repeat split; try reflexivity. lia.
  - destruct (Z.ltb_spec (size proof) (0 + 4 + 4)) as [H8 | H8]; [| lia].
    eexists. split; [reflexivity |]. repeat split; try reflexivity. lia.
Qed.

(** ** The integer codec: what holds and what does not *)

(** [SerializeUint] writes exactly [n] bytes, most significant first. *)
Lemma SerializeUint_msb_first (v : Z) (n : nat) :
  (n = 1 \/ n = 2 \/ n = 4)%nat -> fits n v ->
  exists bs, SerializeUint v n = Some bs /\ length bs = n /\ be_value bs = v.
Proof.
  intros Hn Hfit. exists (be_bytes v n).
  split; [apply SerializeUint_eq; [lia | exact Hfit] |].
  split; [apply length_be_bytes |].
  unfold be_value. rewrite be_value_be_bytes. destruct Hfit. rewrite Z.mod_small; lia.
Qed.

(** [DeserializeUint] returns on every input no longer than a [size_t]. *)
Lemma DeserializeUint_never_fails (s : std_string) :
  size s <= sizeof_size_t -> exists v, DeserializeUint s = Some v /\ 0 <= v < 2 ^ 64.
Proof.
  intros H. exists (fold_left uint_step s 0).
  split; [apply DeserializeUint_Some, H | apply uint_fold_range].
Qed.

(** The round trip on the integers whose bytes are all below 0x80. *)
Lemma uint_codec_roundtrip_plain (v : Z) (n : nat) :
  (n = 1 \/ n = 2 \/ n = 4)%nat -> fits n v -> high_bits_clear n v ->
  (SerializeUint v n ≫= DeserializeUint) = Some v.
Proof.
  intros Hn Hfit Hplain. rewrite SerializeUint_eq by (lia || exact Hfit).
  cbn [mbind option_bind].
  rewrite DeserializeUint_Some by (rewrite size_be_bytes; lia).
  f_equal. apply uint_roundtrip_plain; [lia | exact Hfit | exact Hplain].
Qed.

(** A single byte at or above 0x80 comes back sign-extended. *)
Lemma uint_codec_one_byte_high (v : Z) :
  128 <= v < 256 ->
  (SerializeUint v 1 ≫= DeserializeUint) = Some (2 ^ 64 - 256 + v).
Proof.
  intros Hv. rewrite SerializeUint_eq by (try lia; unfold fits; simpl; lia).
  rewrite be_bytes_1. cbn [mbind option_bind].
  rewrite DeserializeUint_Some by (rewrite size_cons, size_nil; lia).
  f_equal. cbn [fold_left]. change 0 with (to_size_t 0) at 1.
  rewrite uint_step_signed. unfold char_value.
  rewrite byte.unsigned_of_Z. unfold byte.wrap. rewrite (Z.mod_small v) by lia.
  destruct (Z.ltb_spec v 128); [lia |].
  unfold to_size_t, size_t_bits.
  replace (0 * 256 + (v - 256)) with (2 ^ 64 - 256 + v + (-1) * 2 ^ 64) by lia.
  rewrite Z.mod_add by lia. apply Z.mod_small. lia.
Qed.

(** C3: [SerializeUint(v, n)] writes [v] in [n] bytes, most significant
    first, and [DeserializeUint] gives [v] back, also when a byte of the
    encoding is 0x80 or above.  The code does not: the byte 0x80 that
    encodes 128 is read as the [char] -128, and [DeserializeUint] returns
    2^64 - 128. *)
Theorem DeserializeUint_sign_extends :
  fits 1 128
  /\ SerializeUint 128 1 = Some [Byte.x80]
  /\ DeserializeUint [Byte.x80] = Some (2 ^ 64 - 128)
  /\ (SerializeUint 128 1 ≫= DeserializeUint) <> Some 128.
Proof.
  split; [unfold fits; simpl; lia |].
  split; [vm_compute; reflexivity |].
  split; [vm_compute; reflexivity |].
  vm_compute. discriminate.
Qed.

(** ** [DigitallySigned]: what holds and what does not *)

Lemma plain_pair_value (b2 b3 : byte) :
  plain_bytes [b2; b3] -> fold_left uint_step [b2; b3] 0 = be_value [b2; b3].
Proof.
  intros Hp. pose proof (uint_fold_signed [b2; b3] 0) as H.
  change (to_size_t 0) with 0 in H. rewrite H, signed_value_plain by exact Hp.
  fold (be_value [b2; b3]). apply to_size_t_small.
  inversion Hp as [| ? ? H2 Hp']; subst. inversion Hp' as [| ? ? H3 _]; subst.
  pose proof (byte.unsigned_range b2). pose proof (byte.unsigned_range b3).
  unfold be_value, be_value_from. cbn [fold_left]. lia.
Qed.

(** On a buffer whose two length bytes are below 0x80, [ReadFromString]
    rejects exactly the short buffers, the out-of-range algorithm bytes
    and the declared lengths that exceed the buffer. *)
Lemma ReadFromString_rejects_iff_plain (self : DigitallySigned.t)
    (data : std_string) :
  plain_bytes (take 2 (drop 2 data)) ->
  exists n d,
    DigitallySigned.ReadFromString self data = Some (n, d)
    /\ (n = 0 <->
        size data < 4
        \/ (exists c, data !! 0%nat = Some c /\ 6 < byte.unsigned c)
        \/ (exists c, data !! 1%nat = Some c /\ 3 < byte.unsigned c)
        \/ size data < 4 + be_value (take 2 (drop 2 data))).
Proof.
  intros Hp. pose proof (size_nonneg data) as Hsz.
  destruct (string_cases4 data) as [Hshort | (b0 & b1 & b2 & b3 & rest & ->)].
  - exists 0, self. split; [apply ReadFromString_short, Hshort |]. tauto.
  - change (take 2 (drop 2 (b0 :: b1 :: b2 :: b3 :: rest))) with [b2; b3] in *.
    rewrite ReadFromString_cons4, plain_pair_value by exact Hp.
    rewrite IsValidHashAlgorithmEnum_byte, IsValidSignatureAlgorithmEnum_byte.
    rewrite size_cons4 in *. pose proof (size_nonneg rest) as Hrest.
    assert (Hlen : 0 <= be_value [b2; b3] < 2 ^ 16).
    { pose proof (byte.unsigned_range b2). pose proof (byte.unsigned_range b3).
      unfold be_value, be_value_from. cbn [fold_left]. lia. }
    unfold size_add. rewrite to_size_t_small by lia.
    destruct (Z.leb_spec (byte.unsigned b0) 6) as [H0 | H0]; cbn [negb orb].
    2:{ eexists _, _. split; [reflexivity |]. split; [| reflexivity].
        intros _. right. left. exists b0. split; [reflexivity | lia]. }
    destruct (Z.leb_spec (byte.unsigned b1) 3) as [H1 | H1]; cbn [negb orb].
    2:{ eexists _, _. split; [reflexivity |]. split; [| reflexivity].
        intros _. right. right. left. exists b1. split; [reflexivity | lia]. }
    destruct (Z.ltb_spec (4 + size rest) (4 + be_value [b2; b3])) as [Hl | Hl].
    + eexists _, _. split; [reflexivity |]. split; [| reflexivity].
      intros _. do 3 right. lia.
    + eexists _, _. split; [reflexivity |]. split; [lia |].
      intros [Hc | [(c & [= <-] & Hc) | [(c & [= <-] & Hc) | Hc]]]; lia.
Qed.

(** Every in-range pair of algorithms with an empty signature decodes,
    and encodes to the four bytes that decode to it. *)
Lemma ReadFromString_enum_boundaries (self : DigitallySigned.t) (h s : Z) :
  0 <= h <= 6 -> 0 <= s <= 3 ->
  DigitallySigned.Serialize (DigitallySigned.mk h s [])
  = Some [byte.of_Z h; byte.of_Z s; Byte.x00; Byte.x00]
  /\ DigitallySigned.ReadFromString self [byte.of_Z h; byte.of_Z s; Byte.x00; Byte.x00]
     = Some (4, DigitallySigned.mk h s []).
Proof.
  intros Hh Hs.
  assert (Hv : valid_DigitallySigned (DigitallySigned.mk h s [])).
  { unfold valid_DigitallySigned, size. simpl. lia. }
  assert (Hp : plain_DigitallySigned (DigitallySigned.mk h s [])).
  { vm_compute. repeat split. }
  pose proof (DigitallySigned_Serialize_eq _ Hv) as Henc.
  split; [exact Henc |].
  pose proof (ReadFromString_encoded self _ _ [] Hv Hp Henc) as H.
  exact H.
Qed.

(** An algorithm byte above its bound is rejected whatever follows. *)
Lemma ReadFromString_rejects_bad_enum (self : DigitallySigned.t) (b0 b1 : byte)
    (rest : std_string) :
  6 < byte.unsigned b0 \/ 3 < byte.unsigned b1 ->
  DigitallySigned.ReadFromString self (b0 :: b1 :: rest) = Some (0, self).
Proof.
  intros Hbad. destruct rest as [| b2 [| b3 rest]];
    try (apply ReadFromString_short; unfold size; simpl; lia).
  rewrite ReadFromString_cons4.
  rewrite IsValidHashAlgorithmEnum_byte, IsValidSignatureAlgorithmEnum_byte.
  destruct (Z.leb_spec (byte.unsigned b0) 6), (Z.leb_spec (byte.unsigned b1) 3);
    cbn [negb orb]; (reflexivity || lia).
Qed.

(** C2: for every valid [DigitallySigned] [D] and every suffix [S],
    [ReadFromString] on [D]'s encoding followed by [S] returns the length
    of the encoding and stores [D]'s fields, and [Deserialize] accepts it
    exactly when [S] is empty.  The code does not on a valid signature of
    128 bytes: the length field [00 80] is read as 2^64 - 128, so
    [ReadFromString] returns 0 and [Deserialize] rejects the unextended
    encoding. *)
Theorem ReadFromString_rejects_signature_128 :
  valid_DigitallySigned signature_128
  /\ DigitallySigned.Serialize signature_128 = Some signature_128_encoding
  /\ size signature_128_encoding = 132
  /\ forall self,
       DigitallySigned.ReadFromString self (signature_128_encoding ++ [])
       = Some (0, self)
       /\ DigitallySigned.Deserialize self signature_128_encoding
          = Some (false, self).
Proof.
  split.
  { unfold valid_DigitallySigned, signature_128. cbn -[zeros].
    change (size (zeros 128)) with 128. lia. }
  split; [vm_compute; reflexivity |].
  split; [vm_compute; reflexivity |].
  intros self. split; vm_compute; reflexivity.
Qed.

(** C4: [ReadFromString] returns 0 exactly when the buffer has fewer than
    4 bytes, or its first byte is above 6, or its second byte is above 3,
    or it is shorter than 4 plus the declared 2-byte signature length.
    The code does not, in either direction.  The 132-byte buffer
    [00 00 00 80] followed by 128 bytes meets none of the four conditions
    and is rejected; the 4-byte buffer [00 00 00 ff] declares 255
    signature bytes it does not have and is accepted with a count of 3.
    Both come from reading the length bytes as signed [char]s. *)
Theorem ReadFromString_misjudges_high_length_bytes :
  (4 <= size signature_128_encoding
   /\ be_value (take 1 signature_128_encoding) <= 6
   /\ be_value (take 1 (drop 1 signature_128_encoding)) <= 3
   /\ 4 + be_value (take 2 (drop 2 signature_128_encoding))
      <= size signature_128_encoding
   /\ forall self,
        DigitallySigned.ReadFromString self signature_128_encoding = Some (0, self))
  /\ (size [Byte.x00; Byte.x00; Byte.x00; Byte.xff]
      < 4 + be_value (take 2 (drop 2 [Byte.x00; Byte.x00; Byte.x00; Byte.xff]))
      /\ forall self,
           DigitallySigned.ReadFromString self [Byte.x00; Byte.x00; Byte.x00; Byte.xff]
           = Some (3, empty_signature)).
Proof.
  split.
  - repeat split; try (vm_compute; congruence).
  - split; [vm_compute; reflexivity |]. intros self. vm_compute. reflexivity.
Qed.

(** ** Fields of an encoded record *)

Lemma drop_past_prefix (pre rest : std_string) (q : Z) :
  q = size pre -> drop (Z.to_nat q) (pre ++ rest) = rest.
Proof.
  intros ->. unfold size. rewrite Nat2Z.id. apply drop_app_length.
Qed.

(** A 4-byte counter written after [pre] is read back at offset
    [size pre], provided none of its bytes is 0x80 or above. *)
Lemma uint_at_field (data pre : std_string) (v : Z) (rest : std_string) (q : Z) :
  data = pre ++ be_bytes v 4 ++ rest -> q = size pre ->
  fits 4 v -> high_bits_clear 4 v ->
  uint_at data q 4 = v.
Proof.
  intros -> Hq Hfit Hplain. unfold uint_at.
  rewrite drop_past_prefix by exact Hq.
  change (Z.to_nat 4) with (length (be_bytes v 4)).
  rewrite take_app_length. apply uint_roundtrip_plain; [lia | exact Hfit | exact Hplain].
Qed.

Lemma signature_at_field (self d : DigitallySigned.t)
    (data pre enc S : std_string) (q : Z) :
  data = pre ++ enc ++ S -> q = size pre ->
  valid_DigitallySigned d -> plain_DigitallySigned d ->
  DigitallySigned.Serialize d = Some enc ->
  signature_consumed self data q = size enc /\ signature_parsed self data q = d.
Proof.
  intros -> Hq Hv Hp Henc. unfold signature_consumed, signature_parsed.
  rewrite drop_past_prefix by exact Hq.
  rewrite (ReadFromString_encoded self d enc S Hv Hp Henc). split; reflexivity.
Qed.

Lemma strict_at_field (self d : DigitallySigned.t)
    (data pre enc S : std_string) (q : Z) :
  data = pre ++ enc ++ S -> q = size pre ->
  valid_DigitallySigned d -> plain_DigitallySigned d ->
  DigitallySigned.Serialize d = Some enc ->
  strict_parse self data q = (empty S, d).
Proof.
  intros -> Hq Hv Hp Henc. unfold strict_parse.
  rewrite drop_past_prefix by exact Hq.
  rewrite (DigitallySigned_Deserialize_encoded self d enc S Hv Hp Henc). reflexivity.
Qed.

Lemma DigitallySigned_Serialize_valid (d : DigitallySigned.t) :
  valid_DigitallySigned d ->
  exists enc, DigitallySigned.Serialize d = Some enc
              /\ size enc = 4 + size (DigitallySigned.sig_string d).
Proof.
  intros Hv. eexists. split; [apply DigitallySigned_Serialize_eq, Hv |].
  rewrite !size_cons, size_app, size_be_bytes. lia.
Qed.

(** ** Checkpoints: encoding and round trip *)

Lemma LogSegmentCheckpoint_Serialize_eq (c : LogSegmentCheckpoint.t) :
  valid_LogSegmentCheckpoint c ->
  exists enc,
    DigitallySigned.Serialize (LogSegmentCheckpoint.signature c) = Some enc
    /\ LogSegmentCheckpoint.Serialize c
       = Some (be_bytes (LogSegmentCheckpoint.sequence_number c) 4
               ++ be_bytes (LogSegmentCheckpoint.segment_size c) 4
               ++ enc ++ LogSegmentCheckpoint.root c).
Proof.
  intros (Hseq & Hsz & Hsig & Hroot).
  destruct (DigitallySigned_Serialize_valid _ Hsig) as (enc & Henc & _).
  exists enc. split; [exact Henc |]. unfold LogSegmentCheckpoint.Serialize.
  rewrite !SerializeUint_eq by (lia || assumption). cbn [mbind option_bind].
  rewrite Henc. cbn [mbind option_bind]. unfold hash32 in Hroot. rewrite Hroot.
  cbn [Z.eqb Pos.eqb negb]. rewrite <- !app_assoc. reflexivity.
Qed.

Lemma LogHeadCheckpoint_Serialize_eq (c : LogHeadCheckpoint.t) :
  valid_LogHeadCheckpoint c ->
  exists enc,
    DigitallySigned.Serialize (LogHeadCheckpoint.signature c) = Some enc
    /\ LogHeadCheckpoint.Serialize c
       = Some (be_bytes (LogHeadCheckpoint.sequence_number c) 4
               ++ enc ++ LogHeadCheckpoint.root c).
Proof.
  intros (Hseq & Hsig & Hroot).
  destruct (DigitallySigned_Serialize_valid _ Hsig) as (enc & Henc & _).
  exists enc. split; [exact Henc |]. unfold LogHeadCheckpoint.Serialize.
  rewrite !SerializeUint_eq by (lia || assumption). cbn [mbind option_bind].
  rewrite Henc. cbn [mbind option_bind]. unfold hash32 in Hroot. rewrite Hroot.
  cbn [Z.eqb Pos.eqb negb]. rewrite <- !app_assoc. reflexivity.
Qed.

Lemma LogSegmentCheckpoint_roundtrip_plain (self c : LogSegmentCheckpoint.t) :
  valid_LogSegmentCheckpoint c -> plain_LogSegmentCheckpoint c ->
  exists bs, LogSegmentCheckpoint.Serialize c = Some bs
             /\ LogSegmentCheckpoint.Deserialize self bs = Some (true, c).
Proof.
  intros Hv (Pseq & Psz & Psig).
  destruct (LogSegmentCheckpoint_Serialize_eq c Hv) as (enc & Henc & Hser).
  destruct Hv as (Hseq & Hsz & Hsig & Hroot). unfold hash32 in Hroot.
  destruct c as [seq sz sig root]. cbn [LogSegmentCheckpoint.sequence_number
    LogSegmentCheckpoint.segment_size LogSegmentCheckpoint.signature
    LogSegmentCheckpoint.root] in *.
  eexists. split; [exact Hser |].
  set (data := be_bytes seq 4 ++ be_bytes sz 4 ++ enc ++ root).
  pose proof (size_nonneg enc) as Henc0.
  assert (Hsize : size data = 8 + size enc + 32).
  { unfold data. rewrite !size_app, !size_be_bytes, Hroot. lia. }
  rewrite LogSegmentCheckpoint_Deserialize_eq by lia.
  rewrite (uint_at_field data [] seq (be_bytes sz 4 ++ enc ++ root) 0)
    by (reflexivity || assumption).
  rewrite (uint_at_field data (be_bytes seq 4) sz (enc ++ root) 4)
    by (reflexivity || assumption).
  destruct (signature_at_field (LogSegmentCheckpoint.signature self) sig data
              (be_bytes seq 4 ++ be_bytes sz 4) enc root 8) as [Hn Hparsed];
    try assumption.
  { unfold data. rewrite <- !app_assoc. reflexivity. }
  { rewrite size_app, !size_be_bytes. reflexivity. }
  rewrite Hn, Hparsed.
  pose proof (size_DigitallySigned_encoding sig enc Hsig Henc) as Hlen.
  pose proof (size_nonneg (DigitallySigned.sig_string sig)).
  destruct (Z.eqb_spec (size enc) 0); [lia |].
  destruct (Z.eqb_spec (size data) (8 + size enc + 32)); [| lia].
  cbn [negb]. do 3 f_equal.
  apply (drop_past_prefix (be_bytes seq 4 ++ be_bytes sz 4 ++ enc) root).
  - rewrite !size_app, !size_be_bytes. lia.
Qed.

Lemma LogHeadCheckpoint_roundtrip_plain (self c : LogHeadCheckpoint.t) :
  valid_LogHeadCheckpoint c -> plain_LogHeadCheckpoint c ->
  exists bs, LogHeadCheckpoint.Serialize c = Some bs
             /\ LogHeadCheckpoint.Deserialize self bs = Some (true, c).
Proof.
  intros Hv (Pseq & Psig).
  destruct (LogHeadCheckpoint_Serialize_eq c Hv) as (enc & Henc & Hser).
  destruct Hv as (Hseq & Hsig & Hroot). unfold hash32 in Hroot.
  destruct c as [seq sig root]. cbn [LogHeadCheckpoint.sequence_number
    LogHeadCheckpoint.signature LogHeadCheckpoint.root] in *.
  eexists. split; [exact Hser |].
  set (data := be_bytes seq 4 ++ enc ++ root).
  pose proof (size_nonneg enc) as Henc0.
  assert (Hsize : size data = 4 + size enc + 32).
  { unfold data. rewrite !size_app, !size_be_bytes, Hroot. lia. }
  rewrite LogHeadCheckpoint_Deserialize_eq by lia.
  rewrite (uint_at_field data [] seq (enc ++ root) 0) by (reflexivity || assumption).
  destruct (signature_at_field (LogHeadCheckpoint.signature self) sig data
              (be_bytes seq 4) enc root 4) as [Hn Hparsed];
    try assumption; try reflexivity.
  rewrite Hn, Hparsed.
  pose proof (size_DigitallySigned_encoding sig enc Hsig Henc) as Hlen.
  pose proof (size_nonneg (DigitallySigned.sig_string sig)).
  destruct (Z.eqb_spec (size enc) 0); [lia |].
  destruct (Z.eqb_spec (size data) (4 + size enc + 32)); [| lia].
  cbn [negb]. do 3 f_equal.
  apply (drop_past_prefix (be_bytes seq 4 ++ enc) root).
  rewrite !size_app, !size_be_bytes. lia.
Qed.

(** The failure conditions of [LogSegmentCheckpoint::Deserialize]: it
    fails exactly when the buffer has fewer than 8 bytes, or the prefix
    parse of the signature at offset 8 consumes 0 bytes, or the bytes left
    after the consumed signature are not exactly 32.  On success the two
    counters are what [DeserializeUint] returns on bytes 0..3 and 4..7
    (which is their value only when none of them is 0x80 or above), the
    signature is the parsed one, and the root is the 32 bytes that end the
    buffer. *)
Theorem LogSegmentCheckpoint_Deserialize_fails_iff
    (self : LogSegmentCheckpoint.t) (data : std_string) :
  let n := signature_consumed (LogSegmentCheckpoint.signature self) data 8 in
  exists ok r,
    LogSegmentCheckpoint.Deserialize self data = Some (ok, r)
    /\ (ok = false <->
        size data < 8 \/ n = 0 \/ size data - (8 + n) <> 32)
    /\ (ok = true ->
        LogSegmentCheckpoint.sequence_number r = uint_at data 0 4
        /\ LogSegmentCheckpoint.segment_size r = uint_at data 4 4
        /\ LogSegmentCheckpoint.signature r
           = signature_parsed (LogSegmentCheckpoint.signature self) data 8
        /\ LogSegmentCheckpoint.root r = drop (Z.to_nat (size data - 32)) data
        /\ size (LogSegmentCheckpoint.root r) = 32).
Proof.
  intros n. destruct (Z.lt_ge_cases (size data) 8) as [Hshort | Hlong].
  - exists false, self. unfold LogSegmentCheckpoint.Deserialize.
    destruct (Z.ltb_spec (size data) 8); [| lia].
    split; [reflexivity |]. split; [tauto | discriminate].
  - rewrite LogSegmentCheckpoint_Deserialize_eq by exact Hlong. fold n.
    destruct (Z.eqb_spec n 0) as [Hz | Hnz].
    { eexists _, _. split; [reflexivity |]. split; [tauto | discriminate]. }
    destruct (Z.eqb_spec (size data) (8 + n + 32)) as [Heq | Hne]; cbn [negb].
    + eexists _, _. split; [reflexivity |]. split.
      * split; [discriminate | lia].
      * intros _. cbn [LogSegmentCheckpoint.sequence_number
          LogSegmentCheckpoint.segment_size LogSegmentCheckpoint.signature
          LogSegmentCheckpoint.root].
        replace (size data - 32) with (8 + n) by lia.
        repeat split; try reflexivity.
        pose proof (signature_consumed_range (LogSegmentCheckpoint.signature self)
                      data 8 ltac:(lia)) as Hn. fold n in Hn.
        rewrite size_drop by lia. lia.
    + eexists _, _. split; [reflexivity |]. split; [| discriminate].
      split; [intros _; right; right; lia | reflexivity].
Qed.

(** The statement above at the encoding of [segment_checkpoint_7]. *)
Lemma LogSegmentCheckpoint_Deserialize_fails_iff_witness :
  exists ok r,
    LogSegmentCheckpoint.Deserialize fresh_LogSegmentCheckpoint
      (be_bytes 7 4 ++ be_bytes 9 4
       ++ [Byte.x04; Byte.x03; Byte.x00; Byte.x03; Byte.x41; Byte.x42; Byte.x43]
       ++ zeros 32)
    = Some (ok, r)
    /\ ok = true
    /\ LogSegmentCheckpoint.sequence_number r = 7
    /\ LogSegmentCheckpoint.segment_size r = 9
    /\ size (LogSegmentCheckpoint.root r) = 32.
Proof.
  destruct (LogSegmentCheckpoint_Deserialize_fails_iff fresh_LogSegmentCheckpoint
              (be_bytes 7 4 ++ be_bytes 9 4
               ++ [Byte.x04; Byte.x03; Byte.x00; Byte.x03; Byte.x41; Byte.x42; Byte.x43]
               ++ zeros 32))
    as (ok & r & Hrun & Hfail & Hok).
  exists ok, r. split; [exact Hrun |].
  assert (Htrue : ok = true).
  { destruct ok; [reflexivity |]. exfalso.
    destruct (proj1 Hfail eq_refl) as [H | [H | H]]; vm_compute in H; congruence. }
  split; [exact Htrue |].
  destruct (Hok Htrue) as (Hseq & Hsz & _ & _ & Hroot).
  rewrite Hseq, Hsz. repeat split; (reflexivity || exact Hroot).
Defined.

(** C7: [LogSegmentCheckpoint::Deserialize] fails exactly when the buffer
    has fewer than 8 bytes, or the prefix parse of the signature at offset
    8 fails, or the bytes left after the consumed signature are not
    exactly 32; on success the trailing 32 bytes become the root and the
    first two 4-byte fields become [sequence_number] and [segment_size].
    The code does not on the encoding of the valid checkpoint with
    sequence number 128 and segment size 200: the two fields on the wire
    are [00 00 00 80] and [00 00 00 c8], the decode succeeds, and it
    stores 2^64 - 128 and 2^64 - 56, the last byte of each field having
    been added as a signed [char]. *)
Theorem LogSegmentCheckpoint_Deserialize_misreads_counters :
  valid_LogSegmentCheckpoint segment_checkpoint_128
  /\ exists bs,
       LogSegmentCheckpoint.Serialize segment_checkpoint_128 = Some bs
       /\ take 8 bs = [Byte.x00; Byte.x00; Byte.x00; Byte.x80;
                       Byte.x00; Byte.x00; Byte.x00; Byte.xc8]
       /\ be_value (take 4 bs) = 128
       /\ be_value (take 4 (drop 4 bs)) = 200
       /\ forall self, exists r,
            LogSegmentCheckpoint.Deserialize self bs = Some (true, r)
            /\ LogSegmentCheckpoint.sequence_number r = 2 ^ 64 - 128
            /\ LogSegmentCheckpoint.segment_size r = 2 ^ 64 - 56
            /\ LogSegmentCheckpoint.root r = zeros 32
            /\ r <> segment_checkpoint_128.
Proof.
  split.
  { unfold valid_LogSegmentCheckpoint, valid_DigitallySigned, fits, hash32.
    vm_compute. repeat split; congruence. }
  eexists. split; [vm_compute; reflexivity |].
  split; [vm_compute; reflexivity |]. split; [vm_compute; reflexivity |].
  split; [vm_compute; reflexivity |].
  intros self. eexists. split; [vm_compute; reflexivity |].
  split; [vm_compute; reflexivity |]. split; [vm_compute; reflexivity |].
  split; [vm_compute; reflexivity |]. vm_compute. discriminate.
Qed.

(** ** [SegmentData]: encoding, round trip, sequence numbers *)

Lemma SerializeSegmentInfo_eq (d : SegmentData.t) :
  valid_SegmentData d ->
  exists enc1 enc2,
    DigitallySigned.Serialize
      (LogSegmentCheckpoint.signature (SegmentData.log_segment d)) = Some enc1
    /\ DigitallySigned.Serialize
         (LogHeadCheckpoint.signature (SegmentData.log_head d)) = Some enc2
    /\ SegmentData.SerializeSegmentInfo d
       = Some (be_bytes (LogSegmentCheckpoint.sequence_number (SegmentData.log_segment d)) 4
               ++ be_bytes (SegmentData.timestamp d) 4
               ++ be_bytes (LogSegmentCheckpoint.segment_size (SegmentData.log_segment d)) 4
               ++ enc1 ++ enc2).
Proof.
  intros ((Hseq & Hsz & Hsig1 & _) & (_ & Hsig2 & _) & Hts & Heq).
  destruct (DigitallySigned_Serialize_valid _ Hsig1) as (enc1 & Henc1 & _).
  destruct (DigitallySigned_Serialize_valid _ Hsig2) as (enc2 & Henc2 & _).
  exists enc1, enc2. split; [exact Henc1 |]. split; [exact Henc2 |].
  unfold SegmentData.SerializeSegmentInfo. rewrite <- Heq, Z.eqb_refl. cbn [negb].
  rewrite !SerializeUint_eq by (lia || assumption). cbn [mbind option_bind].
  rewrite Henc1. cbn [mbind option_bind]. rewrite Henc2. cbn [mbind option_bind].
  rewrite <- !app_assoc. reflexivity.
Qed.

(** Decoding the segment-info form of a record without high bytes,
    followed by any suffix [S]: accepted exactly when [S] is empty; the
    roots are those of the receiver. *)
Lemma DeserializeSegmentInfo_encoded (self d : SegmentData.t) (S : std_string) :
  valid_SegmentData d -> plain_SegmentData d ->
  exists bs, SegmentData.SerializeSegmentInfo d = Some bs
             /\ SegmentData.DeserializeSegmentInfo self (bs ++ S)
                = Some (empty S, with_roots_of self d).
Proof.
  intros Hv ((Pseq & Psz & Psig1) & (_ & Psig2) & Pts).
  destruct (SerializeSegmentInfo_eq d Hv) as (enc1 & enc2 & Henc1 & Henc2 & Hser).
  destruct Hv as ((Hseq & Hsz & Hsig1 & _) & (_ & Hsig2 & _) & Hts & Heq).
  unfold with_roots_of. rewrite <- Heq.
  destruct d as [[seq sz sig1 root1] [seq' sig2 root2] ts].
  cbn [SegmentData.log_segment SegmentData.log_head SegmentData.timestamp
       LogSegmentCheckpoint.sequence_number LogSegmentCheckpoint.segment_size
       LogSegmentCheckpoint.signature LogSegmentCheckpoint.root
       LogHeadCheckpoint.sequence_number LogHeadCheckpoint.signature
       LogHeadCheckpoint.root] in *.
  eexists. split; [exact Hser |]. rewrite <- !app_assoc.
  set (data := be_bytes seq 4 ++ be_bytes ts 4 ++ be_bytes sz 4 ++ enc1 ++ enc2 ++ S).
  pose proof (size_nonneg enc1). pose proof (size_nonneg enc2). pose proof (size_nonneg S).
  assert (Hsize : size data = 12 + size enc1 + size enc2 + size S).
  { unfold data. rewrite !size_app, !size_be_bytes. lia. }
  rewrite DeserializeSegmentInfo_eq by lia.
  rewrite (uint_at_field data [] seq (be_bytes ts 4 ++ be_bytes sz 4 ++ enc1 ++ enc2 ++ S) 0)
    by (reflexivity || assumption).
  rewrite (uint_at_field data (be_bytes seq 4) ts (be_bytes sz 4 ++ enc1 ++ enc2 ++ S) 4)
    by (reflexivity || assumption).
  rewrite (uint_at_field data (be_bytes seq 4 ++ be_bytes ts 4) sz (enc1 ++ enc2 ++ S) 8)
    by (reflexivity || assumption).
  destruct (signature_at_field
              (LogSegmentCheckpoint.signature (SegmentData.log_segment self)) sig1 data
              (be_bytes seq 4 ++ be_bytes ts 4 ++ be_bytes sz 4) enc1 (enc2 ++ S) 12)
    as [Hn Hparsed]; try assumption; try reflexivity.
  rewrite Hn, Hparsed.
  pose proof (size_DigitallySigned_encoding sig1 enc1 Hsig1 Henc1) as Hlen.
  pose proof (size_nonneg (DigitallySigned.sig_string sig1)).
  destruct (Z.eqb_spec (size enc1) 0); [lia |].
  rewrite (strict_at_field (LogHeadCheckpoint.signature (SegmentData.log_head self))
             sig2 data (be_bytes seq 4 ++ be_bytes ts 4 ++ be_bytes sz 4 ++ enc1)
             enc2 S (12 + size enc1)); try assumption.
  - reflexivity.
  - unfold data. rewrite <- !app_assoc. reflexivity.
  - rewrite !size_app, !size_be_bytes. lia.
Qed.

(** Whenever [DeserializeSegmentInfo] returns true, the two sequence
    numbers of the decoded record are equal. *)
Lemma DeserializeSegmentInfo_sequence_numbers (self r : SegmentData.t)
    (data : std_string) :
  SegmentData.DeserializeSegmentInfo self data = Some (true, r) ->
  LogSegmentCheckpoint.sequence_number (SegmentData.log_segment r)
  = LogHeadCheckpoint.sequence_number (SegmentData.log_head r).
Proof.
  destruct (Z.lt_ge_cases (size data) 12) as [Hshort | Hlong].
  - unfold SegmentData.DeserializeSegmentInfo.
    destruct (Z.ltb_spec (size data) 12); [discriminate | lia].
  - rewrite DeserializeSegmentInfo_eq by exact Hlong.
    destruct (_ =? 0); intros [= _ <-]; reflexivity.
Qed.

(** C8: whenever [DeserializeSegmentInfo] returns true the decoded record
    has [log_segment.sequence_number == log_head.sequence_number], and a
    valid segment-info encoding followed by a non-empty byte string is
    rejected.  The equality holds ([DeserializeSegmentInfo_sequence_numbers]);
    the rejection does not: the first signature of [crafted_segment_data]
    is 384 bytes long, its length field [01 80] is read as 128, so the
    prefix parse stops 256 bytes early and the strict parse that follows
    starts inside the first signature, where the bytes [00 00 01 01]
    announce a 257-byte signature that ends exactly with the stray byte. *)
Theorem DeserializeSegmentInfo_accepts_stray_byte :
  valid_SegmentData crafted_segment_data
  /\ exists bs,
       SegmentData.SerializeSegmentInfo crafted_segment_data = Some bs
       /\ size bs = 404
       /\ forall self, exists r,
            SegmentData.DeserializeSegmentInfo self (bs ++ [Byte.x00])
            = Some (true, r)
            /\ size (DigitallySigned.sig_string
                       (LogSegmentCheckpoint.signature (SegmentData.log_segment r)))
               = 128.
Proof.
  split.
  { unfold valid_SegmentData, valid_LogSegmentCheckpoint, valid_LogHeadCheckpoint,
      valid_DigitallySigned, fits, hash32. vm_compute. repeat split; congruence. }
  eexists. split; [vm_compute; reflexivity |].
  split; [vm_compute; reflexivity |].
  intros self. eexists. split; vm_compute; reflexivity.
Qed.

(** ** [AuditProof]: encoding and round trip *)

Lemma AuditProof_Serialize_eq (p : AuditProof.t) :
  valid_AuditProof p ->
  exists enc,
    DigitallySigned.Serialize (AuditProof.signature p) = Some enc
    /\ AuditProof.Serialize p
       = Some (be_bytes (AuditProof.sequence_number p) 4
               ++ (if AuditProof.is_log_segment_tree (AuditProof.tree_type p)
                   then be_bytes (AuditProof.tree_size p) 4 else [])
               ++ be_bytes (AuditProof.leaf_index p) 4
               ++ enc ++ concat (AuditProof.audit_path p)).
Proof.
  intros (Hseq & Hts & Hli & Hsig & Hpath).
  destruct (DigitallySigned_Serialize_valid _ Hsig) as (enc & Henc & _).
  exists enc. split; [exact Henc |]. unfold AuditProof.Serialize.
  rewrite !SerializeUint_eq by (lia || assumption). cbn [mbind option_bind].
  destruct (AuditProof.is_log_segment_tree (AuditProof.tree_type p));
    cbn [mbind option_bind]; rewrite Henc; cbn [mbind option_bind];
    rewrite Serialize_path_eq by exact Hpath; rewrite <- !app_assoc; reflexivity.
Qed.

(** Lists of 32-byte nodes with the same concatenation are equal. *)
Lemma concat_hash32_inj (l1 l2 : list std_string) :
  Forall hash32 l1 -> Forall hash32 l2 -> concat l1 = concat l2 -> l1 = l2.
Proof.
  intros H1. revert l2. induction H1 as [| x l1 Hx _ IH]; intros l2 H2 Hcat.
  - destruct H2 as [| y l2 Hy _]; [reflexivity |].
    cbn [concat] in Hcat. apply (f_equal (@length _)) in Hcat.
    rewrite length_app in Hcat. unfold hash32, size in Hy. simpl in Hcat. lia.
  - destruct H2 as [| y l2 Hy H2].
    + cbn [concat] in Hcat. apply (f_equal (@length _)) in Hcat.
      rewrite length_app in Hcat. unfold hash32, size in Hx. simpl in Hcat. lia.
    + cbn [concat] in Hcat. apply app_inj_1 in Hcat.
      * destruct Hcat as [-> Hrest]. f_equal. apply IH; assumption.
      * unfold hash32, size in Hx, Hy. lia.
Qed.

(** The path loop on a buffer that ends with the concatenation of
    32-byte nodes returns those nodes. *)
Lemma Deserialize_path_encoded (pre : std_string) (path : list std_string) (q : Z) :
  q = size pre -> Forall hash32 path ->
  AuditProof.Deserialize_path (S (length (pre ++ concat path)))
    (pre ++ concat path) q [] = Some path.
Proof.
  intros Hq Hpath. pose proof (size_nonneg pre). pose proof (size_nonneg (concat path)).
  assert (Hmod : size (concat path) mod 32 = 0).
  { clear -Hpath. induction Hpath as [| x l Hx _ IH]; [reflexivity |].
    cbn [concat]. rewrite size_app. unfold hash32 in Hx. rewrite Hx.
    Z.div_mod_to_equations. lia. }
  destruct (Deserialize_path_chunks (S (length (pre ++ concat path)))
              (pre ++ concat path) q []) as (chunks & Hrun & Hcat & Hall).
  - rewrite size_app. lia.
  - rewrite size_app. replace (size pre + size (concat path) - q)
      with (size (concat path)) by lia. exact Hmod.
  - unfold size in *. lia.
  - rewrite Hrun. cbn [app]. f_equal.
    rewrite drop_past_prefix in Hcat by exact Hq.
    apply concat_hash32_inj; assumption.
Qed.

(** Decoding the encoding of a proof without high bytes: everything is
    recovered except [tree_size] on the segment-info tree, which is
    recomputed from the sequence number. *)
Lemma AuditProof_decode_encoded (self p : AuditProof.t) :
  valid_AuditProof p -> plain_AuditProof p ->
  exists bs,
    AuditProof.Serialize p = Some bs
    /\ AuditProof.Deserialize self (AuditProof.tree_type p) bs
       = Some (true,
               AuditProof.mk (AuditProof.tree_type p) (AuditProof.sequence_number p)
                 (if AuditProof.is_log_segment_tree (AuditProof.tree_type p)
                  then AuditProof.tree_size p
                  else AuditProof.sequence_number p + 1)
                 (AuditProof.leaf_index p) (AuditProof.signature p)
                 (AuditProof.audit_path p)).
Proof.
  intros Hv (Pseq & Pts & Pli & Psig).
  destruct (AuditProof_Serialize_eq p Hv) as (enc & Henc & Hser).
  destruct Hv as (Hseq & Hts & Hli & Hsig & Hpath).
  destruct p as [ty seq ts li sig path].
  cbn [AuditProof.tree_type AuditProof.sequence_number AuditProof.tree_size
       AuditProof.leaf_index AuditProof.signature AuditProof.audit_path] in *.
  eexists. split; [exact Hser |].
  pose proof (size_nonneg enc) as Henc0.
  pose proof (size_nonneg (concat path)) as Hcat0.
  pose proof (size_DigitallySigned_encoding sig enc Hsig Henc) as Hlen.
  pose proof (size_nonneg (DigitallySigned.sig_string sig)).
  assert (Hmod : size (concat path) mod 32 = 0).
  { clear -Hpath. induction Hpath as [| x l Hx _ IH]; [reflexivity |].
    cbn [concat]. rewrite size_app. unfold hash32 in Hx. rewrite Hx.
    Z.div_mod_to_equations. lia. }
  destruct ty; cbn [AuditProof.is_log_segment_tree].
  - set (data := be_bytes seq 4 ++ be_bytes ts 4 ++ be_bytes li 4 ++ enc ++ concat path).
    assert (Hsize : size data = 12 + size enc + size (concat path)).
    { unfold data. rewrite !size_app, !size_be_bytes. lia. }
    rewrite AuditProof_Deserialize_eq
      by (unfold signature_offset; cbn [AuditProof.is_log_segment_tree]; lia).
    change (signature_offset SegmentData.LOG_SEGMENT_TREE) with 12.
    cbn [AuditProof.is_log_segment_tree]. change (12 - 4) with 8.
    rewrite (uint_at_field data [] seq (be_bytes ts 4 ++ be_bytes li 4 ++ enc ++ concat path) 0)
      by (reflexivity || assumption).
    rewrite (uint_at_field data (be_bytes seq 4) ts (be_bytes li 4 ++ enc ++ concat path) 4)
      by (reflexivity || assumption || apply Pts; reflexivity).
    rewrite (uint_at_field data (be_bytes seq 4 ++ be_bytes ts 4) li (enc ++ concat path) 8)
      by (reflexivity || assumption).
    destruct (signature_at_field (AuditProof.signature self) sig data
                (be_bytes seq 4 ++ be_bytes ts 4 ++ be_bytes li 4) enc (concat path) 12)
      as [Hn Hparsed]; try assumption; try reflexivity.
    rewrite Hn, Hparsed.
    destruct (Z.eqb_spec (size enc) 0); [lia |].
    rewrite (drop_past_prefix (be_bytes seq 4 ++ be_bytes ts 4 ++ be_bytes li 4 ++ enc)
               (concat path))
      by (rewrite !size_app, !size_be_bytes; lia).
    rewrite Hmod. cbn [Z.eqb negb].
    change data with ((be_bytes seq 4 ++ be_bytes ts 4 ++ be_bytes li 4 ++ enc)
                      ++ concat path).
    rewrite Deserialize_path_encoded
      by (assumption || rewrite !size_app, !size_be_bytes; lia).
    reflexivity.
  - set (data := be_bytes seq 4 ++ [] ++ be_bytes li 4 ++ enc ++ concat path).
    assert (Hsize : size data = 8 + size enc + size (concat path)).
    { unfold data. rewrite !size_app, !size_be_bytes, size_nil. lia. }
    rewrite AuditProof_Deserialize_eq
      by (unfold signature_offset; cbn [AuditProof.is_log_segment_tree]; lia).
    change (signature_offset SegmentData.SEGMENT_INFO_TREE) with 8.
    cbn [AuditProof.is_log_segment_tree]. change (8 - 4) with 4.
    rewrite (uint_at_field data [] seq (be_bytes li 4 ++ enc ++ concat path) 0)
      by (reflexivity || assumption).
    rewrite (uint_at_field data (be_bytes seq 4) li (enc ++ concat path) 4)
      by (reflexivity || assumption).
    destruct (signature_at_field (AuditProof.signature self) sig data
                (be_bytes seq 4 ++ be_bytes li 4) enc (concat path) 8)
      as [Hn Hparsed]; try assumption; try reflexivity.
    rewrite Hn, Hparsed.
    destruct (Z.eqb_spec (size enc) 0); [lia |].
    rewrite (drop_past_prefix (be_bytes seq 4 ++ be_bytes li 4 ++ enc) (concat path))
      by (rewrite !size_app, !size_be_bytes; lia).
    rewrite Hmod. cbn [Z.eqb negb].
    change data with ((be_bytes seq 4 ++ be_bytes li 4 ++ enc) ++ concat path).
    rewrite Deserialize_path_encoded
      by (assumption || rewrite !size_app, !size_be_bytes; lia).
    cbn [mbind option_bind]. unfold size_add. unfold fits in Hseq.
    rewrite to_size_t_small by (simpl in Hseq; lia). reflexivity.
Qed.

(** Every run of [AuditProof::Deserialize] that gets past the fixed-width
    fields: what it stores and when it accepts. *)
Lemma AuditProof_Deserialize_run (self : AuditProof.t)
    (type : SegmentData.TreeType) (proof : std_string) :
  signature_offset type <= size proof ->
  let pos0 := signature_offset type in
  let seq := uint_at proof 0 4 in
  let n := signature_consumed (AuditProof.signature self) proof pos0 in
  let residue := drop (Z.to_nat (pos0 + n)) proof in
  exists ok path,
    AuditProof.Deserialize self type proof
    = Some (ok, AuditProof.mk type seq
                  (if AuditProof.is_log_segment_tree type
                   then uint_at proof 4 4 else size_add seq 1)
                  (uint_at proof (pos0 - 4) 4)
                  (signature_parsed (AuditProof.signature self) proof pos0)
                  path)
    /\ (ok = true <-> n <> 0 /\ size residue mod 32 = 0)
    /\ (ok = false -> path = AuditProof.audit_path self)
    /\ (ok = true -> concat path = residue /\ Forall hash32 path).
Proof.
  intros Hsz pos0 seq n residue.
  rewrite AuditProof_Deserialize_eq by exact Hsz. fold pos0 seq n residue.
  pose proof (signature_consumed_range (AuditProof.signature self) proof pos0) as Hn.
  fold n in Hn.
  assert (Hpos0 : 0 <= pos0) by (unfold pos0, signature_offset; destruct type; cbn; lia).
  specialize (Hn ltac:(unfold pos0 in *; lia)).
  destruct (Z.eqb_spec n 0) as [Hz | Hnz].
  { eexists _, _. split; [reflexivity |]. split; [| split; [reflexivity | discriminate]].
    split; [discriminate | tauto]. }
  destruct (Z.eqb_spec (size residue mod 32) 0) as [Hmod | Hmod]; cbn [negb].
  - destruct (Deserialize_path_chunks (S (length proof)) proof (pos0 + n) [])
      as (chunks & Hrun & Hcat & Hall).
    + lia.
    + unfold residue in Hmod. rewrite size_drop in Hmod by lia.
      rewrite Z2Nat.id in Hmod by lia. exact Hmod.
    + unfold size in *. lia.
    + rewrite Hrun. cbn [mbind option_bind app].
      eexists _, _. split; [reflexivity |]. split; [tauto |].
      split; [discriminate |]. intros _. split; assumption.
  - eexists _, _. split; [reflexivity |].
    split; [| split; [reflexivity | discriminate]].
    split; [discriminate | tauto].
Qed.

(** The layout of an audit proof.  Called with [SEGMENT_INFO_TREE],
    [AuditProof::Deserialize] takes no tree size from the buffer (the leaf
    index is at offset 4 and the signature at offset 8) and sets
    [tree_size] to the stored [sequence_number] plus 1; called with
    [LOG_SEGMENT_TREE], it passes the four bytes that follow the sequence
    number to [DeserializeUint] (the leaf index is at offset 8 and the
    signature at offset 12).  [Serialize] writes the four bytes of
    [tree_size] exactly when the tree type is [LOG_SEGMENT_TREE]. *)
Theorem AuditProof_tree_size_handling :
  (forall self proof, 4 <= size proof ->
     exists ok r,
       AuditProof.Deserialize self SegmentData.SEGMENT_INFO_TREE proof = Some (ok, r)
       /\ AuditProof.sequence_number r = uint_at proof 0 4
       /\ AuditProof.tree_size r = size_add (AuditProof.sequence_number r) 1
       /\ (AuditProof.sequence_number r < 2 ^ 64 - 1 ->
           AuditProof.tree_size r = AuditProof.sequence_number r + 1)
       /\ (8 <= size proof ->
           AuditProof.leaf_index r = uint_at proof 4 4
           /\ AuditProof.signature r
              = signature_parsed (AuditProof.signature self) proof 8))
  /\ (forall self proof, 8 <= size proof ->
        exists ok r,
          AuditProof.Deserialize self SegmentData.LOG_SEGMENT_TREE proof = Some (ok, r)
          /\ AuditProof.sequence_number r = uint_at proof 0 4
          /\ AuditProof.tree_size r = uint_at proof 4 4
          /\ (12 <= size proof ->
              AuditProof.leaf_index r = uint_at proof 8 4
              /\ AuditProof.signature r
                 = signature_parsed (AuditProof.signature self) proof 12))
  /\ (forall p, valid_AuditProof p ->
        exists enc,
          DigitallySigned.Serialize (AuditProof.signature p) = Some enc
          /\ AuditProof.Serialize p
             = Some (be_bytes (AuditProof.sequence_number p) 4
                     ++ match AuditProof.tree_type p with
                        | SegmentData.LOG_SEGMENT_TREE =>
                            be_bytes (AuditProof.tree_size p) 4
                        | SegmentData.SEGMENT_INFO_TREE => []
                        end
                     ++ be_bytes (AuditProof.leaf_index p) 4
                     ++ enc ++ concat (AuditProof.audit_path p))).
Proof.
  assert (Hwrap : forall x, 0 <= x < 2 ^ 64 - 1 -> size_add x 1 = x + 1).
  { intros x Hx. unfold size_add. apply to_size_t_small. lia. }
  split; [| split].
  - intros self proof Hsz.
    pose proof (uint_fold_range (take (Z.to_nat 4) (drop (Z.to_nat 0) proof))) as Hseq.
    fold (uint_at proof 0 4) in Hseq.
    destruct (Z.lt_ge_cases (size proof) 8) as [Hshort | Hlong].
    + unfold AuditProof.Deserialize.
      destruct (Z.ltb_spec (size proof) (0 + 4)); [lia |].
      rewrite read_uint by lia. cbn [AuditProof.is_log_segment_tree AuditProof.tree_type].
      destruct (Z.ltb_spec (size proof) (0 + 4 + 4)); [| lia].
      eexists _, _. split; [reflexivity |].
      cbn [AuditProof.sequence_number AuditProof.tree_size].
      repeat split; try reflexivity; try lia. intros Hlt. apply Hwrap. lia.
    + destruct (AuditProof_Deserialize_run self SegmentData.SEGMENT_INFO_TREE proof)
        as (ok & path & Hrun & _); [cbn; lia |].
      exists ok. eexists. split; [exact Hrun |].
      cbn [AuditProof.sequence_number AuditProof.tree_size AuditProof.leaf_index
           AuditProof.signature AuditProof.is_log_segment_tree].
      repeat split; try reflexivity. intros Hlt. apply Hwrap. lia.
  - intros self proof Hsz.
    destruct (Z.lt_ge_cases (size proof) 12) as [Hshort | Hlong].
    + unfold AuditProof.Deserialize.
      destruct (Z.ltb_spec (size proof) (0 + 4)); [lia |].
      rewrite read_uint by lia. cbn [AuditProof.is_log_segment_tree AuditProof.tree_type].
      destruct (Z.ltb_spec (size proof) (0 + 4 + 4)); [lia |].
      rewrite read_uint by lia.
      destruct (Z.ltb_spec (size proof) (0 + 4 + 4 + 4)); [| lia].
      eexists _, _. split; [reflexivity |].
      cbn [AuditProof.sequence_number AuditProof.tree_size].
      repeat split; try reflexivity; lia.
    + destruct (AuditProof_Deserialize_run self SegmentData.LOG_SEGMENT_TREE proof)
        as (ok & path & Hrun & _); [cbn; lia |].
      exists ok. eexists. split; [exact Hrun |]. repeat split; reflexivity.
  - intros p Hv. destruct (AuditProof_Serialize_eq p Hv) as (enc & Henc & Hser).
    exists enc. split; [exact Henc |]. rewrite Hser. destruct (AuditProof.tree_type p);
      reflexivity.
Qed.

(** The statement above at the specification's two audit-proof
    scenarios: the 76-byte segment-info proof decodes to tree size 6, and
    the segment-tree proof with tree size 9 encodes to 16 bytes. *)
Lemma AuditProof_tree_size_handling_witness :
  (exists ok r,
     AuditProof.Deserialize fresh_AuditProof SegmentData.SEGMENT_INFO_TREE
       ([Byte.x00; Byte.x00; Byte.x00; Byte.x05; Byte.x00; Byte.x00; Byte.x00; Byte.x01;
         Byte.x01; Byte.x01; Byte.x00; Byte.x00]
        ++ repeat Byte.xaa 32 ++ repeat Byte.xbb 32)
     = Some (ok, r)
     /\ AuditProof.sequence_number r = 5
     /\ AuditProof.tree_size r = 6
     /\ AuditProof.leaf_index r = 1)
  /\ exists enc,
       DigitallySigned.Serialize (AuditProof.signature log_segment_proof) = Some enc
       /\ AuditProof.Serialize log_segment_proof
          = Some [Byte.x00; Byte.x00; Byte.x00; Byte.x05; Byte.x00; Byte.x00; Byte.x00;
                  Byte.x09; Byte.x00; Byte.x00; Byte.x00; Byte.x03; Byte.x00; Byte.x00;
                  Byte.x00; Byte.x00].
Proof.
  destruct AuditProof_tree_size_handling as (Hinfo & _ & Hser). split.
  - destruct (Hinfo fresh_AuditProof
                ([Byte.x00; Byte.x00; Byte.x00; Byte.x05; Byte.x00; Byte.x00; Byte.x00;
                  Byte.x01; Byte.x01; Byte.x01; Byte.x00; Byte.x00]
                 ++ repeat Byte.xaa 32 ++ repeat Byte.xbb 32))
      as (ok & r & Hrun & Hseq & Hts & _ & Hrest).
    { vm_compute. congruence. }
    exists ok, r. split; [exact Hrun |].
    destruct Hrest as [Hli _]; [vm_compute; congruence |].
    rewrite Hts, Hli, Hseq. repeat split; vm_compute; reflexivity.
  - destruct (Hser log_segment_proof) as (enc & Henc & Hbytes).
    { unfold valid_AuditProof, valid_DigitallySigned, fits. vm_compute.
      repeat split; try congruence. constructor. }
    exists enc. split; [exact Henc |]. rewrite Hbytes.
    vm_compute in Henc. injection Henc as <-. vm_compute. reflexivity.
Defined.

(** C5: called with [SEGMENT_INFO_TREE], [AuditProof::Deserialize] reads
    no tree size from the buffer and sets [tree_size] to
    [sequence_number + 1]; called with [LOG_SEGMENT_TREE], it reads a
    4-byte tree size from the wire right after the sequence number;
    [Serialize] writes the tree size only for [LOG_SEGMENT_TREE].  The
    code does not on the encoding of the valid log-segment proof with
    tree size 128: the four bytes after the sequence number are
    [00 00 00 80], and the decode stores 2^64 - 128 as the tree size, the
    byte 0x80 having been added as a signed [char].  The other counters,
    5 and 3, are stored as they are on the wire. *)
Theorem AuditProof_Deserialize_misreads_tree_size_128 :
  valid_AuditProof log_segment_proof_128
  /\ exists bs,
       AuditProof.Serialize log_segment_proof_128 = Some bs
       /\ take 4 (drop 4 bs) = [Byte.x00; Byte.x00; Byte.x00; Byte.x80]
       /\ be_value (take 4 (drop 4 bs)) = 128
       /\ forall self, exists r,
            AuditProof.Deserialize self SegmentData.LOG_SEGMENT_TREE bs = Some (true, r)
            /\ AuditProof.sequence_number r = 5
            /\ AuditProof.tree_size r = 2 ^ 64 - 128
            /\ AuditProof.leaf_index r = 3
            /\ r <> log_segment_proof_128.
Proof.
  split.
  { unfold valid_AuditProof, valid_DigitallySigned, fits. vm_compute.
    repeat split; try congruence. constructor. }
  eexists. split; [vm_compute; reflexivity |].
  split; [vm_compute; reflexivity |]. split; [vm_compute; reflexivity |].
  intros self. eexists. split; [vm_compute; reflexivity |].
  split; [vm_compute; reflexivity |]. split; [vm_compute; reflexivity |].
  split; [vm_compute; reflexivity |]. vm_compute. discriminate.
Qed.

(** The size of a concatenation of 32-byte nodes. *)
Lemma size_concat_hash32 (l : list std_string) :
  Forall hash32 l -> size (concat l) = 32 * Z.of_nat (length l).
Proof.
  intros Hl. induction Hl as [| x l Hx _ IH]; [reflexivity |].
  cbn [concat length]. rewrite size_app, IH. unfold hash32 in Hx. lia.
Qed.

(** The path of an audit proof, measured from where [ReadFromString]
    reports the signature to end: [AuditProof::Deserialize] fails whenever
    the number of bytes after that point is not a multiple of 32; when it
    is (and [ReadFromString] consumed something), the decode succeeds and
    [audit_path] is those bytes cut, in order, into 32-byte entries; none
    left gives an empty path. *)
Theorem AuditProof_Deserialize_alignment (self : AuditProof.t)
    (type : SegmentData.TreeType) (proof : std_string) :
  let offset := signature_offset type in
  let consumed := signature_consumed (AuditProof.signature self) proof offset in
  let residue := drop (Z.to_nat (offset + consumed)) proof in
  (size residue mod 32 <> 0 ->
   exists r, AuditProof.Deserialize self type proof = Some (false, r))
  /\ (offset <= size proof -> consumed <> 0 -> size residue mod 32 = 0 ->
      exists r, AuditProof.Deserialize self type proof = Some (true, r)
                /\ concat (AuditProof.audit_path r) = residue
                /\ Forall hash32 (AuditProof.audit_path r)
                /\ Z.of_nat (length (AuditProof.audit_path r)) = size residue / 32)
  /\ (offset <= size proof -> consumed <> 0 -> residue = [] ->
      exists r, AuditProof.Deserialize self type proof = Some (true, r)
                /\ AuditProof.audit_path r = []).
Proof.
  intros offset consumed residue.
  assert (Haccept : offset <= size proof -> consumed <> 0 -> size residue mod 32 = 0 ->
            exists r, AuditProof.Deserialize self type proof = Some (true, r)
                      /\ concat (AuditProof.audit_path r) = residue
                      /\ Forall hash32 (AuditProof.audit_path r)
                      /\ Z.of_nat (length (AuditProof.audit_path r)) = size residue / 32).
  { intros Hsz Hn Hmod.
    destruct (AuditProof_Deserialize_run self type proof Hsz)
      as (ok & path & Hrun & Hok & _ & Hpath).
    fold offset consumed residue in Hok, Hpath.
    assert (Htrue : ok = true) by (apply Hok; split; assumption).
    subst ok. destruct (Hpath eq_refl) as [Hcat Hall].
    eexists. split; [exact Hrun |]. cbn [AuditProof.audit_path].
    split; [exact Hcat |]. split; [exact Hall |].
    rewrite <- Hcat, (size_concat_hash32 path Hall).
    rewrite Z.mul_comm, Z.div_mul by lia. reflexivity. }
  split; [| split].
  - intros Hmod. destruct (Z.lt_ge_cases (size proof) offset) as [Hshort | Hlong].
    + destruct (AuditProof_Deserialize_short self type proof Hshort) as (r & Hrun & _).
      exists r. exact Hrun.
    + destruct (AuditProof_Deserialize_run self type proof Hlong)
        as (ok & path & Hrun & Hok & _).
      fold offset consumed residue in Hok. destruct ok.
      * exfalso. apply Hmod. apply Hok. reflexivity.
      * eexists. exact Hrun.
  - exact Haccept.
  - intros Hsz Hn Hnil. destruct (Haccept Hsz Hn) as (r & Hr & Hcat & Hall & Hlen).
    { rewrite Hnil. reflexivity. }
    exists r. split; [exact Hr |]. rewrite Hnil in Hlen.
    change (size [] / 32) with 0 in Hlen.
    destruct (AuditProof.audit_path r); [reflexivity | simpl in Hlen; lia].
Qed.

(** The statement above at the 16-byte segment-tree proof of the
    specification, whose residue is empty, and at the same proof followed
    by one byte. *)
Lemma AuditProof_Deserialize_alignment_witness :
  (exists r,
     AuditProof.Deserialize fresh_AuditProof SegmentData.LOG_SEGMENT_TREE
       [Byte.x00; Byte.x00; Byte.x00; Byte.x05; Byte.x00; Byte.x00; Byte.x00;
        Byte.x09; Byte.x00; Byte.x00; Byte.x00; Byte.x03; Byte.x00; Byte.x00;
        Byte.x00; Byte.x00]
     = Some (true, r)
     /\ AuditProof.audit_path r = [])
  /\ exists r,
       AuditProof.Deserialize fresh_AuditProof SegmentData.LOG_SEGMENT_TREE
         [Byte.x00; Byte.x00; Byte.x00; Byte.x05; Byte.x00; Byte.x00; Byte.x00;
          Byte.x09; Byte.x00; Byte.x00; Byte.x00; Byte.x03; Byte.x00; Byte.x00;
          Byte.x00; Byte.x00; Byte.xaa]
       = Some (false, r).
Proof.
  split.
  - apply (proj2 (proj2 (AuditProof_Deserialize_alignment fresh_AuditProof
                           SegmentData.LOG_SEGMENT_TREE
                           [Byte.x00; Byte.x00; Byte.x00; Byte.x05; Byte.x00; Byte.x00;
                            Byte.x00; Byte.x09; Byte.x00; Byte.x00; Byte.x00; Byte.x03;
                            Byte.x00; Byte.x00; Byte.x00; Byte.x00]))).
    + vm_compute. congruence.
    + vm_compute. congruence.
    + vm_compute. reflexivity.
  - apply (proj1 (AuditProof_Deserialize_alignment fresh_AuditProof
                    SegmentData.LOG_SEGMENT_TREE
                    [Byte.x00; Byte.x00; Byte.x00; Byte.x05; Byte.x00; Byte.x00;
                     Byte.x00; Byte.x09; Byte.x00; Byte.x00; Byte.x00; Byte.x03;
                     Byte.x00; Byte.x00; Byte.x00; Byte.x00; Byte.xaa])).
    vm_compute. congruence.
Defined.

(** C6: [AuditProof::Deserialize] fails whenever the number of bytes left
    after the embedded signature is not divisible by 32; when it is, the
    residue is split in order into 32-byte [audit_path] entries, and an
    empty residue is accepted, giving an empty path.  The code does not,
    on two encodings of valid proofs.  With a signature of 128 bytes and
    an empty path, nothing is left after the signature, yet the decode
    fails: the length field [00 80] is read as 2^64 - 128 and the
    signature is rejected.  With a signature of 384 bytes and a path of
    one node, 32 bytes are left after the signature, yet the decode
    succeeds with nine entries: the length field [01 80] is read as 128,
    so the last 256 bytes of the signature are taken for eight nodes that
    come before the real one.  In both, the last byte of the length field
    has been added as a signed [char]. *)
Theorem AuditProof_Deserialize_misplaces_path :
  (valid_AuditProof proof_signature_128
   /\ AuditProof.audit_path proof_signature_128 = []
   /\ exists bs,
        AuditProof.Serialize proof_signature_128 = Some bs
        /\ size bs = 12 + (4 + 128)
        /\ forall self, exists r,
             AuditProof.Deserialize self SegmentData.LOG_SEGMENT_TREE bs
             = Some (false, r))
  /\ (valid_AuditProof proof_signature_384
      /\ AuditProof.audit_path proof_signature_384 = [repeat Byte.xaa 32]
      /\ exists bs,
           AuditProof.Serialize proof_signature_384 = Some bs
           /\ size bs = 8 + (4 + 384) + 32
           /\ forall self, exists r,
                AuditProof.Deserialize self SegmentData.SEGMENT_INFO_TREE bs
                = Some (true, r)
                /\ size (DigitallySigned.sig_string (AuditProof.signature r)) = 128
                /\ AuditProof.audit_path r
                   = repeat (repeat Byte.x11 32) 8 ++ [repeat Byte.xaa 32]
                /\ length (AuditProof.audit_path r) = 9%nat).
Proof.
  split.
  - split.
    { unfold valid_AuditProof, valid_DigitallySigned, fits. vm_compute.
      repeat split; try congruence. constructor. }
    split; [reflexivity |].
    eexists. split; [vm_compute; reflexivity |]. split; [vm_compute; reflexivity |].
    intros self. eexists. vm_compute. reflexivity.
  - split.
    { unfold valid_AuditProof, valid_DigitallySigned, fits, hash32. vm_compute.
      repeat split; try congruence. repeat constructor. }
    split; [reflexivity |].
    eexists. split; [vm_compute; reflexivity |]. split; [vm_compute; reflexivity |].
    intros self. eexists. split; [vm_compute; reflexivity |].
    split; [vm_compute; reflexivity |]. split; vm_compute; reflexivity.
Qed.

(** Whatever the length bytes of a valid signature are, a prefix parse
    of its encoding that does not return 0 stops a multiple of 256 bytes
    before the end of the encoding: reading a byte as a signed [char]
    changes the declared length by a multiple of 256. *)
Lemma ReadFromString_consumed_congruent (self d : DigitallySigned.t)
    (enc S : std_string) :
  valid_DigitallySigned d -> DigitallySigned.Serialize d = Some enc ->
  exists n d',
    DigitallySigned.ReadFromString self (enc ++ S) = Some (n, d')
    /\ (n = 0 \/ (size enc - n) mod 256 = 0).
Proof.
  intros Hv Henc.
  pose proof (size_DigitallySigned_encoding d enc Hv Henc) as Hsize.
  rewrite DigitallySigned_Serialize_eq in Henc by exact Hv.
  injection Henc as <-. destruct Hv as (_ & _ & Hlen).
  pose proof (size_nonneg (DigitallySigned.sig_string d)) as Hlen0.
  set (L := size (DigitallySigned.sig_string d)) in *.
  cbn [be_bytes app]. rewrite ReadFromString_cons4.
  destruct (negb _ || negb _); [eexists _, _; split; [reflexivity | left; reflexivity] |].
  destruct (_ <? _); [eexists _, _; split; [reflexivity | left; reflexivity] |].
  eexists _, _. split; [reflexivity |]. right. rewrite Hsize.
  pose proof (uint_fold_signed
                [byte.of_Z (L / 2 ^ (8 * Z.of_nat 1)); byte.of_Z (L / 2 ^ (8 * Z.of_nat 0))]
                0) as Hfold.
  change (to_size_t 0) with 0 in Hfold. rewrite Hfold.
  unfold signed_value_from, size_add, to_size_t, size_t_bits, char_value.
  cbn [fold_left]. rewrite !byte.unsigned_of_Z. unfold byte.wrap.
  change (2 ^ (8 * Z.of_nat 1)) with 256. change (2 ^ (8 * Z.of_nat 0)) with 1.
  change (2 ^ 8) with 256. rewrite Z.div_1_r.
  rewrite (Z.mod_small (L / 256) 256) by (split; [apply Z.div_pos; lia |
    apply Z.div_lt_upper_bound; lia]).
  pose proof (Z.div_mod L 256 ltac:(lia)) as Hdm.
  pose proof (Z.mod_pos_bound L 256 ltac:(lia)) as Hm.
  assert (Hq : 0 <= L / 256 < 256)
    by (split; [apply Z.div_pos; lia | apply Z.div_lt_upper_bound; lia]).
  set (q := L / 256) in *. set (r := L mod 256) in *.
  destruct (q <? 128), (r <? 128); Z.div_mod_to_equations; lia.
Qed.

(** Alignment on encodings: a valid proof's encoding followed by bytes
    whose number is not a multiple of 32 is rejected, whatever bytes the
    proof's counters and signature length contain. *)
Lemma AuditProof_encoding_alignment (self p : AuditProof.t) (X : std_string) :
  valid_AuditProof p -> size X mod 32 <> 0 ->
  exists bs r,
    AuditProof.Serialize p = Some bs
    /\ AuditProof.Deserialize self (AuditProof.tree_type p) (bs ++ X) = Some (false, r).
Proof.
  intros Hv HX. destruct (AuditProof_Serialize_eq p Hv) as (enc & Henc & Hser).
  destruct Hv as (_ & _ & _ & Hsig & Hpath).
  exists (be_bytes (AuditProof.sequence_number p) 4
          ++ (if AuditProof.is_log_segment_tree (AuditProof.tree_type p)
              then be_bytes (AuditProof.tree_size p) 4 else [])
          ++ be_bytes (AuditProof.leaf_index p) 4
          ++ enc ++ concat (AuditProof.audit_path p)).
  set (pre := be_bytes (AuditProof.sequence_number p) 4
              ++ (if AuditProof.is_log_segment_tree (AuditProof.tree_type p)
                  then be_bytes (AuditProof.tree_size p) 4 else [])
              ++ be_bytes (AuditProof.leaf_index p) 4).
  set (tail := concat (AuditProof.audit_path p) ++ X).
  assert (Hdata : (be_bytes (AuditProof.sequence_number p) 4
                   ++ (if AuditProof.is_log_segment_tree (AuditProof.tree_type p)
                       then be_bytes (AuditProof.tree_size p) 4 else [])
                   ++ be_bytes (AuditProof.leaf_index p) 4
                   ++ enc ++ concat (AuditProof.audit_path p)) ++ X
                  = pre ++ enc ++ tail).
  { unfold pre, tail. rewrite <- !app_assoc. reflexivity. }
  rewrite Hdata. clear Hdata.
  assert (Hpre : size pre = signature_offset (AuditProof.tree_type p)).
  { unfold pre, signature_offset.
    destruct (AuditProof.is_log_segment_tree (AuditProof.tree_type p));
      rewrite !size_app, ?size_be_bytes, ?size_nil; reflexivity. }
  assert (Hoff : 0 <= signature_offset (AuditProof.tree_type p))
    by (rewrite <- Hpre; apply size_nonneg).
  destruct (ReadFromString_consumed_congruent (AuditProof.signature self)
              (AuditProof.signature p) enc tail Hsig Henc) as (n & d' & Hrun & Hn).
  assert (Hconsumed : signature_consumed (AuditProof.signature self) (pre ++ enc ++ tail)
                        (signature_offset (AuditProof.tree_type p)) = n).
  { unfold signature_consumed. rewrite drop_past_prefix by (symmetry; exact Hpre).
    rewrite Hrun. reflexivity. }
  destruct (ReadFromString_total (AuditProof.signature self) (enc ++ tail))
    as (n' & d'' & Hrun' & Hrange).
  rewrite Hrun in Hrun'. injection Hrun' as <- <-.
  pose proof (size_concat_hash32 _ Hpath) as Hcat.
  pose proof (size_nonneg enc). pose proof (size_nonneg X).
  assert (Hlong : signature_offset (AuditProof.tree_type p) <= size (pre ++ enc ++ tail))
    by (rewrite !size_app, Hpre; pose proof (size_nonneg tail); lia).
  destruct (AuditProof_Deserialize_run self (AuditProof.tree_type p)
              (pre ++ enc ++ tail) Hlong) as (ok & path & Hr & Hok & _).
  rewrite Hconsumed in Hok. rewrite size_app in Hrange.
  rewrite size_drop, !size_app, Z2Nat.id, Hpre in Hok
    by (rewrite ?size_app, ?Z2Nat.id, ?Hpre; lia).
  unfold tail in Hok, Hrange. rewrite size_app, Hcat in Hok, Hrange.
  destruct ok.
  - exfalso. destruct (proj1 Hok eq_refl) as [Hnz Hmod].
    destruct Hn as [Hz | Hn]; [contradiction |].
    Z.div_mod_to_equations. lia.
  - eexists. split; [exact Hser | exact Hr].
Qed.

(** On the segment-info tree, a proof without high bytes comes back from
    the round trip exactly when its [tree_size] is [sequence_number + 1]. *)
Lemma AuditProof_segment_info_roundtrip_plain (self p : AuditProof.t) :
  valid_AuditProof p -> plain_AuditProof p ->
  AuditProof.tree_type p = SegmentData.SEGMENT_INFO_TREE ->
  exists bs r,
    AuditProof.Serialize p = Some bs
    /\ AuditProof.Deserialize self SegmentData.SEGMENT_INFO_TREE bs = Some (true, r)
    /\ (r = p <-> AuditProof.tree_size p = AuditProof.sequence_number p + 1).
Proof.
  intros Hv Hp Hty.
  destruct (AuditProof_decode_encoded self p Hv Hp) as (bs & Hser & Hde).
  rewrite Hty in Hde. cbn [AuditProof.is_log_segment_tree] in Hde.
  exists bs. eexists. split; [exact Hser |]. split; [exact Hde |].
  destruct p as [ty seq ts li sig path]. cbn in Hty |- *. subst ty. split.
  - intros [= Hts]. lia.
  - intros ->. reflexivity.
Qed.

(** C10: for every proof [P] on the segment-info tree, the round trip
    through [Serialize] and [Deserialize] gives [P] back if and only if
    [P.tree_size == P.sequence_number + 1].  The code does not for
    sequence number 128 with tree size 129: the byte 0x80 of the sequence
    number is read as a signed [char], the decoded sequence number is
    2^64 - 128 and the decoded tree size 2^64 - 127. *)
Theorem AuditProof_roundtrip_fails_sequence_128 :
  valid_AuditProof segment_info_proof_128
  /\ AuditProof.tree_type segment_info_proof_128 = SegmentData.SEGMENT_INFO_TREE
  /\ AuditProof.tree_size segment_info_proof_128
     = AuditProof.sequence_number segment_info_proof_128 + 1
  /\ exists bs,
       AuditProof.Serialize segment_info_proof_128 = Some bs
       /\ forall self, exists r,
            AuditProof.Deserialize self SegmentData.SEGMENT_INFO_TREE bs = Some (true, r)
            /\ AuditProof.sequence_number r = 2 ^ 64 - 128
            /\ AuditProof.tree_size r = 2 ^ 64 - 127
            /\ r <> segment_info_proof_128.
Proof.
  split.
  { unfold valid_AuditProof, valid_DigitallySigned, fits. vm_compute.
    repeat split; try congruence. constructor. }
  split; [reflexivity |]. split; [reflexivity |].
  eexists. split; [vm_compute; reflexivity |].
  intros self. eexists. split; [vm_compute; reflexivity |].
  split; [vm_compute; reflexivity |]. split; [vm_compute; reflexivity |].
  vm_compute. discriminate.
Qed.

(** ** Round trips *)

(** Two fields never reach the wire.  The segment-info form does not
    carry the two roots: decoded into a fresh object, a valid record
    comes back with empty roots.  A proof on the segment-info tree does
    not carry its tree size: a proof with [tree_size] 9 and sequence
    number 5 comes back with [tree_size] 6. *)
Lemma roundtrip_loses_unsent_fields :
  (valid_SegmentData segment_data_7
   /\ exists bs r,
        SegmentData.SerializeSegmentInfo segment_data_7 = Some bs
        /\ SegmentData.DeserializeSegmentInfo fresh_SegmentData bs = Some (true, r)
        /\ LogSegmentCheckpoint.root (SegmentData.log_segment r) = []
        /\ LogHeadCheckpoint.root (SegmentData.log_head r) = []
        /\ r <> segment_data_7)
  /\ (valid_AuditProof segment_info_proof_9
      /\ exists bs r,
           AuditProof.Serialize segment_info_proof_9 = Some bs
           /\ AuditProof.Deserialize fresh_AuditProof SegmentData.SEGMENT_INFO_TREE bs
              = Some (true, r)
           /\ AuditProof.tree_size r = 6
           /\ r <> segment_info_proof_9).
Proof.
  split; split.
  - unfold valid_SegmentData, valid_LogSegmentCheckpoint, valid_LogHeadCheckpoint,
      valid_DigitallySigned, fits, hash32. by_evaluation.
  - eexists _, _. split; [vm_compute; reflexivity |].
    split; [vm_compute; reflexivity |].
    split; [reflexivity |]. split; [reflexivity |]. vm_compute. discriminate.
  - unfold valid_AuditProof, valid_DigitallySigned, fits, hash32. by_evaluation.
  - eexists _, _. split; [vm_compute; reflexivity |].
    split; [vm_compute; reflexivity |].
    split; [reflexivity |]. vm_compute. discriminate.
Qed.

(** The round trip also breaks on a counter with a byte at or above 0x80:
    a head checkpoint with sequence number 128 is rejected or altered. *)
Lemma LogHeadCheckpoint_roundtrip_fails_sequence_128 :
  exists bs r,
    LogHeadCheckpoint.Serialize (LogHeadCheckpoint.mk 128 empty_signature (zeros 32))
    = Some bs
    /\ LogHeadCheckpoint.Deserialize fresh_LogHeadCheckpoint bs = Some (true, r)
    /\ LogHeadCheckpoint.sequence_number r = 2 ^ 64 - 128.
Proof.
  eexists _, _. split; [vm_compute; reflexivity |].
  split; vm_compute; reflexivity.
Qed.

(** C1, amended: for every valid record whose wire integers (the 4-byte
    counters and the 2-byte signature length) have no byte at or above
    0x80, the serializer returns and decoding its output succeeds.  A
    [DigitallySigned], a [LogSegmentCheckpoint] and a [LogHeadCheckpoint]
    come back equal; an [AuditProof], decoded with its own tree type,
    comes back equal provided its [tree_size] is [sequence_number + 1]
    when the tree is the segment-info tree; a [SegmentData] comes back
    through [SerializeSegmentInfo] / [DeserializeSegmentInfo] with every
    field but the two roots, which stay those of the receiver. *)
Theorem roundtrip_without_high_bytes :
  (forall self d, valid_DigitallySigned d -> plain_DigitallySigned d ->
     exists bs, DigitallySigned.Serialize d = Some bs
                /\ DigitallySigned.Deserialize self bs = Some (true, d))
  /\ (forall self c, valid_LogSegmentCheckpoint c -> plain_LogSegmentCheckpoint c ->
        exists bs, LogSegmentCheckpoint.Serialize c = Some bs
                   /\ LogSegmentCheckpoint.Deserialize self bs = Some (true, c))
  /\ (forall self c, valid_LogHeadCheckpoint c -> plain_LogHeadCheckpoint c ->
        exists bs, LogHeadCheckpoint.Serialize c = Some bs
                   /\ LogHeadCheckpoint.Deserialize self bs = Some (true, c))
  /\ (forall self d, valid_SegmentData d -> plain_SegmentData d ->
        exists bs, SegmentData.SerializeSegmentInfo d = Some bs
                   /\ SegmentData.DeserializeSegmentInfo self bs
                      = Some (true, with_roots_of self d))
  /\ (forall self p, valid_AuditProof p -> plain_AuditProof p ->
        (AuditProof.tree_type p = SegmentData.SEGMENT_INFO_TREE ->
         AuditProof.tree_size p = AuditProof.sequence_number p + 1) ->
        exists bs, AuditProof.Serialize p = Some bs
                   /\ AuditProof.Deserialize self (AuditProof.tree_type p) bs
                      = Some (true, p)).
Proof.
  split; [| split; [| split; [| split]]].
  - intros self d Hv Hp.
    destruct (DigitallySigned_Serialize_valid d Hv) as (enc & Henc & _).
    exists enc. split; [exact Henc |].
    pose proof (DigitallySigned_Deserialize_encoded self d enc [] Hv Hp Henc) as H.
    rewrite app_nil_r in H. exact H.
  - intros self c. apply LogSegmentCheckpoint_roundtrip_plain.
  - intros self c. apply LogHeadCheckpoint_roundtrip_plain.
  - intros self d Hv Hp.
    destruct (DeserializeSegmentInfo_encoded self d [] Hv Hp) as (bs & Hser & Hde).
    exists bs. split; [exact Hser |]. rewrite app_nil_r in Hde. exact Hde.
  - intros self p Hv Hp Hts.
    destruct (AuditProof_decode_encoded self p Hv Hp) as (bs & Hser & Hde).
    exists bs. split; [exact Hser |]. rewrite Hde. do 2 f_equal.
    destruct p as [ty seq ts li sig path]. cbn in Hts |- *.
    destruct ty; cbn [AuditProof.is_log_segment_tree]; [reflexivity |].
    rewrite Hts by reflexivity. reflexivity.
Qed.

(** The statement above at the records of the specification's scenarios. *)
Lemma roundtrip_without_high_bytes_witness :
  (exists bs, DigitallySigned.Serialize signature_abc = Some bs
              /\ DigitallySigned.Deserialize empty_signature bs
                 = Some (true, signature_abc))
  /\ (exists bs, LogSegmentCheckpoint.Serialize segment_checkpoint_7 = Some bs
                 /\ LogSegmentCheckpoint.Deserialize fresh_LogSegmentCheckpoint bs
                    = Some (true, segment_checkpoint_7))
  /\ (exists bs, LogHeadCheckpoint.Serialize head_checkpoint_7 = Some bs
                 /\ LogHeadCheckpoint.Deserialize fresh_LogHeadCheckpoint bs
                    = Some (true, head_checkpoint_7))
  /\ (exists bs, SegmentData.SerializeSegmentInfo segment_data_7 = Some bs
                 /\ SegmentData.DeserializeSegmentInfo fresh_SegmentData bs
                    = Some (true, with_roots_of fresh_SegmentData segment_data_7))
  /\ (exists bs, AuditProof.Serialize segment_info_proof = Some bs
                 /\ AuditProof.Deserialize fresh_AuditProof
                      (AuditProof.tree_type segment_info_proof) bs
                    = Some (true, segment_info_proof)).
Proof.
  destruct roundtrip_without_high_bytes as (Hds & Hseg & Hhead & Hdata & Hproof).
  split; [| split; [| split; [| split]]].
  - apply Hds.
    + unfold valid_DigitallySigned. by_evaluation.
    + unfold plain_DigitallySigned. by_evaluation.
  - apply Hseg.
    + unfold valid_LogSegmentCheckpoint, valid_DigitallySigned, fits, hash32.
      by_evaluation.
    + unfold plain_LogSegmentCheckpoint, plain_DigitallySigned. by_evaluation.
  - apply Hhead.
    + unfold valid_LogHeadCheckpoint, valid_DigitallySigned, fits, hash32.
      by_evaluation.
    + unfold plain_LogHeadCheckpoint, plain_DigitallySigned. by_evaluation.
  - apply Hdata.
    + unfold valid_SegmentData, valid_LogSegmentCheckpoint, valid_LogHeadCheckpoint,
        valid_DigitallySigned, fits, hash32. by_evaluation.
    + unfold plain_SegmentData, plain_LogSegmentCheckpoint, plain_LogHeadCheckpoint,
        plain_DigitallySigned. by_evaluation.
  - apply Hproof.
    + unfold valid_AuditProof, valid_DigitallySigned, fits, hash32. by_evaluation.
    + unfold plain_AuditProof, plain_DigitallySigned. by_evaluation.
    + intros _. reflexivity.
Defined.

(** ** Rejection *)

(** A failed decode can leave parsed fields behind: the truncated
    checkpoint is rejected after both counters of the receiver have been
    overwritten. *)
Lemma LogSegmentCheckpoint_rejection_overwrites_counters :
  LogSegmentCheckpoint.Deserialize fresh_LogSegmentCheckpoint truncated_checkpoint
  = Some (false, LogSegmentCheckpoint.mk 1 2 empty_signature [])
  /\ LogSegmentCheckpoint.mk 1 2 empty_signature [] <> fresh_LogSegmentCheckpoint.
Proof. split; [vm_compute; reflexivity | vm_compute; discriminate]. Qed.

(** C9, amended: a decoder that signals failure may already have
    overwritten the fields it parsed before the failing step (counters,
    tree type, embedded signature).  What a failed decode leaves
    untouched: [ReadFromString] leaves the whole receiver as it was when
    it returns 0 on a buffer whose two length bytes are below 0x80; every
    decoder that rejects at its first length check leaves the receiver as
    it was, [AuditProof::Deserialize] having stored the tree type; the
    checkpoint decoders never assign [root], [DeserializeSegmentInfo]
    never assigns a root, and [AuditProof::Deserialize] never assigns
    [audit_path] on a failed decode. *)
Theorem rejection_leaves_unparsed_fields :
  (forall self data d,
     DigitallySigned.ReadFromString self data = Some (0, d) ->
     plain_bytes (take 2 (drop 2 data)) -> d = self)
  /\ (forall self data, size data = 0 ->
        DigitallySigned.Deserialize self data = Some (false, self))
  /\ (forall self data r,
        LogSegmentCheckpoint.Deserialize self data = Some (false, r) ->
        LogSegmentCheckpoint.root r = LogSegmentCheckpoint.root self
        /\ (size data < 8 -> r = self))
  /\ (forall self data r,
        LogHeadCheckpoint.Deserialize self data = Some (false, r) ->
        LogHeadCheckpoint.root r = LogHeadCheckpoint.root self
        /\ (size data < 4 -> r = self))
  /\ (forall self data r,
        SegmentData.DeserializeSegmentInfo self data = Some (false, r) ->
        LogSegmentCheckpoint.root (SegmentData.log_segment r)
        = LogSegmentCheckpoint.root (SegmentData.log_segment self)
        /\ LogHeadCheckpoint.root (SegmentData.log_head r)
           = LogHeadCheckpoint.root (SegmentData.log_head self)
        /\ (size data < 12 -> r = self))
  /\ (forall self type proof r,
        AuditProof.Deserialize self type proof = Some (false, r) ->
        AuditProof.audit_path r = AuditProof.audit_path self
        /\ AuditProof.tree_type r = type
        /\ (size proof < 4 ->
            r = AuditProof.mk type (AuditProof.sequence_number self)
                  (AuditProof.tree_size self) (AuditProof.leaf_index self)
                  (AuditProof.signature self) (AuditProof.audit_path self))).
Proof.
  split; [| split; [| split; [| split; [| split]]]].
  - intros self data d Hrun Hplain.
    destruct (string_cases4 data) as [Hshort | (b0 & b1 & b2 & b3 & rest & ->)].
    + rewrite ReadFromString_short in Hrun by exact Hshort. congruence.
    + change (take 2 (drop 2 (b0 :: b1 :: b2 :: b3 :: rest))) with [b2; b3] in Hplain.
      rewrite ReadFromString_cons4, plain_pair_value in Hrun by exact Hplain.
      assert (Hlen : 0 <= be_value [b2; b3] < 2 ^ 16).
      { pose proof (byte.unsigned_range b2). pose proof (byte.unsigned_range b3).
        unfold be_value, be_value_from. cbn [fold_left]. lia. }
      unfold size_add in Hrun. rewrite to_size_t_small in Hrun by lia.
      destruct (negb _ || negb _); [congruence |].
      destruct (_ <? _); [congruence |]. injection Hrun as Hn _. lia.
  - intros self data Hsz. unfold DigitallySigned.Deserialize, empty.
    rewrite Hsz. reflexivity.
  - intros self data r Hrun.
    destruct (Z.lt_ge_cases (size data) 8) as [Hshort | Hlong].
    + unfold LogSegmentCheckpoint.Deserialize in Hrun.
      destruct (Z.ltb_spec (size data) 8); [| lia].
      injection Hrun as <-. split; [reflexivity | reflexivity].
    + rewrite LogSegmentCheckpoint_Deserialize_eq in Hrun by exact Hlong.
      split; [| lia].
      destruct (_ =? 0); [injection Hrun as <-; reflexivity |].
      destruct (negb _); [injection Hrun as <-; reflexivity | discriminate].
  - intros self data r Hrun.
    destruct (Z.lt_ge_cases (size data) 4) as [Hshort | Hlong].
    + unfold LogHeadCheckpoint.Deserialize in Hrun.
      destruct (Z.ltb_spec (size data) 4); [| lia].
      injection Hrun as <-. split; [reflexivity | reflexivity].
    + rewrite LogHeadCheckpoint_Deserialize_eq in Hrun by exact Hlong.
      split; [| lia].
      destruct (_ =? 0); [injection Hrun as <-; reflexivity |].
      destruct (negb _); [injection Hrun as <-; reflexivity | discriminate].
  - intros self data r Hrun.
    destruct (Z.lt_ge_cases (size data) 12) as [Hshort | Hlong].
    + unfold SegmentData.DeserializeSegmentInfo in Hrun.
      destruct (Z.ltb_spec (size data) 12); [| lia].
      injection Hrun as <-. repeat split; reflexivity.
    + rewrite DeserializeSegmentInfo_eq in Hrun by exact Hlong.
      destruct (_ =? 0).
      * injection Hrun as <-. repeat split; try reflexivity; lia.
      * injection Hrun as _ <-. repeat split; try reflexivity; lia.
  - intros self type proof r Hrun.
    destruct (Z.lt_ge_cases (size proof) (signature_offset type)) as [Hshort | Hlong].
    + destruct (AuditProof_Deserialize_short self type proof Hshort)
        as (r' & Hrun' & Hty & _ & Hpath & Hfirst).
      rewrite Hrun' in Hrun. injection Hrun as <-. auto.
    + destruct (AuditProof_Deserialize_run self type proof Hlong)
        as (ok & path & Hrun' & _ & Hpath & _).
      rewrite Hrun' in Hrun. injection Hrun as Hok Hr. subst ok r.
      cbn [AuditProof.audit_path AuditProof.tree_type].
      split; [apply Hpath; reflexivity |]. split; [reflexivity |].
      assert (4 <= signature_offset type)
        by (unfold signature_offset; destruct type; cbn; lia).
      lia.
Qed.

(** The statement above at the truncated checkpoint: the decode fails,
    and the root of the receiver is the one it had. *)
Lemma rejection_leaves_unparsed_fields_witness :
  LogSegmentCheckpoint.Deserialize fresh_LogSegmentCheckpoint truncated_checkpoint
  = Some (false, LogSegmentCheckpoint.mk 1 2 empty_signature [])
  /\ LogSegmentCheckpoint.root (LogSegmentCheckpoint.mk 1 2 empty_signature [])
     = LogSegmentCheckpoint.root fresh_LogSegmentCheckpoint
  /\ DigitallySigned.Deserialize signature_abc [] = Some (false, signature_abc).
Proof.
  destruct rejection_leaves_unparsed_fields as (_ & Hstrict & Hseg & _).
  assert (Hrun : LogSegmentCheckpoint.Deserialize fresh_LogSegmentCheckpoint
                   truncated_checkpoint
                 = Some (false, LogSegmentCheckpoint.mk 1 2 empty_signature []))
    by (vm_compute; reflexivity).
  split; [exact Hrun |]. split.
  - exact (proj1 (Hseg _ _ _ Hrun)).
  - apply Hstrict. reflexivity.
Defined.

(** * Further properties of the codec *)

(** ** Big-endian digits *)

Lemma be_value_from_shift (s : std_string) (a : Z) :
  be_value_from a s = a * 2 ^ (8 * Z.of_nat (length s)) + be_value s.
Proof.
  unfold be_value. revert a. induction s as [| c s IH]; intros a.
  - cbn. lia.
  - unfold be_value_from in *. cbn [fold_left length].
    rewrite (IH (a * 256 + byte.unsigned c)), (IH (0 * 256 + byte.unsigned c)).
    replace (8 * Z.of_nat (S (length s))) with (8 * Z.of_nat (length s) + 8) by lia.
    rewrite Z.pow_add_r by lia. change (2 ^ 8) with 256. lia.
Qed.

Lemma be_value_range (s : std_string) :
  0 <= be_value s < 2 ^ (8 * Z.of_nat (length s)).
Proof.
  induction s as [| c s IH].
  - cbn. lia.
  - unfold be_value, be_value_from. cbn [fold_left]. fold (be_value_from (0 * 256 + byte.unsigned c) s).
    rewrite be_value_from_shift. pose proof (byte.unsigned_range c) as Hc.
    replace (8 * Z.of_nat (length (c :: s))) with (8 * Z.of_nat (length s) + 8)
      by (cbn [length]; lia).
    rewrite Z.pow_add_r by lia. change (2 ^ 8) with 256 in *. nia.
Qed.

(** The [k] low digits of a number do not depend on what lies above them. *)
Lemma be_bytes_low (v a : Z) (k : nat) :
  be_bytes (a * 2 ^ (8 * Z.of_nat k) + v) k = be_bytes v k.
Proof.
  revert a. induction k as [| j IH]; intros a; [reflexivity |].
  cbn [be_bytes]. f_equal.
  - apply byte_of_Z_mod.
    replace (8 * Z.of_nat (S j)) with (8 + 8 * Z.of_nat j) by lia.
    rewrite Z.pow_add_r by lia. change (2 ^ 8) with 256.
    replace (a * (256 * 2 ^ (8 * Z.of_nat j)) + v)
      with (v + (a * 256) * 2 ^ (8 * Z.of_nat j)) by lia.
    rewrite Z.div_add by lia. rewrite Z.mod_add by lia. reflexivity.
  - replace (8 * Z.of_nat (S j)) with (8 + 8 * Z.of_nat j) by lia.
    rewrite Z.pow_add_r by lia. change (2 ^ 8) with 256.
    replace (a * (256 * 2 ^ (8 * Z.of_nat j)) + v)
      with ((a * 256) * 2 ^ (8 * Z.of_nat j) + v) by lia.
    apply IH.
Qed.

(** Writing the unsigned value of a byte string back in as many bytes
    gives the string. *)
Lemma be_bytes_be_value (s : std_string) : be_bytes (be_value s) (length s) = s.
Proof.
  induction s as [| c s IH]; [reflexivity |].
  cbn [length be_bytes].
  assert (Hv : be_value (c :: s)
               = byte.unsigned c * 2 ^ (8 * Z.of_nat (length s)) + be_value s).
  { unfold be_value at 1. unfold be_value_from. cbn [fold_left].
    fold (be_value_from (0 * 256 + byte.unsigned c) s).
    rewrite be_value_from_shift. lia. }
  rewrite Hv. pose proof (be_value_range s) as Hr. f_equal.
  - rewrite Z.add_comm, Z.div_add by lia. rewrite Z.div_small by lia.
    cbn [Z.add]. apply byte.of_Z_unsigned.
  - rewrite be_bytes_low. exact IH.
Qed.

(** Numbers that fit and have the same digits are equal. *)
Lemma be_bytes_inj (v1 v2 : Z) (n : nat) :
  fits n v1 -> fits n v2 -> be_bytes v1 n = be_bytes v2 n -> v1 = v2.
Proof.
  intros [H1 H1'] [H2 H2'] Heq.
  pose proof (be_value_be_bytes v1 n 0) as E1. pose proof (be_value_be_bytes v2 n 0) as E2.
  rewrite Heq in E1. rewrite E1 in E2.
  rewrite !Z.mod_small in E2 by lia. lia.
Qed.

(** What the loop of [DeserializeUint] computes on bytes below 0x80. *)
Lemma uint_fold_plain (s : std_string) :
  plain_bytes s -> (length s <= 8)%nat -> fold_left uint_step s 0 = be_value s.
Proof.
  intros Hp Hlen. pose proof (uint_fold_signed s 0) as H.
  change (to_size_t 0) with 0 in H. rewrite H, signed_value_plain by exact Hp.
  fold (be_value s). apply to_size_t_small.
  pose proof (be_value_range s) as Hr.
  assert (2 ^ (8 * Z.of_nat (length s)) <= 2 ^ 64) by (apply Z.pow_le_mono_r; lia).
  lia.
Qed.

(** ** The assertions of the serializers *)

Lemma SerializeUint_fails (v : Z) (n : nat) :
  (n <= 4)%nat -> ~ fits n v -> SerializeUint v n = None.
Proof.
  intros Hn Hfit. unfold SerializeUint, sizeof_size_t.
  destruct (Z.leb_spec (Z.of_nat n) 8) as [_ | Hgt]; [| lia]. cbn [negb].
  destruct (Z.eqb_spec (Z.of_nat n) 8) as [H8 | _]; [lia |]. cbn [orb].
  destruct (Z.eqb_spec (Z.shiftr v (Z.of_nat n * 8)) 0) as [Hz | _]; [| reflexivity].
  exfalso. apply Hfit. rewrite Z.shiftr_div_pow2 in Hz by lia.
  apply Z.div_small_iff in Hz; [| lia]. unfold fits.
  replace (8 * Z.of_nat n) with (Z.of_nat n * 8) by lia.
  destruct Hz as [Hz | Hz]; [exact Hz |].
  assert (0 < 2 ^ (Z.of_nat n * 8)) by (apply Z.pow_pos_nonneg; lia). lia.
Qed.

(** X1: for a byte count of at most 4, [SerializeUint(v, n)] returns
    exactly when [v < 2^(8n)]; it then returns the [n] low bytes of [v],
    most significant first.  On any other value the second assertion
    fails. *)
Theorem SerializeUint_returns_iff_fits (v : Z) (n : nat) :
  (n <= 4)%nat ->
  (fits n v -> SerializeUint v n = Some (be_bytes v n))
  /\ (~ fits n v -> SerializeUint v n = None)
  /\ (is_Some (SerializeUint v n) <-> fits n v).
Proof.
  intros Hn. split; [| split].
  - intros Hfit. apply SerializeUint_eq; assumption.
  - intros Hfit. apply SerializeUint_fails; assumption.
  - split.
    + intros [bs Hbs]. destruct (Z.lt_ge_cases v 0) as [Hneg | Hpos].
      * rewrite SerializeUint_fails in Hbs; [discriminate | exact Hn |].
        unfold fits. lia.
      * destruct (Z.lt_ge_cases v (2 ^ (8 * Z.of_nat n))) as [Hlt | Hge].
        -- split; assumption.
        -- rewrite SerializeUint_fails in Hbs; [discriminate | exact Hn |].
           unfold fits. lia.
    + intros Hfit. rewrite SerializeUint_eq by assumption. eauto.
Qed.

(** The statement above at two bytes: 0x0102 is written as [01 02], and
    65536 is refused. *)
Lemma SerializeUint_returns_iff_fits_witness :
  SerializeUint 258 2 = Some [Byte.x01; Byte.x02] /\ SerializeUint 65536 2 = None.
Proof.
  destruct (SerializeUint_returns_iff_fits 258 2 ltac:(lia)) as (Hok & _).
  destruct (SerializeUint_returns_iff_fits 65536 2 ltac:(lia)) as (_ & Hfail & _).
  split.
  - rewrite Hok by (unfold fits; simpl; lia). vm_compute. reflexivity.
  - apply Hfail. unfold fits. simpl. lia.
Defined.

(** [SerializeUint] on at most four bytes, by cases on the value. *)
Lemma SerializeUint_cases (v : Z) (n : nat) :
  (n <= 4)%nat ->
  (0 <= v < 2 ^ (8 * Z.of_nat n) /\ SerializeUint v n = Some (be_bytes v n))
  \/ (~ 0 <= v < 2 ^ (8 * Z.of_nat n) /\ SerializeUint v n = None).
Proof.
  intros Hn. destruct (Z.lt_ge_cases v 0) as [Hneg | Hpos].
  - right. split; [lia |]. apply SerializeUint_fails; [exact Hn | unfold fits; lia].
  - destruct (Z.lt_ge_cases v (2 ^ (8 * Z.of_nat n))) as [Hlt | Hge].
    + left. split; [lia |]. apply SerializeUint_eq; [exact Hn | split; assumption].
    + right. split; [lia |]. apply SerializeUint_fails; [exact Hn | unfold fits; lia].
Qed.

(** X3: [DigitallySigned::Serialize] returns exactly when both algorithm
    values, converted to [size_t], are below 256 and the signature has
    fewer than 65536 bytes; otherwise an assertion of [SerializeUint]
    fails.  What it returns is one byte for each algorithm, the signature
    size in two bytes, and the signature itself: 4 bytes more than the
    signature. *)
Theorem DigitallySigned_Serialize_returns_iff (d : DigitallySigned.t) :
  (is_Some (DigitallySigned.Serialize d) <->
   to_size_t (DigitallySigned.hash_algo d) < 256
   /\ to_size_t (DigitallySigned.sig_algo d) < 256
   /\ size (DigitallySigned.sig_string d) < 65536)
  /\ (forall enc, DigitallySigned.Serialize d = Some enc ->
        enc = be_bytes (to_size_t (DigitallySigned.hash_algo d)) 1
              ++ be_bytes (to_size_t (DigitallySigned.sig_algo d)) 1
              ++ be_bytes (size (DigitallySigned.sig_string d)) 2
              ++ DigitallySigned.sig_string d
        /\ size enc = 4 + size (DigitallySigned.sig_string d)).
Proof.
  destruct d as [h s sig]. cbn [DigitallySigned.hash_algo DigitallySigned.sig_algo
    DigitallySigned.sig_string]. unfold DigitallySigned.Serialize.
  cbn [DigitallySigned.hash_algo DigitallySigned.sig_algo DigitallySigned.sig_string].
  pose proof (to_size_t_range h) as Hh. pose proof (to_size_t_range s) as Hs.
  pose proof (size_nonneg sig) as Hsig.
  change (2 ^ (8 * Z.of_nat 1)) with 256 in *.
  destruct (SerializeUint_cases (to_size_t h) 1 ltac:(lia)) as [[H1 ->] | [H1 ->]];
    change (2 ^ (8 * Z.of_nat 1)) with 256 in H1; cbn [mbind option_bind].
  2:{ split; [split; [intros [? [=]] | lia] | intros ? [=]]. }
  destruct (SerializeUint_cases (to_size_t s) 1 ltac:(lia)) as [[H2 ->] | [H2 ->]];
    change (2 ^ (8 * Z.of_nat 1)) with 256 in H2; cbn [mbind option_bind].
  2:{ split; [split; [intros [? [=]] | lia] | intros ? [=]]. }
  destruct (SerializeUint_cases (size sig) 2 ltac:(lia)) as [[H3 ->] | [H3 ->]];
    change (2 ^ (8 * Z.of_nat 2)) with 65536 in H3; cbn [mbind option_bind].
  2:{ split; [split; [intros [? [=]] | lia] | intros ? [=]]. }
  split.
  - split; [lia | eauto].
  - intros enc Henc. apply (inj Some) in Henc. subst enc.
    rewrite <- !app_assoc. split; [reflexivity |].
    rewrite !size_app, !size_be_bytes. lia.
Qed.

(** X4: [Serialize] does not check the algorithm values against their
    enumerations: any value below 256 is written.  When one of them is out
    of range (hash above 6 or signature algorithm above 3), the bytes
    written are rejected by [ReadFromString] and by [Deserialize],
    whatever follows them, and the receiver is left as it was. *)
Theorem DigitallySigned_out_of_range_written_then_rejected
    (d : DigitallySigned.t) :
  0 <= DigitallySigned.hash_algo d < 256 ->
  0 <= DigitallySigned.sig_algo d < 256 ->
  size (DigitallySigned.sig_string d) < 65536 ->
  6 < DigitallySigned.hash_algo d \/ 3 < DigitallySigned.sig_algo d ->
  exists enc,
    DigitallySigned.Serialize d = Some enc
    /\ forall self S,
         DigitallySigned.ReadFromString self (enc ++ S) = Some (0, self)
         /\ DigitallySigned.Deserialize self (enc ++ S) = Some (false, self).
Proof.
  intros Hh Hs Hlen Hbad. destruct d as [h s sig].
  cbn [DigitallySigned.hash_algo DigitallySigned.sig_algo DigitallySigned.sig_string] in *.
  pose proof (size_nonneg sig) as Hsig.
  exists (byte.of_Z h :: byte.of_Z s :: be_bytes (size sig) 2 ++ sig). split.
  - unfold DigitallySigned.Serialize.
    cbn [DigitallySigned.hash_algo DigitallySigned.sig_algo DigitallySigned.sig_string].
    rewrite !to_size_t_small by lia.
    rewrite !SerializeUint_eq by (try lia; unfold fits; simpl; lia).
    rewrite !be_bytes_1. reflexivity.
  - intros self S.
    assert (Hrun : DigitallySigned.ReadFromString self
                     ((byte.of_Z h :: byte.of_Z s :: be_bytes (size sig) 2 ++ sig) ++ S)
                   = Some (0, self)).
    { cbn [app]. apply ReadFromString_rejects_bad_enum.
      rewrite !byte.unsigned_of_Z. unfold byte.wrap. change (2 ^ 8) with 256.
      rewrite !Z.mod_small by lia. exact Hbad. }
    split; [exact Hrun |]. unfold DigitallySigned.Deserialize.
    unfold empty at 1.
    assert (Hne : size ((byte.of_Z h :: byte.of_Z s :: be_bytes (size sig) 2 ++ sig) ++ S)
                  <> 0).
    { rewrite size_app, !size_cons. pose proof (size_nonneg S).
      pose proof (size_nonneg (be_bytes (size sig) 2 ++ sig)). lia. }
    destruct (Z.eqb_spec (size ((byte.of_Z h :: byte.of_Z s :: be_bytes (size sig) 2 ++ sig)
                                ++ S)) 0) as [Hz | _]; [contradiction |].
    rewrite Hrun. cbn [mbind option_bind].
    destruct (Z.eqb_spec 0 (size ((byte.of_Z h :: byte.of_Z s
                                   :: be_bytes (size sig) 2 ++ sig) ++ S)))
      as [Hz | _]; [congruence | reflexivity].
Qed.

(** The statement above at hash algorithm 7: [07 00 00 00] is written and
    then rejected. *)
Lemma DigitallySigned_out_of_range_written_then_rejected_witness :
  exists enc,
    DigitallySigned.Serialize (DigitallySigned.mk 7 0 []) = Some enc
    /\ forall self S,
         DigitallySigned.ReadFromString self (enc ++ S) = Some (0, self)
         /\ DigitallySigned.Deserialize self (enc ++ S) = Some (false, self).
Proof.
  apply (DigitallySigned_out_of_range_written_then_rejected (DigitallySigned.mk 7 0 []));
    cbn [DigitallySigned.hash_algo DigitallySigned.sig_algo DigitallySigned.sig_string];
    try lia.
  vm_compute. reflexivity.
Defined.

(** X5: the encoding of [DigitallySigned] is prefix-free on valid records:
    if the encodings of two valid records, each followed by arbitrary
    bytes, give the same buffer, the records are equal and so are the
    bytes that follow. *)
Theorem DigitallySigned_encoding_prefix_free (d1 d2 : DigitallySigned.t)
    (enc1 enc2 S1 S2 : std_string) :
  valid_DigitallySigned d1 -> valid_DigitallySigned d2 ->
  DigitallySigned.Serialize d1 = Some enc1 ->
  DigitallySigned.Serialize d2 = Some enc2 ->
  enc1 ++ S1 = enc2 ++ S2 ->
  d1 = d2 /\ S1 = S2.
Proof.
  intros Hv1 Hv2 He1 He2 Heq.
  rewrite DigitallySigned_Serialize_eq in He1, He2 by assumption.
  injection He1 as <-. injection He2 as <-.
  destruct Hv1 as (Hh1 & Hs1 & Hl1), Hv2 as (Hh2 & Hs2 & Hl2).
  destruct d1 as [h1 s1 sig1], d2 as [h2 s2 sig2].
  cbn [DigitallySigned.hash_algo DigitallySigned.sig_algo DigitallySigned.sig_string] in *.
  pose proof (size_nonneg sig1). pose proof (size_nonneg sig2).
  cbn [app be_bytes] in Heq. injection Heq as Hh Hs Hb1 Hb0 Hrest.
  assert (Hlen : be_bytes (size sig1) 2 = be_bytes (size sig2) 2)
    by (cbn [be_bytes]; rewrite Hb1, Hb0; reflexivity).
  apply be_bytes_inj in Hlen; [| unfold fits; simpl; lia | unfold fits; simpl; lia].
  apply app_inj_1 in Hrest; [| unfold size in Hlen; lia].
  destruct Hrest as [-> ->].
  apply (f_equal byte.unsigned) in Hh, Hs. rewrite !byte.unsigned_of_Z in Hh, Hs.
  unfold byte.wrap in Hh, Hs. change (2 ^ 8) with 256 in Hh, Hs.
  rewrite !Z.mod_small in Hh, Hs by lia. subst. split; reflexivity.
Qed.

(** The statement above at the encodings of [signature_abc] followed by
    one byte each. *)
Lemma DigitallySigned_encoding_prefix_free_witness :
  signature_abc = signature_abc /\ [Byte.xaa] = [Byte.xaa].
Proof.
  apply (DigitallySigned_encoding_prefix_free signature_abc signature_abc
           [Byte.x04; Byte.x03; Byte.x00; Byte.x03; Byte.x41; Byte.x42; Byte.x43]
           [Byte.x04; Byte.x03; Byte.x00; Byte.x03; Byte.x41; Byte.x42; Byte.x43]
           [Byte.xaa] [Byte.xaa]).
  - unfold valid_DigitallySigned. by_evaluation.
  - unfold valid_DigitallySigned. by_evaluation.
  - vm_compute. reflexivity.
  - vm_compute. reflexivity.
  - reflexivity.
Defined.

(** ** What a successful parse has read *)

(** A prefix parse that consumed something, on a buffer whose two length
    bytes are below 0x80. *)
Lemma ReadFromString_accepts_cons4 (self d : DigitallySigned.t)
    (b0 b1 b2 b3 : byte) (rest : std_string) (n : Z) :
  DigitallySigned.ReadFromString self (b0 :: b1 :: b2 :: b3 :: rest) = Some (n, d) ->
  n <> 0 -> plain_bytes [b2; b3] ->
  byte.unsigned b0 <= 6 /\ byte.unsigned b1 <= 3
  /\ n = 4 + be_value [b2; b3] /\ be_value [b2; b3] <= size rest
  /\ d = DigitallySigned.mk (byte.unsigned b0) (byte.unsigned b1)
           (take (Z.to_nat (be_value [b2; b3])) rest).
Proof.
  intros Hrun Hn Hp. rewrite ReadFromString_cons4, plain_pair_value in Hrun by exact Hp.
  rewrite IsValidHashAlgorithmEnum_byte, IsValidSignatureAlgorithmEnum_byte in Hrun.
  pose proof (be_value_range [b2; b3]) as Hlen. cbn [length] in Hlen.
  change (2 ^ (8 * Z.of_nat 2)) with 65536 in Hlen.
  unfold size_add in Hrun. rewrite to_size_t_small in Hrun by lia.
  destruct (Z.leb_spec (byte.unsigned b0) 6) as [H0 | H0]; cbn [negb orb] in Hrun;
    [| congruence].
  destruct (Z.leb_spec (byte.unsigned b1) 3) as [H1 | H1]; cbn [negb orb] in Hrun;
    [| congruence].
  destruct (Z.ltb_spec (4 + size rest) (4 + be_value [b2; b3])) as [Hl | Hl];
    [congruence |].
  injection Hrun as <- <-. rewrite !size_t_of_char_low by lia.
  repeat split; try reflexivity; lia.
Qed.

(** X6: a strict parse that succeeds has consumed the whole buffer, and
    the buffer has at least 4 bytes: [Deserialize] returns true only when
    [ReadFromString] returns the size of the buffer.  The empty buffer,
    on which [ReadFromString] returns 0, its size, is excluded by the
    first test of [Deserialize]. *)
Theorem DigitallySigned_Deserialize_accepts_whole_buffer
    (self d : DigitallySigned.t) (data : std_string) :
  DigitallySigned.Deserialize self data = Some (true, d) ->
  4 <= size data
  /\ DigitallySigned.ReadFromString self data = Some (size data, d)
  /\ DigitallySigned.Deserialize self [] = Some (false, self)
  /\ DigitallySigned.ReadFromString self [] = Some (size [], self).
Proof.
  intros Hrun. unfold DigitallySigned.Deserialize in Hrun. unfold empty in Hrun.
  destruct (Z.eqb_spec (size data) 0) as [Hz | Hnz]; [discriminate |].
  destruct (ReadFromString_total self data) as (n & d' & Hparse & Hn).
  rewrite Hparse in Hrun. cbn [mbind option_bind] in Hrun.
  destruct (Z.eqb_spec n (size data)) as [-> | Hne]; cbn [negb] in Hrun; [| discriminate].
  injection Hrun as <-. split; [| split; [exact Hparse | split; reflexivity]].
  destruct (Z.lt_ge_cases (size data) 4) as [Hshort | Hlong]; [| exact Hlong].
  rewrite ReadFromString_short in Hparse by exact Hshort. injection Hparse as H0 _. lia.
Qed.

(** The statement above at the 7-byte encoding of [signature_abc]. *)
Lemma DigitallySigned_Deserialize_accepts_whole_buffer_witness :
  DigitallySigned.ReadFromString empty_signature
    [Byte.x04; Byte.x03; Byte.x00; Byte.x03; Byte.x41; Byte.x42; Byte.x43]
  = Some (7, signature_abc).
Proof.
  apply (DigitallySigned_Deserialize_accepts_whole_buffer empty_signature signature_abc
           [Byte.x04; Byte.x03; Byte.x00; Byte.x03; Byte.x41; Byte.x42; Byte.x43]).
  vm_compute. reflexivity.
Defined.

(** The record stored by a prefix parse that consumed something, with
    length bytes below 0x80, is valid and serializes to the bytes
    consumed. *)
Lemma ReadFromString_reencodes_cons4 (self d : DigitallySigned.t)
    (b0 b1 b2 b3 : byte) (rest : std_string) (n : Z) :
  DigitallySigned.ReadFromString self (b0 :: b1 :: b2 :: b3 :: rest) = Some (n, d) ->
  n <> 0 -> plain_bytes [b2; b3] ->
  valid_DigitallySigned d
  /\ DigitallySigned.Serialize d
     = Some (take (Z.to_nat n) (b0 :: b1 :: b2 :: b3 :: rest)).
Proof.
  intros Hrun Hn Hp.
  destruct (ReadFromString_accepts_cons4 self d b0 b1 b2 b3 rest n Hrun Hn Hp)
    as (H0 & H1 & -> & Hfit & ->).
  pose proof (byte.unsigned_range b0) as R0. pose proof (byte.unsigned_range b1) as R1.
  pose proof (be_value_range [b2; b3]) as Hlen. cbn [length] in Hlen.
  change (2 ^ (8 * Z.of_nat 2)) with 65536 in Hlen.
  assert (Hsz : size (take (Z.to_nat (be_value [b2; b3])) rest) = be_value [b2; b3]).
  { unfold size in *. rewrite length_take. lia. }
  assert (Hv : valid_DigitallySigned
                 (DigitallySigned.mk (byte.unsigned b0) (byte.unsigned b1)
                    (take (Z.to_nat (be_value [b2; b3])) rest))).
  { unfold valid_DigitallySigned. cbn [DigitallySigned.hash_algo DigitallySigned.sig_algo
      DigitallySigned.sig_string]. rewrite Hsz. lia. }
  split; [exact Hv |]. rewrite DigitallySigned_Serialize_eq by exact Hv.
  cbn [DigitallySigned.hash_algo DigitallySigned.sig_algo DigitallySigned.sig_string].
  rewrite Hsz, !byte.of_Z_unsigned.
  change 2%nat with (length [b2; b3]) at 1. rewrite be_bytes_be_value.
  replace (Z.to_nat (4 + be_value [b2; b3]))
    with (S (S (S (S (Z.to_nat (be_value [b2; b3])))))) by lia.
  reflexivity.
Qed.

(** The same for the signature embedded at offset [pos] of a buffer. *)
Lemma embedded_signature_reencodes (self : DigitallySigned.t) (data : std_string)
    (pos : Z) :
  signature_consumed self data pos <> 0 ->
  plain_bytes (take 2 (drop 2 (drop (Z.to_nat pos) data))) ->
  valid_DigitallySigned (signature_parsed self data pos)
  /\ DigitallySigned.Serialize (signature_parsed self data pos)
     = Some (take (Z.to_nat (signature_consumed self data pos))
               (drop (Z.to_nat pos) data)).
Proof.
  intros Hn Hp. pose proof (read_signature self data pos) as Hrun.
  destruct (string_cases4 (drop (Z.to_nat pos) data))
    as [Hshort | (b0 & b1 & b2 & b3 & rest & Hdata)].
  { rewrite ReadFromString_short in Hrun by exact Hshort. congruence. }
  rewrite Hdata in *.
  apply (ReadFromString_reencodes_cons4 self _ b0 b1 b2 b3 rest _ Hrun Hn Hp).
Qed.

(** X7: a prefix parse that consumed [n > 0] bytes, on a buffer whose two
    length bytes are below 0x80, stored a valid record whose encoding is
    exactly the [n] bytes consumed: serializing what was parsed gives the
    consumed prefix back. *)
Theorem ReadFromString_then_Serialize (self d : DigitallySigned.t)
    (data : std_string) (n : Z) :
  DigitallySigned.ReadFromString self data = Some (n, d) ->
  n <> 0 ->
  plain_bytes (take 2 (drop 2 data)) ->
  valid_DigitallySigned d
  /\ DigitallySigned.Serialize d = Some (take (Z.to_nat n) data).
Proof.
  intros Hrun Hn Hp.
  destruct (string_cases4 data) as [Hshort | (b0 & b1 & b2 & b3 & rest & ->)].
  - rewrite ReadFromString_short in Hrun by exact Hshort. congruence.
  - change (take 2 (drop 2 (b0 :: b1 :: b2 :: b3 :: rest))) with [b2; b3] in Hp.
    exact (ReadFromString_reencodes_cons4 self d b0 b1 b2 b3 rest n Hrun Hn Hp).
Qed.

(** The statement above at the encoding of [signature_abc] followed by
    two more bytes. *)
Lemma ReadFromString_then_Serialize_witness :
  valid_DigitallySigned signature_abc
  /\ DigitallySigned.Serialize signature_abc
     = Some (take (Z.to_nat 7)
               [Byte.x04; Byte.x03; Byte.x00; Byte.x03; Byte.x41; Byte.x42; Byte.x43;
                Byte.xaa; Byte.xbb]).
Proof.
  apply (ReadFromString_then_Serialize empty_signature signature_abc
           [Byte.x04; Byte.x03; Byte.x00; Byte.x03; Byte.x41; Byte.x42; Byte.x43;
            Byte.xaa; Byte.xbb] 7).
  - vm_compute. reflexivity.
  - lia.
  - by_evaluation.
Defined.

(** ** The receiver of a decode *)

(** The count [ReadFromString] returns does not depend on the receiver,
    and neither does the record it leaves when the count is not 0. *)
Lemma ReadFromString_receiver (s1 s2 d : DigitallySigned.t) (data : std_string)
    (n : Z) :
  DigitallySigned.ReadFromString s1 data = Some (n, d) ->
  exists d', DigitallySigned.ReadFromString s2 data = Some (n, d')
             /\ (n <> 0 -> d' = d).
Proof.
  intros Hrun.
  destruct (string_cases4 data) as [Hshort | (b0 & b1 & b2 & b3 & rest & ->)].
  - rewrite ReadFromString_short in * by exact Hshort. injection Hrun as <- <-.
    exists s2. split; [reflexivity | congruence].
  - rewrite ReadFromString_cons4 in *.
    destruct (negb _ || negb _).
    { injection Hrun as <- <-. exists s2. split; [reflexivity | congruence]. }
    destruct (_ <? _).
    { injection Hrun as <- <-. exists s2. split; [reflexivity | congruence]. }
    injection Hrun as <- <-. eexists. split; reflexivity.
Qed.

Lemma signature_consumed_receiver (s1 s2 : DigitallySigned.t) (data : std_string)
    (pos : Z) :
  signature_consumed s1 data pos = signature_consumed s2 data pos
  /\ (signature_consumed s1 data pos <> 0 ->
      signature_parsed s1 data pos = signature_parsed s2 data pos).
Proof.
  pose proof (read_signature s1 data pos) as H1.
  destruct (ReadFromString_receiver s1 s2 _ _ _ H1) as (d' & H2 & Hd).
  unfold signature_consumed at 2, signature_parsed at 2. rewrite H2.
  split; [reflexivity |]. intros Hn. symmetry. apply Hd, Hn.
Qed.

Lemma strict_parse_receiver (s1 s2 : DigitallySigned.t) (data : std_string)
    (pos : Z) :
  (strict_parse s1 data pos).1 = (strict_parse s2 data pos).1
  /\ ((strict_parse s1 data pos).1 = true ->
      (strict_parse s1 data pos).2 = (strict_parse s2 data pos).2).
Proof.
  unfold strict_parse, DigitallySigned.Deserialize.
  destruct (empty (drop (Z.to_nat pos) data)) eqn:He; [split; [reflexivity | discriminate] |].
  destruct (ReadFromString_total s1 (drop (Z.to_nat pos) data)) as (n & d & H1 & _).
  destruct (ReadFromString_receiver s1 s2 _ _ _ H1) as (d' & H2 & Hd).
  rewrite H1, H2. cbn [mbind option_bind].
  unfold empty in He. apply Z.eqb_neq in He.
  destruct (Z.eqb_spec n (size (drop (Z.to_nat pos) data))) as [Heq | Hne]; cbn [negb fst snd].
  - split; [reflexivity |]. intros _. symmetry. apply Hd. lia.
  - split; [reflexivity | discriminate].
Qed.

(** X8: a successful decode does not depend on the receiver it is written
    into: nothing of the receiver's previous contents survives in the
    result.  This holds for [ReadFromString] (when it consumed something),
    the strict [Deserialize], both checkpoint decoders and
    [AuditProof::Deserialize]; [DeserializeSegmentInfo] gives the same
    record up to the two roots, which it takes from the receiver. *)
Theorem successful_decode_ignores_receiver :
  (forall s1 s2 data n d,
     DigitallySigned.ReadFromString s1 data = Some (n, d) -> n <> 0 ->
     DigitallySigned.ReadFromString s2 data = Some (n, d))
  /\ (forall s1 s2 data d,
        DigitallySigned.Deserialize s1 data = Some (true, d) ->
        DigitallySigned.Deserialize s2 data = Some (true, d))
  /\ (forall s1 s2 data r,
        LogSegmentCheckpoint.Deserialize s1 data = Some (true, r) ->
        LogSegmentCheckpoint.Deserialize s2 data = Some (true, r))
  /\ (forall s1 s2 data r,
        LogHeadCheckpoint.Deserialize s1 data = Some (true, r) ->
        LogHeadCheckpoint.Deserialize s2 data = Some (true, r))
  /\ (forall s1 s2 type proof r,
        AuditProof.Deserialize s1 type proof = Some (true, r) ->
        AuditProof.Deserialize s2 type proof = Some (true, r))
  /\ (forall s1 s2 data r,
        SegmentData.DeserializeSegmentInfo s1 data = Some (true, r) ->
        SegmentData.DeserializeSegmentInfo s2 data = Some (true, with_roots_of s2 r)).
Proof.
  split; [| split; [| split; [| split; [| split]]]].
  - intros s1 s2 data n d Hrun Hn.
    destruct (ReadFromString_receiver s1 s2 d data n Hrun) as (d' & H2 & Hd).
    rewrite H2, (Hd Hn). reflexivity.
  - intros s1 s2 data d Hrun.
    pose proof (strict_parse_receiver s1 s2 data 0) as [Hok Hd].
    pose proof (read_strict s1 data 0) as H1. pose proof (read_strict s2 data 0) as H2.
    change (drop (Z.to_nat 0) data) with data in H1, H2.
    rewrite Hrun in H1. injection H1 as H1. rewrite <- H1 in Hok, Hd.
    cbn [fst snd] in Hok, Hd. rewrite H2.
    destruct (strict_parse s2 data 0) as [ok d']. cbn [fst snd] in Hok, Hd.
    rewrite <- Hok, <- (Hd eq_refl). reflexivity.
  - intros s1 s2 data r Hrun.
    destruct (Z.lt_ge_cases (size data) 8) as [Hshort | Hlong].
    { unfold LogSegmentCheckpoint.Deserialize in Hrun.
      destruct (Z.ltb_spec (size data) 8); [discriminate | lia]. }
    rewrite LogSegmentCheckpoint_Deserialize_eq in Hrun |- * by exact Hlong.
    destruct (signature_consumed_receiver (LogSegmentCheckpoint.signature s1)
                (LogSegmentCheckpoint.signature s2) data 8) as [Hn Hd].
    rewrite <- Hn.
    destruct (Z.eqb_spec (signature_consumed (LogSegmentCheckpoint.signature s1) data 8) 0)
      as [Hz | Hnz]; [discriminate |].
    destruct (negb _); [discriminate |]. rewrite <- (Hd Hnz). exact Hrun.
  - intros s1 s2 data r Hrun.
    destruct (Z.lt_ge_cases (size data) 4) as [Hshort | Hlong].
    { unfold LogHeadCheckpoint.Deserialize in Hrun.
      destruct (Z.ltb_spec (size data) 4); [discriminate | lia]. }
    rewrite LogHeadCheckpoint_Deserialize_eq in Hrun |- * by exact Hlong.
    destruct (signature_consumed_receiver (LogHeadCheckpoint.signature s1)
                (LogHeadCheckpoint.signature s2) data 4) as [Hn Hd].
    rewrite <- Hn.
    destruct (Z.eqb_spec (signature_consumed (LogHeadCheckpoint.signature s1) data 4) 0)
      as [Hz | Hnz]; [discriminate |].
    destruct (negb _); [discriminate |]. rewrite <- (Hd Hnz). exact Hrun.
  - intros s1 s2 type proof r Hrun.
    destruct (Z.lt_ge_cases (size proof) (signature_offset type)) as [Hshort | Hlong].
    { destruct (AuditProof_Deserialize_short s1 type proof Hshort) as (r' & Hr' & _).
      congruence. }
    rewrite AuditProof_Deserialize_eq in Hrun |- * by exact Hlong.
    destruct (signature_consumed_receiver (AuditProof.signature s1)
                (AuditProof.signature s2) proof (signature_offset type)) as [Hn Hd].
    rewrite <- Hn.
    destruct (Z.eqb_spec (signature_consumed (AuditProof.signature s1) proof
                            (signature_offset type)) 0) as [Hz | Hnz]; [discriminate |].
    destruct (negb _); [discriminate |]. rewrite <- (Hd Hnz). exact Hrun.
  - intros s1 s2 data r Hrun.
    destruct (Z.lt_ge_cases (size data) 12) as [Hshort | Hlong].
    { unfold SegmentData.DeserializeSegmentInfo in Hrun.
      destruct (Z.ltb_spec (size data) 12); [discriminate | lia]. }
    rewrite DeserializeSegmentInfo_eq in Hrun |- * by exact Hlong.
    destruct (signature_consumed_receiver
                (LogSegmentCheckpoint.signature (SegmentData.log_segment s1))
                (LogSegmentCheckpoint.signature (SegmentData.log_segment s2)) data 12)
      as [Hn Hd].
    rewrite <- Hn.
    destruct (Z.eqb_spec (signature_consumed
                            (LogSegmentCheckpoint.signature (SegmentData.log_segment s1))
                            data 12) 0) as [Hz | Hnz]; [discriminate |].
    destruct (strict_parse_receiver
                (LogHeadCheckpoint.signature (SegmentData.log_head s1))
                (LogHeadCheckpoint.signature (SegmentData.log_head s2)) data
                (12 + signature_consumed
                        (LogSegmentCheckpoint.signature (SegmentData.log_segment s1))
                        data 12)) as [Hok Hd2].
    injection Hrun as Htrue Hr. rewrite <- Hok, Htrue. rewrite Htrue in Hd2.
    rewrite <- (Hd Hnz), <- (Hd2 eq_refl). subst r. reflexivity.
Qed.

(** X9: no decoder throws or aborts: on every receiver and every buffer,
    each decoder returns.  Every [substr] is called with a position
    inside the buffer, and [DeserializeUint] only with strings of at most 4
    bytes; in particular the count returned by [ReadFromString], which
    callers add to their read position, never exceeds the size of the
    buffer it was given. *)
Theorem decoders_always_return :
  (forall self data, exists n d,
     DigitallySigned.ReadFromString self data = Some (n, d) /\ 0 <= n <= size data)
  /\ (forall self data, exists ok d,
        DigitallySigned.Deserialize self data = Some (ok, d))
  /\ (forall self data, exists ok r,
        LogSegmentCheckpoint.Deserialize self data = Some (ok, r))
  /\ (forall self data, exists ok r,
        LogHeadCheckpoint.Deserialize self data = Some (ok, r))
  /\ (forall self data, exists ok r,
        SegmentData.DeserializeSegmentInfo self data = Some (ok, r))
  /\ (forall self type proof, exists ok r,
        AuditProof.Deserialize self type proof = Some (ok, r)).
Proof.
  split; [| split; [| split; [| split; [| split]]]].
  - intros self data. apply ReadFromString_total.
  - intros self data. apply DigitallySigned_Deserialize_total.
  - intros self data. destruct (Z.lt_ge_cases (size data) 8) as [Hshort | Hlong].
    + unfold LogSegmentCheckpoint.Deserialize.
      destruct (Z.ltb_spec (size data) 8); [eauto | lia].
    + rewrite LogSegmentCheckpoint_Deserialize_eq by exact Hlong.
      destruct (_ =? 0); [eauto |]. destruct (negb _); eauto.
  - intros self data. destruct (Z.lt_ge_cases (size data) 4) as [Hshort | Hlong].
    + unfold LogHeadCheckpoint.Deserialize.
      destruct (Z.ltb_spec (size data) 4); [eauto | lia].
    + rewrite LogHeadCheckpoint_Deserialize_eq by exact Hlong.
      destruct (_ =? 0); [eauto |]. destruct (negb _); eauto.
  - intros self data. destruct (Z.lt_ge_cases (size data) 12) as [Hshort | Hlong].
    + unfold SegmentData.DeserializeSegmentInfo.
      destruct (Z.ltb_spec (size data) 12); [eauto | lia].
    + rewrite DeserializeSegmentInfo_eq by exact Hlong.
      destruct (_ =? 0); eauto.
  - intros self type proof.
    destruct (Z.lt_ge_cases (size proof) (signature_offset type)) as [Hshort | Hlong].
    + destruct (AuditProof_Deserialize_short self type proof Hshort) as (r & Hr & _).
      eauto.
    + destruct (AuditProof_Deserialize_run self type proof Hlong) as (ok & path & Hr & _).
      eauto.
Qed.

(** ** The checkpoint records *)

Lemma DigitallySigned_Serialize_size (d : DigitallySigned.t) (enc : std_string) :
  DigitallySigned.Serialize d = Some enc ->
  size enc = 4 + size (DigitallySigned.sig_string d).
Proof.
  unfold DigitallySigned.Serialize. intros H.
  destruct (SerializeUint_cases (to_size_t (DigitallySigned.hash_algo d)) 1 ltac:(lia))
    as [[_ E1] | [_ E1]]; rewrite E1 in H; cbn [mbind option_bind] in H; [| discriminate].
  destruct (SerializeUint_cases (to_size_t (DigitallySigned.sig_algo d)) 1 ltac:(lia))
    as [[_ E2] | [_ E2]]; rewrite E2 in H; cbn [mbind option_bind] in H; [| discriminate].
  destruct (SerializeUint_cases (size (DigitallySigned.sig_string d)) 2 ltac:(lia))
    as [[_ E3] | [_ E3]]; rewrite E3 in H; cbn [mbind option_bind] in H; [| discriminate].
  apply (inj Some) in H. subst enc. rewrite !size_app, !size_be_bytes. lia.
Qed.

(** X10: [LogSegmentCheckpoint::Serialize] returns exactly when both
    counters are below 2^32, the signature can be serialized and the root
    has 32 bytes; it then writes 44 bytes more than the signature holds.
    [LogHeadCheckpoint::Serialize] returns exactly when its counter is
    below 2^32, the signature can be serialized and the root has 32
    bytes; it then writes 40 bytes more than the signature holds.  In
    every other case an assertion fails. *)
Theorem checkpoint_Serialize_returns_iff :
  (forall c : LogSegmentCheckpoint.t,
     (is_Some (LogSegmentCheckpoint.Serialize c) <->
      fits 4 (LogSegmentCheckpoint.sequence_number c)
      /\ fits 4 (LogSegmentCheckpoint.segment_size c)
      /\ is_Some (DigitallySigned.Serialize (LogSegmentCheckpoint.signature c))
      /\ size (LogSegmentCheckpoint.root c) = 32)
     /\ (forall enc, LogSegmentCheckpoint.Serialize c = Some enc ->
           size enc = 44 + size (DigitallySigned.sig_string
                                   (LogSegmentCheckpoint.signature c))))
  /\ (forall c : LogHeadCheckpoint.t,
        (is_Some (LogHeadCheckpoint.Serialize c) <->
         fits 4 (LogHeadCheckpoint.sequence_number c)
         /\ is_Some (DigitallySigned.Serialize (LogHeadCheckpoint.signature c))
         /\ size (LogHeadCheckpoint.root c) = 32)
        /\ (forall enc, LogHeadCheckpoint.Serialize c = Some enc ->
              size enc = 40 + size (DigitallySigned.sig_string
                                      (LogHeadCheckpoint.signature c)))).
Proof.
  split.
  - intros [seq sz sig root]. unfold LogSegmentCheckpoint.Serialize.
    cbn [LogSegmentCheckpoint.sequence_number LogSegmentCheckpoint.segment_size
         LogSegmentCheckpoint.signature LogSegmentCheckpoint.root].
    destruct (SerializeUint_cases seq 4 ltac:(lia)) as [[H1 ->] | [H1 ->]];
      cbn [mbind option_bind].
    2:{ split; [split; [intros [? [=]] | intros (F & _); destruct (H1 F)] | intros ? [=]]. }
    destruct (SerializeUint_cases sz 4 ltac:(lia)) as [[H2 ->] | [H2 ->]];
      cbn [mbind option_bind].
    2:{ split; [split; [intros [? [=]] | intros (_ & F & _); destruct (H2 F)]
               | intros ? [=]]. }
    destruct (DigitallySigned.Serialize sig) as [enc |] eqn:Hsig; cbn [mbind option_bind].
    2:{ split; [split; [intros [? [=]] | intros (_ & _ & [? [=]] & _)] | intros ? [=]]. }
    destruct (Z.eqb_spec (size root) 32) as [Hroot | Hroot]; cbn [negb].
    2:{ split; [split; [intros [? [=]] | intros (_ & _ & _ & F); contradiction]
               | intros ? [=]]. }
    split.
    + split; [| eauto]. intros _.
      split; [exact H1 | split; [exact H2 | split; [eauto | exact Hroot]]].
    + intros enc' Henc'. apply (inj Some) in Henc'. subst enc'.
      rewrite !size_app, !size_be_bytes, Hroot, (DigitallySigned_Serialize_size _ _ Hsig).
      lia.
  - intros [seq sig root]. unfold LogHeadCheckpoint.Serialize.
    cbn [LogHeadCheckpoint.sequence_number LogHeadCheckpoint.signature
         LogHeadCheckpoint.root].
    destruct (SerializeUint_cases seq 4 ltac:(lia)) as [[H1 ->] | [H1 ->]];
      cbn [mbind option_bind].
    2:{ split; [split; [intros [? [=]] | intros (F & _); destruct (H1 F)] | intros ? [=]]. }
    destruct (DigitallySigned.Serialize sig) as [enc |] eqn:Hsig; cbn [mbind option_bind].
    2:{ split; [split; [intros [? [=]] | intros (_ & [? [=]] & _)] | intros ? [=]]. }
    destruct (Z.eqb_spec (size root) 32) as [Hroot | Hroot]; cbn [negb].
    2:{ split; [split; [intros [? [=]] | intros (_ & _ & F); contradiction]
               | intros ? [=]]. }
    split.
    + split; [| eauto]. intros _.
      split; [exact H1 | split; [eauto | exact Hroot]].
    + intros enc' Henc'. apply (inj Some) in Henc'. subst enc'.
      rewrite !size_app, !size_be_bytes, Hroot, (DigitallySigned_Serialize_size _ _ Hsig).
      lia.
Qed.

(** X11: [LogHeadCheckpoint::Deserialize] fails exactly when the buffer
    has fewer than 4 bytes, or the prefix parse of the signature at offset
    4 consumes 0 bytes, or the bytes left after the consumed signature are
    not exactly 32.  On success the sequence number is what
    [DeserializeUint] reads from bytes 0..3, the signature is the parsed
    one, and the root is the 32 bytes that end the buffer. *)
Theorem LogHeadCheckpoint_Deserialize_fails_iff
    (self : LogHeadCheckpoint.t) (data : std_string) :
  let n := signature_consumed (LogHeadCheckpoint.signature self) data 4 in
  exists ok r,
    LogHeadCheckpoint.Deserialize self data = Some (ok, r)
    /\ (ok = false <->
        size data < 4 \/ n = 0 \/ size data - (4 + n) <> 32)
    /\ (ok = true ->
        LogHeadCheckpoint.sequence_number r = uint_at data 0 4
        /\ LogHeadCheckpoint.signature r
           = signature_parsed (LogHeadCheckpoint.signature self) data 4
        /\ LogHeadCheckpoint.root r = drop (Z.to_nat (size data - 32)) data
        /\ size (LogHeadCheckpoint.root r) = 32).
Proof.
  intros n. destruct (Z.lt_ge_cases (size data) 4) as [Hshort | Hlong].
  - exists false, self. unfold LogHeadCheckpoint.Deserialize.
    destruct (Z.ltb_spec (size data) 4); [| lia].
    split; [reflexivity |]. split; [tauto | discriminate].
  - rewrite LogHeadCheckpoint_Deserialize_eq by exact Hlong. fold n.
    destruct (Z.eqb_spec n 0) as [Hz | Hnz].
    { eexists _, _. split; [reflexivity |]. split; [tauto | discriminate]. }
    destruct (Z.eqb_spec (size data) (4 + n + 32)) as [Heq | Hne]; cbn [negb].
    + eexists _, _. split; [reflexivity |]. split.
      * split; [discriminate | lia].
      * intros _. cbn [LogHeadCheckpoint.sequence_number LogHeadCheckpoint.signature
          LogHeadCheckpoint.root].
        replace (size data - 32) with (4 + n) by lia.
        repeat split; try reflexivity.
        pose proof (signature_consumed_range (LogHeadCheckpoint.signature self)
                      data 4 ltac:(lia)) as Hn. fold n in Hn.
        rewrite size_drop by lia. lia.
    + eexists _, _. split; [reflexivity |]. split; [| discriminate].
      split; [intros _; right; right; lia | reflexivity].
Qed.

(** A counter read from four bytes below 0x80 is written back as those
    four bytes. *)
Lemma uint_field_reencodes (data : std_string) (pos : Z) :
  0 <= pos -> pos + 4 <= size data ->
  plain_bytes (take 4 (drop (Z.to_nat pos) data)) ->
  SerializeUint (uint_at data pos 4) 4 = Some (take 4 (drop (Z.to_nat pos) data)).
Proof.
  intros Hpos Hsz Hp. unfold uint_at. change (Z.to_nat 4) with 4%nat.
  set (s := take 4 (drop (Z.to_nat pos) data)) in *.
  assert (Hlen : length s = 4%nat).
  { unfold s. rewrite length_take, length_drop. unfold size in Hsz. lia. }
  rewrite uint_fold_plain by (exact Hp || lia).
  pose proof (be_value_range s) as Hr. rewrite Hlen in Hr.
  rewrite SerializeUint_eq by (lia || exact Hr).
  rewrite <- Hlen at 1. rewrite be_bytes_be_value. reflexivity.
Qed.

Lemma plain_bytes_take_8 (data : std_string) :
  plain_bytes (take 8 data) ->
  plain_bytes (take 4 data) /\ plain_bytes (take 4 (drop 4 data)).
Proof.
  intros H. change 8%nat with (4 + 4)%nat in H. rewrite <- take_take_drop in H.
  apply Forall_app in H. exact H.
Qed.

(** X12: a buffer accepted by [LogSegmentCheckpoint::Deserialize] whose
    counters and signature length have no byte at or above 0x80 is the
    encoding of the record decoded from it: [Serialize] on the decoded
    record returns the buffer.  The same holds for
    [LogHeadCheckpoint::Deserialize]. *)
Theorem checkpoint_Deserialize_then_Serialize :
  (forall self data r,
     LogSegmentCheckpoint.Deserialize self data = Some (true, r) ->
     plain_bytes (take 8 data) -> plain_bytes (take 2 (drop 10 data)) ->
     LogSegmentCheckpoint.Serialize r = Some data)
  /\ (forall self data r,
        LogHeadCheckpoint.Deserialize self data = Some (true, r) ->
        plain_bytes (take 4 data) -> plain_bytes (take 2 (drop 6 data)) ->
        LogHeadCheckpoint.Serialize r = Some data).
Proof.
  split.
  - intros self data r Hrun Hp8 Hplen.
    destruct (Z.lt_ge_cases (size data) 8) as [Hshort | Hlong].
    { unfold LogSegmentCheckpoint.Deserialize in Hrun.
      destruct (Z.ltb_spec (size data) 8); [discriminate | lia]. }
    rewrite LogSegmentCheckpoint_Deserialize_eq in Hrun by exact Hlong.
    set (sig := LogSegmentCheckpoint.signature self) in *.
    set (n := signature_consumed sig data 8) in *.
    pose proof (signature_consumed_range sig data 8 ltac:(lia)) as Hn. fold n in Hn.
    destruct (Z.eqb_spec n 0) as [Hz | Hnz]; [discriminate |].
    destruct (Z.eqb_spec (size data) (8 + n + 32)) as [Hsz | Hsz]; cbn [negb] in Hrun;
      [| discriminate].
    injection Hrun as <-. destruct (plain_bytes_take_8 data Hp8) as [Hp0 Hp4].
    destruct (embedded_signature_reencodes sig data 8 Hnz) as [_ Hsig].
    { rewrite drop_drop. exact Hplen. }
    fold n in Hsig. unfold LogSegmentCheckpoint.Serialize.
    cbn [LogSegmentCheckpoint.sequence_number LogSegmentCheckpoint.segment_size
         LogSegmentCheckpoint.signature LogSegmentCheckpoint.root].
    rewrite (uint_field_reencodes data 0), (uint_field_reencodes data 4)
      by (exact Hp0 || exact Hp4 || lia).
    cbn [mbind option_bind]. rewrite Hsig. cbn [mbind option_bind].
    rewrite size_drop by lia. rewrite Z2Nat.id by lia.
    destruct (Z.eqb_spec (size data - (8 + n)) 32); [| lia]. cbn [negb]. f_equal.
    change (Z.to_nat 0) with 0%nat. change (Z.to_nat 4) with 4%nat.
    change (Z.to_nat 8) with 8%nat. cbn [drop].
    replace (Z.to_nat (8 + n)) with (8 + Z.to_nat n)%nat by lia.
    rewrite <- (drop_drop data (Z.to_nat n) 8). rewrite <- !app_assoc.
    rewrite take_drop. change 8%nat with (4 + 4)%nat. rewrite <- (drop_drop data 4 4).
    rewrite take_drop. apply take_drop.
  - intros self data r Hrun Hp4 Hplen.
    destruct (Z.lt_ge_cases (size data) 4) as [Hshort | Hlong].
    { unfold LogHeadCheckpoint.Deserialize in Hrun.
      destruct (Z.ltb_spec (size data) 4); [discriminate | lia]. }
    rewrite LogHeadCheckpoint_Deserialize_eq in Hrun by exact Hlong.
    set (sig := LogHeadCheckpoint.signature self) in *.
    set (n := signature_consumed sig data 4) in *.
    pose proof (signature_consumed_range sig data 4 ltac:(lia)) as Hn. fold n in Hn.
    destruct (Z.eqb_spec n 0) as [Hz | Hnz]; [discriminate |].
    destruct (Z.eqb_spec (size data) (4 + n + 32)) as [Hsz | Hsz]; cbn [negb] in Hrun;
      [| discriminate].
    injection Hrun as <-.
    destruct (embedded_signature_reencodes sig data 4 Hnz) as [_ Hsig].
    { rewrite drop_drop. exact Hplen. }
    fold n in Hsig. unfold LogHeadCheckpoint.Serialize.
    cbn [LogHeadCheckpoint.sequence_number LogHeadCheckpoint.signature
         LogHeadCheckpoint.root].
    rewrite (uint_field_reencodes data 0) by (exact Hp4 || lia).
    cbn [mbind option_bind]. rewrite Hsig. cbn [mbind option_bind].
    rewrite size_drop by lia. rewrite Z2Nat.id by lia.
    destruct (Z.eqb_spec (size data - (4 + n)) 32); [| lia]. cbn [negb]. f_equal.
    change (Z.to_nat 0) with 0%nat. change (Z.to_nat 4) with 4%nat. cbn [drop].
    replace (Z.to_nat (4 + n)) with (4 + Z.to_nat n)%nat by lia.
    rewrite <- (drop_drop data (Z.to_nat n) 4). rewrite <- !app_assoc.
    rewrite take_drop. apply take_drop.
Qed.

(** The statement above at the 44-byte head checkpoint of the
    specification's third scenario. *)
Lemma checkpoint_Deserialize_then_Serialize_witness :
  LogHeadCheckpoint.Serialize head_checkpoint_7
  = Some ([Byte.x00; Byte.x00; Byte.x00; Byte.x07; Byte.x01; Byte.x01; Byte.x00; Byte.x00]
          ++ zeros 32).
Proof.
  apply (proj2 checkpoint_Deserialize_then_Serialize fresh_LogHeadCheckpoint
           ([Byte.x00; Byte.x00; Byte.x00; Byte.x07; Byte.x01; Byte.x01; Byte.x00; Byte.x00]
            ++ zeros 32) head_checkpoint_7).
  - vm_compute. reflexivity.
  - by_evaluation.
  - by_evaluation.
Defined.

(** ** Tree data *)

Lemma LogSegmentCheckpoint_SerializeTreeData_inv (tag : Z)
    (c : LogSegmentCheckpoint.t) (e : std_string) :
  LogSegmentCheckpoint.SerializeTreeData tag c = Some e ->
  fits 4 (LogSegmentCheckpoint.sequence_number c)
  /\ fits 4 (LogSegmentCheckpoint.segment_size c)
  /\ size (LogSegmentCheckpoint.root c) = 32
  /\ e = be_bytes (to_size_t tag) 1
         ++ be_bytes (LogSegmentCheckpoint.sequence_number c) 4
         ++ be_bytes (LogSegmentCheckpoint.segment_size c) 4
         ++ LogSegmentCheckpoint.root c.
Proof.
  unfold LogSegmentCheckpoint.SerializeTreeData. intros H.
  destruct (SerializeUint_cases (to_size_t tag) 1 ltac:(lia)) as [[_ E0] | [_ E0]];
    rewrite E0 in H; cbn [mbind option_bind] in H; [| discriminate].
  destruct (SerializeUint_cases (LogSegmentCheckpoint.sequence_number c) 4 ltac:(lia))
    as [[F1 E1] | [_ E1]]; rewrite E1 in H; cbn [mbind option_bind] in H; [| discriminate].
  destruct (SerializeUint_cases (LogSegmentCheckpoint.segment_size c) 4 ltac:(lia))
    as [[F2 E2] | [_ E2]]; rewrite E2 in H; cbn [mbind option_bind] in H; [| discriminate].
  destruct (Z.eqb_spec (size (LogSegmentCheckpoint.root c)) 32) as [Hroot | Hroot];
    cbn [negb] in H; [| discriminate].
  apply (inj Some) in H. subst e. rewrite <- !app_assoc.
  split; [exact F1 | split; [exact F2 | split; [exact Hroot | reflexivity]]].
Qed.

Lemma LogHeadCheckpoint_SerializeTreeData_inv (tag : Z)
    (c : LogHeadCheckpoint.t) (e : std_string) :
  LogHeadCheckpoint.SerializeTreeData tag c = Some e ->
  fits 4 (LogHeadCheckpoint.sequence_number c)
  /\ size (LogHeadCheckpoint.root c) = 32
  /\ e = be_bytes (to_size_t tag) 1
         ++ be_bytes (LogHeadCheckpoint.sequence_number c) 4
         ++ LogHeadCheckpoint.root c.
Proof.
  unfold LogHeadCheckpoint.SerializeTreeData. intros H.
  destruct (SerializeUint_cases (to_size_t tag) 1 ltac:(lia)) as [[_ E0] | [_ E0]];
    rewrite E0 in H; cbn [mbind option_bind] in H; [| discriminate].
  destruct (SerializeUint_cases (LogHeadCheckpoint.sequence_number c) 4 ltac:(lia))
    as [[F1 E1] | [_ E1]]; rewrite E1 in H; cbn [mbind option_bind] in H; [| discriminate].
  destruct (Z.eqb_spec (size (LogHeadCheckpoint.root c)) 32) as [Hroot | Hroot];
    cbn [negb] in H; [| discriminate].
  apply (inj Some) in H. subst e. rewrite <- !app_assoc.
  split; [exact F1 | split; [exact Hroot | reflexivity]].
Qed.

(** X13: the tree data of a segment checkpoint has 41 bytes and the tree
    data of a head checkpoint has 37, whatever integers the two tree-type
    enumerators stand for: the two forms that get signed can never be the
    same byte string, even if the enumerators had the same value. *)
Theorem tree_data_forms_differ (LOG_SEGMENT_TREE SEGMENT_INFO_TREE : Z)
    (c : LogSegmentCheckpoint.t) (h : LogHeadCheckpoint.t) (e1 e2 : std_string) :
  LogSegmentCheckpoint.SerializeTreeData LOG_SEGMENT_TREE c = Some e1 ->
  LogHeadCheckpoint.SerializeTreeData SEGMENT_INFO_TREE h = Some e2 ->
  size e1 = 41 /\ size e2 = 37 /\ e1 <> e2.
Proof.
  intros H1 H2.
  destruct (LogSegmentCheckpoint_SerializeTreeData_inv _ _ _ H1) as (_ & _ & R1 & ->).
  destruct (LogHeadCheckpoint_SerializeTreeData_inv _ _ _ H2) as (_ & R2 & ->).
  assert (S1 : size (be_bytes (to_size_t LOG_SEGMENT_TREE) 1
                     ++ be_bytes (LogSegmentCheckpoint.sequence_number c) 4
                     ++ be_bytes (LogSegmentCheckpoint.segment_size c) 4
                     ++ LogSegmentCheckpoint.root c) = 41)
    by (rewrite !size_app, !size_be_bytes, R1; reflexivity).
  assert (S2 : size (be_bytes (to_size_t SEGMENT_INFO_TREE) 1
                     ++ be_bytes (LogHeadCheckpoint.sequence_number h) 4
                     ++ LogHeadCheckpoint.root h) = 37)
    by (rewrite !size_app, !size_be_bytes, R2; reflexivity).
  split; [exact S1 |]. split; [exact S2 |].
  intros Heq. rewrite Heq in S1. lia.
Qed.

(** The statement above at the two checkpoints with sequence number 7,
    with the enumerators numbered 0 and 1. *)
Lemma tree_data_forms_differ_witness :
  exists e1 e2,
    LogSegmentCheckpoint.SerializeTreeData 0 segment_checkpoint_7 = Some e1
    /\ LogHeadCheckpoint.SerializeTreeData 1 head_checkpoint_7 = Some e2
    /\ size e1 = 41 /\ size e2 = 37 /\ e1 <> e2.
Proof.
  eexists _, _. split; [vm_compute; reflexivity |]. split; [vm_compute; reflexivity |].
  eapply (tree_data_forms_differ 0 1 segment_checkpoint_7 head_checkpoint_7);
    vm_compute; reflexivity.
Defined.

(** X14: the tree data covers the counters and the root, and nothing else:
    two segment checkpoints have the same tree data exactly when they have
    the same sequence number, segment size and root, whatever their
    signatures are; two head checkpoints, exactly when they have the same
    sequence number and root. *)
Theorem tree_data_determines_signed_fields (tag : Z) :
  (forall (c1 c2 : LogSegmentCheckpoint.t) e1 e2,
     LogSegmentCheckpoint.SerializeTreeData tag c1 = Some e1 ->
     LogSegmentCheckpoint.SerializeTreeData tag c2 = Some e2 ->
     (e1 = e2 <->
      LogSegmentCheckpoint.sequence_number c1 = LogSegmentCheckpoint.sequence_number c2
      /\ LogSegmentCheckpoint.segment_size c1 = LogSegmentCheckpoint.segment_size c2
      /\ LogSegmentCheckpoint.root c1 = LogSegmentCheckpoint.root c2))
  /\ (forall (c1 c2 : LogHeadCheckpoint.t) e1 e2,
        LogHeadCheckpoint.SerializeTreeData tag c1 = Some e1 ->
        LogHeadCheckpoint.SerializeTreeData tag c2 = Some e2 ->
        (e1 = e2 <->
         LogHeadCheckpoint.sequence_number c1 = LogHeadCheckpoint.sequence_number c2
         /\ LogHeadCheckpoint.root c1 = LogHeadCheckpoint.root c2)).
Proof.
  split.
  - intros c1 c2 e1 e2 H1 H2.
    destruct (LogSegmentCheckpoint_SerializeTreeData_inv _ _ _ H1) as (F1 & G1 & R1 & ->).
    destruct (LogSegmentCheckpoint_SerializeTreeData_inv _ _ _ H2) as (F2 & G2 & R2 & ->).
    split.
    + intros Heq. apply app_inj_1 in Heq; [| rewrite !length_be_bytes; reflexivity].
      destruct Heq as [_ Heq].
      apply app_inj_1 in Heq; [| rewrite !length_be_bytes; reflexivity].
      destruct Heq as [Hseq Heq].
      apply app_inj_1 in Heq; [| rewrite !length_be_bytes; reflexivity].
      destruct Heq as [Hsz Hroot].
      split; [apply (be_bytes_inj _ _ 4); assumption |].
      split; [apply (be_bytes_inj _ _ 4); assumption | exact Hroot].
    + intros (-> & -> & ->). reflexivity.
  - intros c1 c2 e1 e2 H1 H2.
    destruct (LogHeadCheckpoint_SerializeTreeData_inv _ _ _ H1) as (F1 & R1 & ->).
    destruct (LogHeadCheckpoint_SerializeTreeData_inv _ _ _ H2) as (F2 & R2 & ->).
    split.
    + intros Heq. apply app_inj_1 in Heq; [| rewrite !length_be_bytes; reflexivity].
      destruct Heq as [_ Heq].
      apply app_inj_1 in Heq; [| rewrite !length_be_bytes; reflexivity].
      destruct Heq as [Hseq Hroot].
      split; [apply (be_bytes_inj _ _ 4); assumption | exact Hroot].
    + intros (-> & ->). reflexivity.
Qed.

(** ** Segment data and audit proofs *)

(** X15: [SerializeSegmentInfo] returns exactly when the two sequence
    numbers are equal, the sequence number, the timestamp and the segment
    size are below 2^32, and both signatures can be serialized; the roots
    are neither written nor checked.  It then writes 20 bytes more than
    the two signatures hold. *)
Theorem SerializeSegmentInfo_returns_iff (d : SegmentData.t) :
  let seg := SegmentData.log_segment d in
  let head := SegmentData.log_head d in
  (is_Some (SegmentData.SerializeSegmentInfo d) <->
   LogSegmentCheckpoint.sequence_number seg = LogHeadCheckpoint.sequence_number head
   /\ fits 4 (LogSegmentCheckpoint.sequence_number seg)
   /\ fits 4 (SegmentData.timestamp d)
   /\ fits 4 (LogSegmentCheckpoint.segment_size seg)
   /\ is_Some (DigitallySigned.Serialize (LogSegmentCheckpoint.signature seg))
   /\ is_Some (DigitallySigned.Serialize (LogHeadCheckpoint.signature head)))
  /\ (forall enc, SegmentData.SerializeSegmentInfo d = Some enc ->
        size enc
        = 20 + size (DigitallySigned.sig_string (LogSegmentCheckpoint.signature seg))
          + size (DigitallySigned.sig_string (LogHeadCheckpoint.signature head))).
Proof.
  destruct d as [[seq sz sig1 root1] [seq' sig2 root2] ts].
  cbn [SegmentData.log_segment SegmentData.log_head SegmentData.timestamp
       LogSegmentCheckpoint.sequence_number LogSegmentCheckpoint.segment_size
       LogSegmentCheckpoint.signature LogHeadCheckpoint.sequence_number
       LogHeadCheckpoint.signature].
  unfold SegmentData.SerializeSegmentInfo.
  cbn [SegmentData.log_segment SegmentData.log_head SegmentData.timestamp
       LogSegmentCheckpoint.sequence_number LogSegmentCheckpoint.segment_size
       LogSegmentCheckpoint.signature LogHeadCheckpoint.sequence_number
       LogHeadCheckpoint.signature].
  destruct (Z.eqb_spec seq seq') as [Heq | Hne]; cbn [negb].
  2:{ split; [split; [intros [? [=]] | intros (F & _); contradiction] | intros ? [=]]. }
  destruct (SerializeUint_cases seq 4 ltac:(lia)) as [[H1 ->] | [H1 ->]];
    cbn [mbind option_bind].
  2:{ split; [split; [intros [? [=]] | intros (_ & F & _); destruct (H1 F)]
             | intros ? [=]]. }
  destruct (SerializeUint_cases ts 4 ltac:(lia)) as [[H2 ->] | [H2 ->]];
    cbn [mbind option_bind].
  2:{ split; [split; [intros [? [=]] | intros (_ & _ & F & _); destruct (H2 F)]
             | intros ? [=]]. }
  destruct (SerializeUint_cases sz 4 ltac:(lia)) as [[H3 ->] | [H3 ->]];
    cbn [mbind option_bind].
  2:{ split; [split; [intros [? [=]] | intros (_ & _ & _ & F & _); destruct (H3 F)]
             | intros ? [=]]. }
  destruct (DigitallySigned.Serialize sig1) as [enc1 |] eqn:Hs1; cbn [mbind option_bind].
  2:{ split; [split; [intros [? [=]] | intros (_ & _ & _ & _ & [? [=]] & _)]
             | intros ? [=]]. }
  destruct (DigitallySigned.Serialize sig2) as [enc2 |] eqn:Hs2; cbn [mbind option_bind].
  2:{ split; [split; [intros [? [=]] | intros (_ & _ & _ & _ & _ & [? [=]])]
             | intros ? [=]]. }
  split.
  - split; [| eauto]. intros _.
    split; [exact Heq |]. split; [exact H1 |]. split; [exact H2 |].
    split; [exact H3 |]. split; eauto.
  - intros enc Henc. apply (inj Some) in Henc. subst enc.
    rewrite !size_app, !size_be_bytes, (DigitallySigned_Serialize_size _ _ Hs1),
      (DigitallySigned_Serialize_size _ _ Hs2). lia.
Qed.

Lemma Serialize_path_cases (path : list std_string) (acc : std_string) :
  (Forall hash32 path /\ AuditProof.Serialize_path path acc = Some (acc ++ concat path))
  \/ (~ Forall hash32 path /\ AuditProof.Serialize_path path acc = None).
Proof.
  revert acc. induction path as [| node path IH]; intros acc.
  - left. split; [constructor |]. cbn. rewrite app_nil_r. reflexivity.
  - cbn [AuditProof.Serialize_path].
    destruct (Z.eqb_spec (size node) 32) as [Hnode | Hnode]; cbn [negb].
    + destruct (IH (acc ++ node)) as [[Hall ->] | [Hall ->]].
      * left. split; [constructor; assumption |]. cbn [concat].
        rewrite <- app_assoc. reflexivity.
      * right. split; [| reflexivity]. intros H. inversion H. contradiction.
    + right. split; [| reflexivity]. intros H. inversion H. contradiction.
Qed.

(** X16: [AuditProof::Serialize] returns exactly when the sequence number
    and the leaf index are below 2^32, the signature can be serialized,
    every node of the path has 32 bytes and, on the log-segment tree only,
    the tree size is below 2^32: on the segment-info tree the tree size is
    neither written nor checked.  The encoding has 8 bytes (12 on the
    log-segment tree) for the counters, 4 more than the signature holds,
    and 32 for each node of the path. *)
Theorem AuditProof_Serialize_returns_iff (p : AuditProof.t) :
  (is_Some (AuditProof.Serialize p) <->
   fits 4 (AuditProof.sequence_number p)
   /\ (AuditProof.tree_type p = SegmentData.LOG_SEGMENT_TREE ->
       fits 4 (AuditProof.tree_size p))
   /\ fits 4 (AuditProof.leaf_index p)
   /\ is_Some (DigitallySigned.Serialize (AuditProof.signature p))
   /\ Forall hash32 (AuditProof.audit_path p))
  /\ (forall enc, AuditProof.Serialize p = Some enc ->
        size enc
        = signature_offset (AuditProof.tree_type p) + 4
          + size (DigitallySigned.sig_string (AuditProof.signature p))
          + 32 * Z.of_nat (length (AuditProof.audit_path p))).
Proof.
  destruct p as [ty seq ts li sig path].
  cbn [AuditProof.tree_type AuditProof.sequence_number AuditProof.tree_size
       AuditProof.leaf_index AuditProof.signature AuditProof.audit_path].
  unfold AuditProof.Serialize.
  cbn [AuditProof.tree_type AuditProof.sequence_number AuditProof.tree_size
       AuditProof.leaf_index AuditProof.signature AuditProof.audit_path].
  destruct (SerializeUint_cases seq 4 ltac:(lia)) as [[H1 ->] | [H1 ->]];
    cbn [mbind option_bind].
  2:{ split; [split; [intros [? [=]] | intros (F & _); destruct (H1 F)] | intros ? [=]]. }
  assert (Htail : forall pre : std_string,
            (is_Some (li' ← SerializeUint li 4;
                      sig' ← DigitallySigned.Serialize sig;
                      AuditProof.Serialize_path path ((pre ++ li') ++ sig')) <->
             fits 4 li /\ is_Some (DigitallySigned.Serialize sig) /\ Forall hash32 path)
            /\ (forall enc,
                  (li' ← SerializeUint li 4;
                   sig' ← DigitallySigned.Serialize sig;
                   AuditProof.Serialize_path path ((pre ++ li') ++ sig')) = Some enc ->
                  size enc = size pre + 8 + size (DigitallySigned.sig_string sig)
                             + 32 * Z.of_nat (length path))).
  { intros pre.
    destruct (SerializeUint_cases li 4 ltac:(lia)) as [[H3 ->] | [H3 ->]];
      cbn [mbind option_bind].
    2:{ split; [split; [intros [? [=]] | intros (F & _); destruct (H3 F)] | intros ? [=]]. }
    destruct (DigitallySigned.Serialize sig) as [enc1 |] eqn:Hs; cbn [mbind option_bind].
    2:{ split; [split; [intros [? [=]] | intros (_ & [? [=]] & _)] | intros ? [=]]. }
    destruct (Serialize_path_cases path ((pre ++ be_bytes li 4) ++ enc1))
      as [[Hall ->] | [Hall ->]].
    2:{ split; [split; [intros [? [=]] | intros (_ & _ & F); contradiction]
               | intros ? [=]]. }
    split.
    - split; [| eauto]. intros _. split; [exact H3 |]. split; [eauto | exact Hall].
    - intros enc Henc. apply (inj Some) in Henc. subst enc.
      rewrite !size_app, !size_be_bytes, (DigitallySigned_Serialize_size _ _ Hs),
        (size_concat_hash32 _ Hall). lia. }
  destruct ty; cbn [AuditProof.is_log_segment_tree signature_offset].
  - destruct (SerializeUint_cases ts 4 ltac:(lia)) as [[H2 ->] | [H2 ->]];
      cbn [mbind option_bind].
    2:{ split; [split; [intros [? [=]] | intros (_ & F & _); destruct (H2 (F eq_refl))]
               | intros ? [=]]. }
    destruct (Htail (be_bytes seq 4 ++ be_bytes ts 4)) as [Hiff Hsize]. split.
    + rewrite Hiff. split.
      * intros (A & B & C). split; [exact H1 |]. split; [intros _; exact H2 |].
        split; [exact A | split; [exact B | exact C]].
      * intros (_ & _ & A & B & C). split; [exact A | split; [exact B | exact C]].
    + intros enc Henc. rewrite (Hsize enc Henc), !size_app, !size_be_bytes. lia.
  - destruct (Htail (be_bytes seq 4)) as [Hiff Hsize]. split.
    + rewrite Hiff. split.
      * intros (A & B & C). split; [exact H1 |]. split; [intros [=] |].
        split; [exact A | split; [exact B | exact C]].
      * intros (_ & _ & A & B & C). split; [exact A | split; [exact B | exact C]].
    + intros enc Henc. rewrite (Hsize enc Henc), !size_be_bytes. lia.
Qed.

(** X17: a buffer accepted by [AuditProof::Deserialize] whose counters
    and signature length have no byte at or above 0x80 is the encoding of
    the proof decoded from it: [Serialize] on the decoded proof returns
    the buffer, for either tree type. *)
Theorem AuditProof_Deserialize_then_Serialize (self r : AuditProof.t)
    (type : SegmentData.TreeType) (proof : std_string) :
  AuditProof.Deserialize self type proof = Some (true, r) ->
  plain_bytes (take (Z.to_nat (signature_offset type)) proof) ->
  plain_bytes (take 2 (drop (Z.to_nat (signature_offset type + 2)) proof)) ->
  AuditProof.Serialize r = Some proof.
Proof.
  intros Hrun Hp Hplen.
  destruct (Z.lt_ge_cases (size proof) (signature_offset type)) as [Hshort | Hlong].
  { destruct (AuditProof_Deserialize_short self type proof Hshort) as (r' & Hr' & _).
    congruence. }
  pose proof (AuditProof_Deserialize_run self type proof Hlong) as H. cbv zeta in H.
  destruct H as (ok & path & Heq & Hok & _ & Hpath).
  rewrite Heq in Hrun. injection Hrun as Hok' Hr. subst ok r.
  destruct (Hpath eq_refl) as [Hcat Hall]. destruct Hok as [Hok _].
  destruct (Hok eq_refl) as [Hnz Hmod]. clear Hok Hpath Heq.
  set (sig := AuditProof.signature self) in *.
  pose proof (signature_consumed_range sig proof (signature_offset type)) as Hn.
  destruct (embedded_signature_reencodes sig proof (signature_offset type) Hnz)
    as [_ Hsig].
  { rewrite drop_drop.
    replace (Z.to_nat (signature_offset type) + 2)%nat
      with (Z.to_nat (signature_offset type + 2)); [exact Hplen |].
    destruct type; reflexivity. }
  set (n := signature_consumed sig proof (signature_offset type)) in *.
  unfold AuditProof.Serialize.
  cbn [AuditProof.tree_type AuditProof.sequence_number AuditProof.tree_size
       AuditProof.leaf_index AuditProof.signature AuditProof.audit_path].
  destruct type; cbn [signature_offset AuditProof.is_log_segment_tree] in *.
  - specialize (Hn ltac:(lia)).
    change (Z.to_nat 12) with (4 + (4 + 4))%nat in Hp.
    rewrite <- take_take_drop in Hp. apply Forall_app in Hp. destruct Hp as [Hp0 Hp].
    rewrite <- take_take_drop in Hp. apply Forall_app in Hp. destruct Hp as [Hp4 Hp8].
    rewrite drop_drop in Hp8. change (12 - 4) with 8.
    rewrite (uint_field_reencodes proof 0), (uint_field_reencodes proof 4),
      (uint_field_reencodes proof 8) by (exact Hp0 || exact Hp4 || exact Hp8 || lia).
    cbn [mbind option_bind]. rewrite Hsig. cbn [mbind option_bind].
    rewrite Serialize_path_eq by exact Hall. rewrite Hcat. f_equal.
    change (Z.to_nat 0) with 0%nat. change (Z.to_nat 4) with 4%nat.
    change (Z.to_nat 8) with 8%nat. change (Z.to_nat 12) with 12%nat. cbn [drop].
    replace (Z.to_nat (12 + n)) with (12 + Z.to_nat n)%nat by lia.
    rewrite <- (drop_drop proof (Z.to_nat n) 12). rewrite <- !app_assoc.
    rewrite take_drop. change 12%nat with (8 + 4)%nat.
    rewrite <- (drop_drop proof 4 8). rewrite take_drop.
    change 8%nat with (4 + 4)%nat. rewrite <- (drop_drop proof 4 4).
    rewrite take_drop. apply take_drop.
  - specialize (Hn ltac:(lia)).
    change (Z.to_nat 8) with (4 + 4)%nat in Hp.
    rewrite <- take_take_drop in Hp. apply Forall_app in Hp. destruct Hp as [Hp0 Hp4].
    change (8 - 4) with 4.
    rewrite (uint_field_reencodes proof 0), (uint_field_reencodes proof 4)
      by (exact Hp0 || exact Hp4 || lia).
    cbn [mbind option_bind]. rewrite Hsig. cbn [mbind option_bind].
    rewrite Serialize_path_eq by exact Hall. rewrite Hcat. f_equal.
    change (Z.to_nat 0) with 0%nat. change (Z.to_nat 4) with 4%nat.
    change (Z.to_nat 8) with 8%nat. cbn [drop].
    replace (Z.to_nat (8 + n)) with (8 + Z.to_nat n)%nat by lia.
    rewrite <- (drop_drop proof (Z.to_nat n) 8). rewrite <- !app_assoc.
    rewrite take_drop. change 8%nat with (4 + 4)%nat.
    rewrite <- (drop_drop proof 4 4). rewrite take_drop. apply take_drop.
Qed.

(** The statement above at the 16-byte log-segment proof of the
    specification's fifth scenario. *)
Lemma AuditProof_Deserialize_then_Serialize_witness :
  AuditProof.Serialize log_segment_proof
  = Some [Byte.x00; Byte.x00; Byte.x00; Byte.x05; Byte.x00; Byte.x00; Byte.x00; Byte.x09;
          Byte.x00; Byte.x00; Byte.x00; Byte.x03; Byte.x00; Byte.x00; Byte.x00; Byte.x00].
Proof.
  apply (AuditProof_Deserialize_then_Serialize fresh_AuditProof log_segment_proof
           SegmentData.LOG_SEGMENT_TREE).
  - vm_compute. reflexivity.
  - by_evaluation.
  - by_evaluation.
Defined.

(** A strict parse that succeeded consumed everything from [pos] on, and
    stored what the prefix parse stores. *)
Lemma strict_parse_accepts (self : DigitallySigned.t) (data : std_string) (pos : Z) :
  (strict_parse self data pos).1 = true ->
  signature_consumed self data pos = size (drop (Z.to_nat pos) data)
  /\ signature_consumed self data pos <> 0
  /\ (strict_parse self data pos).2 = signature_parsed self data pos.
Proof.
  unfold strict_parse, signature_consumed, signature_parsed, DigitallySigned.Deserialize.
  set (rest := drop (Z.to_nat pos) data). unfold empty.
  destruct (Z.eqb_spec (size rest) 0) as [Hz | Hnz]; [discriminate |].
  destruct (ReadFromString_total self rest) as (n & d & -> & _).
  cbn [mbind option_bind].
  destruct (Z.eqb_spec n (size rest)) as [-> | Hne]; cbn [negb fst snd];
    [| discriminate].
  intros _. split; [reflexivity | split; [exact Hnz | reflexivity]].
Qed.

(** X18: a buffer accepted by [DeserializeSegmentInfo] whose three
    counters and two signature lengths have no byte at or above 0x80 is
    the encoding of the record decoded from it: [SerializeSegmentInfo] on
    the decoded record returns the buffer.  The decoder stores the one
    sequence number in both checkpoints, so the assertion of the encoder
    that they are equal holds. *)
Theorem DeserializeSegmentInfo_then_Serialize (self r : SegmentData.t)
    (data : std_string) :
  SegmentData.DeserializeSegmentInfo self data = Some (true, r) ->
  plain_bytes (take 12 data) ->
  plain_bytes (take 2 (drop 14 data)) ->
  plain_bytes
    (take 2 (drop (Z.to_nat
                     (14 + signature_consumed
                             (LogSegmentCheckpoint.signature (SegmentData.log_segment self))
                             data 12)) data)) ->
  SegmentData.SerializeSegmentInfo r = Some data.
Proof.
  intros Hrun Hp Hpl1 Hpl2.
  destruct (Z.lt_ge_cases (size data) 12) as [Hshort | Hlong].
  { unfold SegmentData.DeserializeSegmentInfo in Hrun.
    destruct (Z.ltb_spec (size data) 12); [discriminate | lia]. }
  rewrite DeserializeSegmentInfo_eq in Hrun by exact Hlong. cbv zeta in Hrun.
  set (sig1 := LogSegmentCheckpoint.signature (SegmentData.log_segment self)) in *.
  set (sig2 := LogHeadCheckpoint.signature (SegmentData.log_head self)) in *.
  set (n1 := signature_consumed sig1 data 12) in *.
  pose proof (signature_consumed_range sig1 data 12 ltac:(lia)) as Hn1. fold n1 in Hn1.
  destruct (Z.eqb_spec n1 0) as [Hz | Hnz]; [discriminate |].
  injection Hrun as Hstrict Hr. subst r.
  destruct (strict_parse_accepts sig2 data (12 + n1) Hstrict) as (Hn2 & Hnz2 & ->).
  destruct (embedded_signature_reencodes sig1 data 12 Hnz) as [_ Hs1].
  { rewrite drop_drop. exact Hpl1. }
  destruct (embedded_signature_reencodes sig2 data (12 + n1) Hnz2) as [_ Hs2].
  { rewrite drop_drop.
    replace (Z.to_nat (12 + n1) + 2)%nat with (Z.to_nat (14 + n1)) by lia. exact Hpl2. }
  rewrite Hn2 in Hs2. fold n1 in Hs1.
  rewrite take_ge in Hs2 by (unfold size; lia).
  change 12%nat with (4 + (4 + 4))%nat in Hp.
  rewrite <- take_take_drop in Hp. apply Forall_app in Hp. destruct Hp as [Hp0 Hp].
  rewrite <- take_take_drop in Hp. apply Forall_app in Hp. destruct Hp as [Hp4 Hp8].
  rewrite drop_drop in Hp8.
  unfold SegmentData.SerializeSegmentInfo.
  cbn [SegmentData.log_segment SegmentData.log_head SegmentData.timestamp
       LogSegmentCheckpoint.sequence_number LogSegmentCheckpoint.segment_size
       LogSegmentCheckpoint.signature LogHeadCheckpoint.sequence_number
       LogHeadCheckpoint.signature].
  rewrite Z.eqb_refl. cbn [negb].
  rewrite (uint_field_reencodes data 0), (uint_field_reencodes data 4),
    (uint_field_reencodes data 8) by (exact Hp0 || exact Hp4 || exact Hp8 || lia).
  cbn [mbind option_bind]. rewrite Hs1. cbn [mbind option_bind].
  rewrite Hs2. cbn [mbind option_bind]. f_equal.
  change (Z.to_nat 0) with 0%nat. change (Z.to_nat 4) with 4%nat.
  change (Z.to_nat 8) with 8%nat. change (Z.to_nat 12) with 12%nat. cbn [drop].
  replace (Z.to_nat (12 + n1)) with (12 + Z.to_nat n1)%nat by lia.
  rewrite <- (drop_drop data (Z.to_nat n1) 12). rewrite <- !app_assoc.
  rewrite take_drop. change 12%nat with (8 + 4)%nat.
  rewrite <- (drop_drop data 4 8). rewrite take_drop.
  change 8%nat with (4 + 4)%nat. rewrite <- (drop_drop data 4 4).
  rewrite take_drop. apply take_drop.
Qed.

(** The statement above at the 23-byte encoding of [segment_data_7]. *)
Lemma DeserializeSegmentInfo_then_Serialize_witness :
  SegmentData.SerializeSegmentInfo segment_data_7
  = Some [Byte.x00; Byte.x00; Byte.x00; Byte.x07; Byte.x00; Byte.x00; Byte.x00; Byte.x05;
          Byte.x00; Byte.x00; Byte.x00; Byte.x09;
          Byte.x04; Byte.x03; Byte.x00; Byte.x03; Byte.x41; Byte.x42; Byte.x43;
          Byte.x01; Byte.x01; Byte.x00; Byte.x00].
Proof.
  apply (DeserializeSegmentInfo_then_Serialize segment_data_7 segment_data_7).
  - vm_compute. reflexivity.
  - by_evaluation.
  - by_evaluation.
  - by_evaluation.
Defined.

(** ** The Cloud Monitoring gauge and counter *)

Lemma GCMGauge_Get_Set `{Countable K} {V : Type} (zero : V) (values_ : gmap K V)
    (labels : K) (value : V) :
  GCMGauge.Get zero (GCMGauge.Set_ values_ labels value) labels = value.
Proof.
  unfold GCMGauge.Get, GCMGauge.Set_. rewrite lookup_insert_eq. reflexivity.
Qed.

Lemma GCMGauge_Get_Set_other `{Countable K} {V : Type} (zero : V)
    (values_ : gmap K V) (labels other : K) (value : V) :
  other <> labels ->
  GCMGauge.Get zero (GCMGauge.Set_ values_ labels value) other
  = GCMGauge.Get zero values_ other.
Proof.
  intros Hne. unfold GCMGauge.Get, GCMGauge.Set_.
  rewrite lookup_insert_ne by congruence. reflexivity.
Qed.

(** X19: after [Set(labels, value)] the gauge reads [value] at [labels]
    and what it read before at every other label tuple; a second [Set] at
    the same labels replaces the first; a label tuple that was never set
    reads 0, and reading it with [Get] creates no entry for it. *)
Theorem GCMGauge_Set_then_Get `{Countable K} {V : Type} (zero : V)
    (values_ : gmap K V) (labels other : K) (value value' : V) :
  GCMGauge.Get zero (GCMGauge.Set_ values_ labels value) labels = value
  /\ (other <> labels ->
      GCMGauge.Get zero (GCMGauge.Set_ values_ labels value) other
      = GCMGauge.Get zero values_ other)
  /\ GCMGauge.Set_ (GCMGauge.Set_ values_ labels value) labels value'
     = GCMGauge.Set_ values_ labels value'
  /\ (values_ !! labels = None -> GCMGauge.Get zero values_ labels = zero).
Proof.
  split; [apply GCMGauge_Get_Set |]. split; [apply GCMGauge_Get_Set_other |].
  split.
  - unfold GCMGauge.Set_. apply insert_insert_eq.
  - intros Hnone. unfold GCMGauge.Get. rewrite Hnone. reflexivity.
Qed.

(** X20: [IncrementBy(labels, amount)] adds [amount] to what the counter
    read at [labels] (0 if the label tuple had no entry) and leaves every
    other label tuple as it was; two increments at the same labels add up
    in the order they were made; [Increment] is [IncrementBy] with amount
    1; afterwards the label tuple has an entry, whatever the amount. *)
Theorem GCMCounter_IncrementBy_accumulates `{Countable K} {V : Type}
    (zero one : V) (add : V -> V -> V) (gauge_ : gmap K V) (labels other : K)
    (a b : V) :
  GCMCounter.Get zero (GCMCounter.IncrementBy zero add gauge_ labels a) labels
  = add (GCMCounter.Get zero gauge_ labels) a
  /\ GCMCounter.Get zero
       (GCMCounter.IncrementBy zero add
          (GCMCounter.IncrementBy zero add gauge_ labels a) labels b) labels
     = add (add (GCMCounter.Get zero gauge_ labels) a) b
  /\ (other <> labels ->
      GCMCounter.Get zero (GCMCounter.IncrementBy zero add gauge_ labels a) other
      = GCMCounter.Get zero gauge_ other)
  /\ GCMCounter.Get zero (GCMCounter.Increment zero one add gauge_ labels) labels
     = add (GCMCounter.Get zero gauge_ labels) one
  /\ (gauge_ !! labels = None ->
      GCMCounter.IncrementBy zero add gauge_ labels a !! labels = Some (add zero a)).
Proof.
  unfold GCMCounter.Increment, GCMCounter.IncrementBy, GCMCounter.Get.
  split; [apply GCMGauge_Get_Set |]. split.
  { rewrite !GCMGauge_Get_Set. reflexivity. }
  split; [apply GCMGauge_Get_Set_other |]. split; [apply GCMGauge_Get_Set |].
  intros Hnone. unfold GCMGauge.Set_, GCMGauge.Get. rewrite Hnone.
  apply lookup_insert_eq.
Qed.

(** X21: increments at two different label tuples commute: the gauge a
    counter holds after both is the same in either order. *)
Theorem GCMCounter_increments_commute `{Countable K} {V : Type}
    (zero : V) (add : V -> V -> V) (gauge_ : gmap K V) (l1 l2 : K) (a b : V) :
  l1 <> l2 ->
  GCMCounter.IncrementBy zero add
    (GCMCounter.IncrementBy zero add gauge_ l1 a) l2 b
  = GCMCounter.IncrementBy zero add
      (GCMCounter.IncrementBy zero add gauge_ l2 b) l1 a.
Proof.
  intros Hne. unfold GCMCounter.IncrementBy.
  rewrite (GCMGauge_Get_Set_other zero gauge_ l1 l2) by congruence.
  rewrite (GCMGauge_Get_Set_other zero gauge_ l2 l1) by congruence.
  unfold GCMGauge.Set_. apply insert_insert_ne. congruence.
Qed.

(** The statement above on an empty counter, with integer amounts 2 at
    label 1 and 3 at label 5. *)
Lemma GCMCounter_increments_commute_witness :
  GCMCounter.IncrementBy 0 Z.add
    (GCMCounter.IncrementBy 0 Z.add (∅ : gmap nat Z) 1%nat 2) 5%nat 3
  = GCMCounter.IncrementBy 0 Z.add
      (GCMCounter.IncrementBy 0 Z.add (∅ : gmap nat Z) 5%nat 3) 1%nat 2.
Proof.
  apply (GCMCounter_increments_commute 0 Z.add (∅ : gmap nat Z) 1%nat 5%nat 2 3).
  lia.
Defined.

(** ** Exact failure conditions of the remaining decoders *)

(** X22: [AuditProof::Deserialize] fails exactly when the buffer is
    shorter than the counters of its tree type (12 bytes on the
    log-segment tree, 8 on the segment-info tree), or the embedded
    signature is rejected, or the number of bytes after the signature is
    not a multiple of 32.  It returns in every case. *)
Theorem AuditProof_Deserialize_fails_iff (self : AuditProof.t)
    (type : SegmentData.TreeType) (proof : std_string) :
  let offset := signature_offset type in
  let n := signature_consumed (AuditProof.signature self) proof offset in
  exists ok r,
    AuditProof.Deserialize self type proof = Some (ok, r)
    /\ (ok = false <->
        size proof < offset \/ n = 0 \/ (size proof - (offset + n)) mod 32 <> 0).
Proof.
  intros offset n.
  destruct (Z.lt_ge_cases (size proof) offset) as [Hshort | Hlong].
  - destruct (AuditProof_Deserialize_short self type proof Hshort) as (r & Hr & _).
    exists false, r. split; [exact Hr |]. tauto.
  - pose proof (AuditProof_Deserialize_run self type proof Hlong) as H. cbv zeta in H.
    destruct H as (ok & path & Heq & Hok & _). fold offset n in Hok.
    assert (Hoff : 0 <= offset) by (unfold offset, signature_offset; destruct type; cbn; lia).
    pose proof (signature_consumed_range (AuditProof.signature self) proof offset
                  ltac:(lia)) as Hn. fold n in Hn.
    rewrite size_drop in Hok by lia. rewrite Z2Nat.id in Hok by lia.
    eexists _, _. split; [exact Heq |].
    destruct ok.
    + split; [discriminate |]. destruct Hok as [Hok _]. specialize (Hok eq_refl). lia.
    + split; [| reflexivity]. intros _.
      destruct (Z.eq_dec n 0) as [Hz | Hnz]; [tauto |].
      destruct (Z.eq_dec ((size proof - (offset + n)) mod 32) 0) as [Hm | Hm]; [| tauto].
      destruct Hok as [_ Hok]. specialize (Hok (conj Hnz Hm)). discriminate.
Qed.

(** X23: [DeserializeSegmentInfo] fails exactly when the buffer is shorter
    than 12 bytes, or the first signature is rejected, or nothing is left
    after the first signature, or the second signature does not consume
    everything that is left.  It returns in every case. *)
Theorem DeserializeSegmentInfo_fails_iff (self : SegmentData.t) (data : std_string) :
  let n1 := signature_consumed
              (LogSegmentCheckpoint.signature (SegmentData.log_segment self)) data 12 in
  let n2 := signature_consumed
              (LogHeadCheckpoint.signature (SegmentData.log_head self)) data (12 + n1) in
  exists ok r,
    SegmentData.DeserializeSegmentInfo self data = Some (ok, r)
    /\ (ok = false <->
        size data < 12 \/ n1 = 0 \/ size data = 12 + n1
        \/ n2 <> size data - (12 + n1)).
Proof.
  intros n1 n2.
  destruct (Z.lt_ge_cases (size data) 12) as [Hshort | Hlong].
  - exists false, self. unfold SegmentData.DeserializeSegmentInfo.
    destruct (Z.ltb_spec (size data) 12); [| lia]. split; [reflexivity | tauto].
  - rewrite DeserializeSegmentInfo_eq by exact Hlong. cbv zeta. fold n1.
    pose proof (signature_consumed_range
                  (LogSegmentCheckpoint.signature (SegmentData.log_segment self))
                  data 12 ltac:(lia)) as Hn1. fold n1 in Hn1.
    destruct (Z.eqb_spec n1 0) as [Hz | Hnz].
    { eexists _, _. split; [reflexivity | tauto]. }
    eexists _, _. split; [reflexivity |].
    set (sig2 := LogHeadCheckpoint.signature (SegmentData.log_head self)) in *.
    unfold strict_parse, DigitallySigned.Deserialize, empty.
    unfold signature_consumed in n2. fold sig2 in n2.
    rewrite size_drop by lia. rewrite Z2Nat.id by lia.
    destruct (Z.eqb_spec (size data - (12 + n1)) 0) as [He | Hne]; cbn [fst].
    { split; [intros _; lia | reflexivity]. }
    destruct (ReadFromString_total sig2 (drop (Z.to_nat (12 + n1)) data))
      as (m & d & Hparse & _).
    subst n2. rewrite Hparse. cbn [mbind option_bind].
    destruct (Z.eqb_spec m (size data - (12 + n1))) as [Hm | Hm]; cbn [negb fst].
    + split; [discriminate | lia].
    + split; [intros _; tauto | reflexivity].
Qed.
